(** * Wandr: the sidequest filter panel, the route planning panel, the map,
      the chat and the itinerary planner

    A shallow embedding of the parts of the Wandr client that build a
    sidequest request and turn its answer into a route
    ([client/src/components/FilterPanel.tsx], [RoutePlanningPanel.tsx],
    [components/context/route-context.tsx], [MapboxMap.tsx],
    [ChatInterface.tsx]), together with a model of the itinerary planner
    that answers the request.

    Conventions.
    - A JavaScript number is a [Js.number]: [NaN], an infinity, or a finite
      double kept as the rational it denotes.  [parseFloat] and the
      subtraction round to the nearest double ([Js.binary64]) and overflow
      to an infinity; the two zeros are one value.  The division by a
      constant and the remainder behind the displayed ETA and distance,
      and the opacity of a chat message, are kept exact.
    - A string is the sequence of bytes of its UTF-8 encoding; white space
      is the WhiteSpace and LineTerminator of ECMAScript, of one, two or
      three bytes.
    - A request body is what [JSON.stringify] writes: a number that is not
      finite goes out as null.
    - React state is passed explicitly: a handler takes the current state
      and the outcome of the external calls it awaits, and returns the new
      state together with what it showed or sent.
    - Text that is only displayed (alerts, identifiers built by template
      strings) is kept as structured data carrying the interpolated
      values. *)

From Stdlib Require Import List Bool Arith ZArith QArith Qabs Qminmax.
From Stdlib Require Import String Ascii Lia Lqa Permutation.
From Stdlib Require Import Qround Qpower DecimalString.
Import ListNotations.

Local Open Scope string_scope.
Local Open Scope bool_scope.
Local Open Scope list_scope.

(* ================================================================== *)
(** * Part I. Definitions *)
(* ================================================================== *)

(** ** Lists *)

(** [xs.map(f)] where [f] also receives the index of the element, counted
    from [from]. *)
Fixpoint map_indexed {A B : Type} (f : A -> nat -> B) (from : nat) (xs : list A)
  : list B :=
  match xs with
  | [] => []
  | x :: r => f x from :: map_indexed f (S from) r
  end.

(** Insertion sort by a boolean order: [le a b] puts [a] before [b]. *)
Fixpoint insert_by {A : Type} (le : A -> A -> bool) (x : A) (l : list A)
  : list A :=
  match l with
  | [] => [x]
  | y :: r => if le x y then x :: l else y :: insert_by le x r
  end.

Fixpoint sort_by {A : Type} (le : A -> A -> bool) (l : list A) : list A :=
  match l with
  | [] => []
  | x :: r => insert_by le x (sort_by le r)
  end.

(** [a < b] on rationals, as a boolean. *)
Definition Qltb (a b : Q) : bool := negb (Qle_bool b a).

(** ** JavaScript numbers and the string primitives the client calls *)

Module Js.

Inductive number : Type :=
| NaN
| Fin (q : Q)
| Inf (negative : bool).

Definition zero : number := Fin 0.

(** [2^e]. *)
Definition pow2 (e : Z) : Q :=
  if (0 <=? e)%Z then inject_Z (2 ^ e) else 1 # Z.to_pos (2 ^ (- e)).

(** For [q > 0], the [e] with [2^e <= q < 2^(e+1)]. *)
Definition floor_log2 (q : Q) : Z :=
  let l := (Z.log2 (Qnum q) - Z.log2 (Zpos (Qden q)))%Z in
  if Qle_bool (pow2 l) q then l else (l - 1)%Z.

(** The integer nearest to [q], the even one of two that are as near. *)
Definition nearest_even (q : Q) : Z :=
  let m := Qfloor q in
  match Qcompare (q - inject_Z m) (1 # 2) with
  | Lt => m
  | Gt => (m + 1)%Z
  | Eq => if Z.even m then m else (m + 1)%Z
  end.

(** The double nearest to [q >= 0]: 53 significant bits, the last of them
    worth no less than [2^-1074], ties to even; [None] from [2^1024] on
    (overflow). *)
Definition magnitude64 (q : Q) : option Q :=
  let e := Z.max (floor_log2 q - 52) (-1074) in
  let r := inject_Z (nearest_even (q / pow2 e)) * pow2 e in
  if Qle_bool (pow2 1024) r then None else Some (Qred r).

(** The Number value of a real number: the nearest double (IEEE 754
    binary64, round to nearest, ties to even), an infinity on overflow.
    The two zeros are not told apart. *)
Definition binary64 (q : Q) : number :=
  let q := Qred q in
  match magnitude64 (Qabs q) with
  | Some r => Fin (if Qltb q 0 then - r else r)
  | None => Inf (Qltb q 0)
  end.

Arguments binary64 : simpl never.

(** [Number.isNaN] / [isNaN] on a value that already is a number. *)
Definition isNaN (x : number) : bool :=
  match x with NaN => true | _ => false end.

(** [a < b]: false as soon as one side is [NaN]. *)
Definition ltb (a b : number) : bool :=
  match a, b with
  | NaN, _ | _, NaN => false
  | Fin x, Fin y => Qltb x y
  | Fin _, Inf neg => negb neg
  | Inf neg, Fin _ => neg
  | Inf n1, Inf n2 => n1 && negb n2
  end.

(** [a > b]. *)
Definition gtb (a b : number) : bool := ltb b a.

(** [a === b] on numbers: [NaN] equals nothing. *)
Definition strict_eq (a b : number) : bool :=
  match a, b with
  | Fin x, Fin y => Qeq_bool x y
  | Inf n1, Inf n2 => Bool.eqb n1 n2
  | _, _ => false
  end.

(** [a - b]: the exact difference, rounded to the nearest double. *)
Definition sub (a b : number) : number :=
  match a, b with
  | NaN, _ | _, NaN => NaN
  | Fin x, Fin y => binary64 (x - y)
  | Fin _, Inf n => Inf (negb n)
  | Inf n, Fin _ => Inf n
  | Inf n1, Inf n2 => if Bool.eqb n1 n2 then NaN else Inf n1
  end.

(** [Math.abs]. *)
Definition abs (a : number) : number :=
  match a with
  | NaN => NaN
  | Fin x => Fin (Qabs x)
  | Inf _ => Inf false
  end.

(** What [JSON.stringify] writes for a number: [null] ([None]) for [NaN]
    and the infinities. *)
Definition json (a : number) : option Q :=
  match a with
  | Fin q => Some q
  | _ => None
  end.

(** A string is the sequence of the bytes of its UTF-8 encoding.  The
    white space of [String.prototype.trim], of [parseFloat] and of the
    class [\s] is WhiteSpace and LineTerminator of ECMAScript.  Those of
    one byte: TAB, LF, VT, FF, CR and SPACE. *)
Definition isWhiteSpace (c : ascii) : bool :=
  match nat_of_ascii c with
  | 9%nat | 10%nat | 11%nat | 12%nat | 13%nat | 32%nat => true
  | _ => false
  end.

(** The one of two bytes: U+00A0, encoded C2 A0. *)
Definition isWhiteSpace2 (a b : ascii) : bool :=
  match nat_of_ascii a, nat_of_ascii b with
  | 194%nat, 160%nat => true
  | _, _ => false
  end.

(** Those of three bytes: U+1680 (E1 9A 80), U+2000 to U+200A
    (E2 80 80 to E2 80 8A), U+2028, U+2029 and U+202F (E2 80 A8, A9, AF),
    U+205F (E2 81 9F), U+3000 (E3 80 80) and U+FEFF (EF BB BF). *)
Definition isWhiteSpace3 (a b c : ascii) : bool :=
  match nat_of_ascii a, nat_of_ascii b with
  | 225%nat, 154%nat => (nat_of_ascii c =? 128)%nat
  | 226%nat, 128%nat =>
      ((128 <=? nat_of_ascii c)%nat && (nat_of_ascii c <=? 138)%nat)
      || (nat_of_ascii c =? 168)%nat || (nat_of_ascii c =? 169)%nat
      || (nat_of_ascii c =? 175)%nat
  | 226%nat, 129%nat => (nat_of_ascii c =? 159)%nat
  | 227%nat, 128%nat => (nat_of_ascii c =? 128)%nat
  | 239%nat, 187%nat => (nat_of_ascii c =? 191)%nat
  | _, _ => false
  end.

(** [s] starts with white space. *)
Definition whiteSpaceAhead (s : string) : bool :=
  match s with
  | EmptyString => false
  | String a r =>
      isWhiteSpace a
      || match r with
         | EmptyString => false
         | String b r2 =>
             isWhiteSpace2 a b
             || match r2 with
                | EmptyString => false
                | String c _ => isWhiteSpace3 a b c
                end
         end
  end.

(** [s.trimStart()]: the white space at the head of [s] is dropped, one
    code point after the other. *)
Fixpoint trimStart (s : string) : string :=
  match s with
  | EmptyString => EmptyString
  | String a r =>
      if isWhiteSpace a then trimStart r
      else
        match r with
        | EmptyString => s
        | String b r2 =>
            if isWhiteSpace2 a b then trimStart r2
            else
              match r2 with
              | EmptyString => s
              | String c r3 =>
                  if isWhiteSpace3 a b c then trimStart r3 else s
              end
        end
  end.

(** [s] is made of white space only. *)
Fixpoint blank (s : string) : bool :=
  match s with
  | EmptyString => true
  | String a r =>
      if isWhiteSpace a then blank r
      else
        match r with
        | EmptyString => false
        | String b r2 =>
            if isWhiteSpace2 a b then blank r2
            else
              match r2 with
              | EmptyString => false
              | String c r3 => isWhiteSpace3 a b c && blank r3
              end
        end
  end.

(** [s.trimEnd()]: [s] is cut where nothing but white space follows. *)
Fixpoint trimEnd (s : string) : string :=
  if blank s then EmptyString
  else
    match s with
    | EmptyString => EmptyString
    | String c r => String c (trimEnd r)
    end.

(** [s.trim()]. *)
Definition trim (s : string) : string := trimEnd (trimStart s).

Definition digit (c : ascii) : option Z :=
  let n := nat_of_ascii c in
  if (48 <=? n)%nat && (n <=? 57)%nat then Some (Z.of_nat (n - 48)) else None.

(** The longest run of decimal digits at the head of [s], and the rest. *)
Fixpoint digits (s : string) : list Z * string :=
  match s with
  | EmptyString => ([], EmptyString)
  | String c r =>
      match digit c with
      | Some d => let (ds, rest) := digits r in (d :: ds, rest)
      | None => ([], s)
      end
  end.

Definition decimal (ds : list Z) : Z :=
  fold_left (fun acc d => 10 * acc + d)%Z ds 0%Z.

Definition sign (s : string) : bool * string :=
  match s with
  | String "-" r => (true, r)
  | String "+" r => (false, r)
  | _ => (false, s)
  end.

(** ExponentPart: [e] or [E], an optional sign and at least one digit;
    anything else is not part of the literal and counts as exponent 0. *)
Definition exponentPart (s : string) : Z :=
  match s with
  | String c r =>
      if Ascii.eqb c "e" || Ascii.eqb c "E" then
        let (neg, r') := sign r in
        let (ds, _) := digits r' in
        match ds with
        | [] => 0%Z
        | _ => if neg then (- decimal ds)%Z else decimal ds
        end
      else 0%Z
  | EmptyString => 0%Z
  end.

(** [m * 10^e]. *)
Definition scale (m e : Z) : Q :=
  if (0 <=? e)%Z then inject_Z (m * 10 ^ e) else Qmake m (Z.to_pos (10 ^ (- e))).

(** The mathematical value of the longest prefix of [s] that is a
    StrUnsignedDecimalLiteral other than [Infinity]. *)
Definition unsignedDecimal (s : string) : option Q :=
  let (ip, r1) := digits s in
  match r1 with
  | String "." r2 =>
      let (fp, r3) := digits r2 in
      match ip, fp with
      | [], [] => None
      | _, _ =>
          Some (scale (decimal (ip ++ fp))
                      (exponentPart r3 - Z.of_nat (List.length fp)))
      end
  | _ =>
      match ip with
      | [] => None
      | _ => Some (scale (decimal ip) (exponentPart r1))
      end
  end.

(** [parseFloat(s)]: skip leading white space, read the longest prefix
    that is a StrDecimalLiteral and give the Number value of what it
    denotes; [NaN] when there is none. *)
Definition parseFloat (s : string) : number :=
  let (neg, r) := sign (trimStart s) in
  if String.prefix "Infinity" r then Inf neg
  else
    match unsignedDecimal r with
    | Some q => binary64 (if neg then - q else q)
    | None => NaN
    end.

(** [a >= b]. *)
Definition geb (a b : number) : bool :=
  match a, b with
  | NaN, _ | _, NaN => false
  | Fin x, Fin y => Qle_bool y x
  | Fin _, Inf neg => neg
  | Inf neg, Fin _ => negb neg
  | Inf n1, Inf n2 => negb n1 || n2
  end.

(** [a / d] for a finite constant [d] greater than 0. *)
Definition divide (a : number) (d : Q) : number :=
  match a with
  | NaN => NaN
  | Fin x => Fin (x / d)
  | Inf s => Inf s
  end.

(** [Math.round]: the nearest integer, halves going up. *)
Definition round (a : number) : number :=
  match a with
  | Fin x => Fin (inject_Z (Qfloor (x + (1 # 2))))
  | _ => a
  end.

(** [Math.floor]. *)
Definition floor (a : number) : number :=
  match a with
  | Fin x => Fin (inject_Z (Qfloor x))
  | _ => a
  end.

(** [a % d] for a finite constant [d] greater than 0: the remainder has
    the sign of [a]; an infinite [a] gives [NaN]. *)
Definition remainder (a : number) (d : Q) : number :=
  match a with
  | Fin x =>
      let q := if Qle_bool 0 x then Qfloor (x / d) else Qceiling (x / d) in
      Fin (x - d * inject_Z q)
  | _ => NaN
  end.

(** The decimal digits of a non-negative integer, as a template string
    renders it. *)
Definition natToString (n : nat) : string :=
  NilZero.string_of_uint (Nat.to_uint n).

End Js.

(** ** components/context/route-context.tsx *)

Module RouteContext.

(** The template string
    [sidequest-${index}-${title}-${lat},${lon}] is kept as its four
    interpolated values; any other identifier is a literal string. *)
Inductive PlaceId : Type :=
| SidequestId (index : nat) (title : string) (lat lon : Js.number)
| LiteralId (id : string).

Record PlaceStop : Type := {
  place_id : PlaceId;
  name : string;
  address : string;
  lat : Js.number;
  lng : Js.number;
  rating : option Js.number;
  user_ratings_total : option Js.number;
  types : option (list string);
  google_maps_uri : option string;
  website_uri : option (option string);
  business_status : option string;
  start_time : option string;
  duration_hours : option Js.number;
  cost : option Js.number;
  activity_type : option string;
  indoor_outdoor : option string;
  energy_level : option Js.number;
  confidence : option Js.number
}.

(** [[lng, lat]] for Mapbox. *)
Definition Waypoint : Type := (Js.number * Js.number)%type.

Record Location : Type := {
  latitude : Js.number;
  longitude : Js.number
}.

(** The three pieces of state held by [RouteProvider]. *)
Record State : Type := {
  userLocation : option Location;
  stops : list PlaceStop;
  waypoints : list Waypoint
}.

Definition initial : State :=
  {| userLocation := None; stops := []; waypoints := [] |}.

Definition setUserLocation (loc : option Location) (st : State) : State :=
  {| userLocation := loc; stops := stops st; waypoints := waypoints st |}.

Definition setStops (s : list PlaceStop) (st : State) : State :=
  {| userLocation := userLocation st; stops := s; waypoints := waypoints st |}.

Definition setWaypoints (w : list Waypoint) (st : State) : State :=
  {| userLocation := userLocation st; stops := stops st; waypoints := w |}.

End RouteContext.

(** ** components/FilterPanel.tsx *)

Module FilterPanel.

Import RouteContext.

Record Interests : Type := {
  shopping : bool;
  food : bool;
  entertainment : bool;
  scenery : bool
}.

Record TimeRange : Type := {
  start : string;
  end_ : string
}.

Record IndoorOutdoorBoxes : Type := {
  indoor : bool;
  outdoor : bool
}.

Record FilterState : Type := {
  energy : Js.number;
  interests : Interests;
  budget : Js.number;
  time : TimeRange;
  indoorOutdoor : IndoorOutdoorBoxes;
  distance : string
}.

(** [keyof FilterState['interests']] and [keyof FilterState['indoorOutdoor']]. *)
Inductive InterestKey : Type :=
  KShopping | KFood | KEntertainment | KScenery.
Inductive IndoorOutdoorKey : Type := KIndoor | KOutdoor.
Inductive TimeField : Type := FStart | FEnd.

Definition key_name (k : InterestKey) : string :=
  match k with
  | KShopping => "shopping"
  | KFood => "food"
  | KEntertainment => "entertainment"
  | KScenery => "scenery"
  end.

Definition interest_at (i : Interests) (k : InterestKey) : bool :=
  match k with
  | KShopping => shopping i
  | KFood => food i
  | KEntertainment => entertainment i
  | KScenery => scenery i
  end.

(** The argument of [useState]. *)
Definition initialFilters : FilterState :=
  {| energy := Js.Fin 5;
     interests := {| shopping := false; food := false;
                     entertainment := false; scenery := false |};
     budget := Js.Fin 0;
     time := {| start := "09:00"; end_ := "17:00" |};
     indoorOutdoor := {| indoor := false; outdoor := false |};
     distance := "5" |}.

Definition handleEnergyChange (value : Js.number) (prev : FilterState) : FilterState :=
  {| energy := value; interests := interests prev; budget := budget prev;
     time := time prev; indoorOutdoor := indoorOutdoor prev;
     distance := distance prev |}.

Definition handleBudgetChange (value : Js.number) (prev : FilterState) : FilterState :=
  {| energy := energy prev; interests := interests prev; budget := value;
     time := time prev; indoorOutdoor := indoorOutdoor prev;
     distance := distance prev |}.

Definition toggleInterest (k : InterestKey) (i : Interests) : Interests :=
  match k with
  | KShopping => {| shopping := negb (shopping i); food := food i;
                    entertainment := entertainment i; scenery := scenery i |}
  | KFood => {| shopping := shopping i; food := negb (food i);
                entertainment := entertainment i; scenery := scenery i |}
  | KEntertainment => {| shopping := shopping i; food := food i;
                         entertainment := negb (entertainment i);
                         scenery := scenery i |}
  | KScenery => {| shopping := shopping i; food := food i;
                   entertainment := entertainment i;
                   scenery := negb (scenery i) |}
  end.

Definition handleInterestChange (k : InterestKey) (prev : FilterState) : FilterState :=
  {| energy := energy prev; interests := toggleInterest k (interests prev);
     budget := budget prev; time := time prev;
     indoorOutdoor := indoorOutdoor prev; distance := distance prev |}.

Definition handleTimeChange (field : TimeField) (value : string)
    (prev : FilterState) : FilterState :=
  {| energy := energy prev; interests := interests prev; budget := budget prev;
     time := match field with
             | FStart => {| start := value; end_ := end_ (time prev) |}
             | FEnd => {| start := start (time prev); end_ := value |}
             end;
     indoorOutdoor := indoorOutdoor prev; distance := distance prev |}.

Definition handleIndoorOutdoorChange (k : IndoorOutdoorKey)
    (prev : FilterState) : FilterState :=
  {| energy := energy prev; interests := interests prev; budget := budget prev;
     time := time prev;
     indoorOutdoor :=
       match k with
       | KIndoor => {| indoor := negb (indoor (indoorOutdoor prev));
                       outdoor := outdoor (indoorOutdoor prev) |}
       | KOutdoor => {| indoor := indoor (indoorOutdoor prev);
                        outdoor := negb (outdoor (indoorOutdoor prev)) |}
       end;
     distance := distance prev |}.

Definition handleDistanceChange (value : string) (prev : FilterState) : FilterState :=
  {| energy := energy prev; interests := interests prev; budget := budget prev;
     time := time prev; indoorOutdoor := indoorOutdoor prev;
     distance := value |}.

(** What the user can do to the panel before pressing the button. *)
Inductive Edit : Type :=
| EnergyChange (value : Js.number)
| BudgetChange (value : Js.number)
| InterestChange (k : InterestKey)
| TimeChange (field : TimeField) (value : string)
| IndoorOutdoorChange (k : IndoorOutdoorKey)
| DistanceChange (value : string).

Definition apply_edit (f : FilterState) (e : Edit) : FilterState :=
  match e with
  | EnergyChange v => handleEnergyChange v f
  | BudgetChange v => handleBudgetChange v f
  | InterestChange k => handleInterestChange k f
  | TimeChange fld v => handleTimeChange fld v f
  | IndoorOutdoorChange k => handleIndoorOutdoorChange k f
  | DistanceChange v => handleDistanceChange v f
  end.

Definition after_edits (es : list Edit) : FilterState :=
  fold_left apply_edit es initialFilters.

Record SidequestActivity : Type := {
  a_title : string;
  a_lat : Js.number;
  a_lon : Js.number;
  a_start_time : option string;
  a_duration_hours : Js.number;
  a_cost : option Js.number;
  a_activity_type : string;
  a_indoor_outdoor : string;
  a_energy_level : Js.number;
  a_confidence : Js.number
}.

Record ResponseMetadata : Type := {
  activities_considered : Js.number;
  activities_selected : Js.number;
  activities_in_itinerary : Js.number;
  generation_time : option string
}.

Record SidequestResponse : Type := {
  itinerary : list SidequestActivity;
  total_duration : Js.number;
  total_cost : Js.number;
  summary : string;
  metadata : ResponseMetadata
}.

Definition mapActivityToPlaceStop (activity : SidequestActivity) (index : nat)
  : PlaceStop :=
  {| place_id := SidequestId index (a_title activity) (a_lat activity)
                             (a_lon activity);
     name := a_title activity;
     address := "";
     lat := a_lat activity;
     lng := a_lon activity;
     rating := None;
     user_ratings_total := None;
     types := Some [a_activity_type activity];
     google_maps_uri := None;
     website_uri := None;
     business_status := None;
     start_time := None;
     duration_hours := None;
     cost := None;
     activity_type := None;
     indoor_outdoor := None;
     energy_level := None;
     confidence := None |}.

(** The object [sidequestData] that is handed to [JSON.stringify];
    [null] is [None]. *)
Record SidequestData : Type := {
  d_lat : Js.number;
  d_lon : Js.number;
  d_travel_distance : Js.number;
  d_start_time : string;
  d_end_time : string;
  d_budget : option Js.number;
  d_interests : list string;
  d_energy : Js.number;
  d_indoor_outdoor : option string;
  d_user_id : string
}.

(** [Object.keys(filters.interests)] with the value under each key, in
    the order the keys were created. *)
Definition interest_entries (i : Interests) : list (string * bool) :=
  map (fun k => (key_name k, interest_at i k))
      [KShopping; KFood; KEntertainment; KScenery].

Definition selectedInterests (f : FilterState) : list string :=
  map fst (filter snd (interest_entries (interests f))).

Definition selectedIndoorOutdoor (f : FilterState) : option string :=
  if indoor (indoorOutdoor f) && outdoor (indoorOutdoor f) then None
  else if indoor (indoorOutdoor f) then Some "indoor"
  else if outdoor (indoorOutdoor f) then Some "outdoor"
  else None.

Definition sidequestData (f : FilterState) (location : Location)
    (distanceNumber : Js.number) : SidequestData :=
  {| d_lat := latitude location;
     d_lon := longitude location;
     d_travel_distance := distanceNumber;
     d_start_time := start (time f);
     d_end_time := end_ (time f);
     d_budget := if Js.gtb (budget f) Js.zero then Some (budget f) else None;
     d_interests := selectedInterests f;
     d_energy := energy f;
     d_indoor_outdoor := selectedIndoorOutdoor f;
     d_user_id := "test_user" |}.

(** The body of the POST, as [JSON.stringify(sidequestData)] writes it: a
    number that is not finite goes out as [null]. *)
Record Body : Type := {
  b_lat : option Q;
  b_lon : option Q;
  b_travel_distance : option Q;
  b_start_time : string;
  b_end_time : string;
  b_budget : option Q;
  b_interests : list string;
  b_energy : option Q;
  b_indoor_outdoor : option string;
  b_user_id : string
}.

Definition stringify (d : SidequestData) : Body :=
  {| b_lat := Js.json (d_lat d);
     b_lon := Js.json (d_lon d);
     b_travel_distance := Js.json (d_travel_distance d);
     b_start_time := d_start_time d;
     b_end_time := d_end_time d;
     b_budget := match d_budget d with
                 | Some b => Js.json b
                 | None => None
                 end;
     b_interests := d_interests d;
     b_energy := Js.json (d_energy d);
     b_indoor_outdoor := d_indoor_outdoor d;
     b_user_id := d_user_id d |}.

(** The one [alert] each run of the handler shows. *)
Inductive Alert : Type :=
| EnterDistance          (* Please enter a distance value *)
| InvalidDistance        (* Distance must be a valid positive number *)
| EnableLocation         (* Please enable location access and try again. *)
| Generated (activities : nat) (total_duration : Js.number)
| GenerationFailed       (* Failed to generate sidequest. Please try again. *)
| UnexpectedError.       (* Unexpected error while generating sidequest. *)

(** How the awaited [fetch] ends. *)
Inductive FetchOutcome : Type :=
| Threw
| NotOk (status : nat) (text : string)
| Ok (result : SidequestResponse).

(** One run of the handler: the route context it leaves, the request it
    posted (if any) and the alert it showed. *)
Record Run : Type := {
  context : State;
  posted : option SidequestData;
  shown : Alert
}.

Definition waypointsOf (location : Location) (placeStops : list PlaceStop)
  : list Waypoint :=
  (longitude location, latitude location)
    :: map (fun stop => (lng stop, lat stop)) placeStops.

(** [handleGenerateSidequest].  [geo] is how [getUserLocation()] settles
    ([None]: rejected), [server] how the POST of a given body ends. *)
Definition handleGenerateSidequest (filters : FilterState) (ctx : State)
    (geo : option Location) (server : SidequestData -> FetchOutcome) : Run :=
  if String.eqb (Js.trim (distance filters)) "" then
    {| context := ctx; posted := None; shown := EnterDistance |}
  else
    let distanceNumber := Js.parseFloat (distance filters) in
    if Js.isNaN distanceNumber || Js.ltb distanceNumber Js.zero then
      {| context := ctx; posted := None; shown := InvalidDistance |}
    else
      match geo with
      | None => {| context := ctx; posted := None; shown := EnableLocation |}
      | Some location =>
          let ctx1 := setUserLocation (Some location) ctx in
          let data := sidequestData filters location distanceNumber in
          match server data with
          | Threw =>
              {| context := ctx1; posted := Some data; shown := UnexpectedError |}
          | NotOk _ _ =>
              {| context := ctx1; posted := Some data; shown := GenerationFailed |}
          | Ok result =>
              let placeStops :=
                map_indexed mapActivityToPlaceStop 0 (itinerary result) in
              let ctx2 := setStops placeStops ctx1 in
              let ctx3 := setWaypoints (waypointsOf location placeStops) ctx2 in
              {| context := ctx3; posted := Some data;
                 shown := Generated (List.length (itinerary result))
                                    (total_duration result) |}
          end
      end.

(** Minutes since midnight of an [HH:MM] value of an [<input type="time">]. *)
Definition clock_minutes (s : string) : option Z :=
  match s with
  | String h1 (String h2 (String ":" (String m1 (String m2 EmptyString)))) =>
      match Js.digit h1, Js.digit h2, Js.digit m1, Js.digit m2 with
      | Some a, Some b, Some c, Some d =>
          Some ((10 * a + b) * 60 + (10 * c + d))%Z
      | _, _, _, _ => None
      end
  | _ => None
  end.

End FilterPanel.

(** ** components/RoutePlanningPanel.tsx *)

Module RoutePlanningPanel.

Import RouteContext.

Definition LngLat : Type := (Js.number * Js.number)%type.

Inductive Profile : Type := driving | walking | cycling.

Record StepItem : Type := {
  text : string;
  step_distance : Js.number;
  mainInstruction : string;
  subInstruction : string
}.

Definition placeholder_token : string := "YOUR_MAPBOX_TOKEN_HERE".

(** [process.env.NEXT_PUBLIC_MAPBOX_TOKEN || "YOUR_MAPBOX_TOKEN_HERE"]:
    an unset or empty variable is falsy. *)
Definition MAPBOX_TOKEN (env : option string) : string :=
  match env with
  | Some t => if String.eqb t "" then placeholder_token else t
  | None => placeholder_token
  end.

(** The Directions URL, kept as the values it is assembled from; the
    query parameters [geometries], [steps] and [overview] are constants. *)
Record DirectionsUrl : Type := {
  url_profile : Profile;
  url_path : list LngLat;
  url_access_token : string
}.

Definition buildDirectionsUrl (token : string) (profile : Profile)
    (coords : list LngLat) : DirectionsUrl :=
  {| url_profile := profile; url_path := coords; url_access_token := token |}.

(** The literal [1e-5]: the double nearest to it. *)
Definition epsilon : Js.number := Js.binary64 (1 # 100000).

Definition nearlySame (a b : LngLat) : bool :=
  Js.ltb (Js.abs (Js.sub (fst a) (fst b))) epsilon
  && Js.ltb (Js.abs (Js.sub (snd a) (snd b))) epsilon.

(** The panel's own React state. *)
Record PanelState : Type := {
  loading : bool;
  profile : Profile;
  error : option string;
  etaMin : option Js.number;
  distanceKm : option Js.number;
  steps : list StepItem
}.

(** [addStop]; [id] is the fresh identifier drawn from the runtime. *)
Definition addStop (id : string) (ctx : State) : State :=
  let newStop :=
    {| place_id := LiteralId id; name := "New stop"; address := "";
       lat := Js.zero; lng := Js.zero;
       rating := None; user_ratings_total := None; types := None;
       google_maps_uri := None; website_uri := Some None;
       business_status := None; start_time := None;
       duration_hours := None; cost := None; activity_type := None;
       indoor_outdoor := None; energy_level := None; confidence := None |} in
  setStops (stops ctx ++ [newStop]) ctx.

(** The guard of the loop of [buildPoints].  Both [typeof] tests hold by
    the type of [PlaceStop]. *)
Definition hasCoordinates (s : PlaceStop) : bool :=
  negb (Js.isNaN (lng s))
  && negb (Js.isNaN (lat s))
  && negb (Js.strict_eq (lng s) Js.zero && Js.strict_eq (lat s) Js.zero).

Definition coordinates (s : PlaceStop) : LngLat := (lng s, lat s).

(** [pts[pts.length - 1]], when [pts.length] is not zero. *)
Definition lastPoint (pts : list LngLat) : option LngLat :=
  match List.rev pts with
  | [] => None
  | p :: _ => Some p
  end.

(** One turn of the loop over [stops]. *)
Definition visitStop (pts : list LngLat) (s : PlaceStop) : list LngLat :=
  if hasCoordinates s then
    let pt := coordinates s in
    match lastPoint pts with
    | None => pts ++ [pt]
    | Some l => if negb (nearlySame l pt) then pts ++ [pt] else pts
    end
  else pts.

Definition originPoints (ctx : State) : list LngLat :=
  match userLocation ctx with
  | Some loc => [(longitude loc, latitude loc)]
  | None => []
  end.

Definition buildPoints (ctx : State) : list LngLat :=
  fold_left visitStop (stops ctx) (originPoints ctx).

(** [handleStart] up to the point where it awaits [fetch]: either it
    returned before, or it has issued the Directions request [url] and
    told the map which way points to draw. *)
Inductive Started : Type :=
| Returned (st : PanelState)
| Fetching (st : PanelState) (ctx : State) (url : DirectionsUrl).

Definition cleared (st : PanelState) : PanelState :=
  {| loading := loading st; profile := profile st; error := None;
     etaMin := None; distanceKm := None; steps := [] |}.

Definition setError (msg : string) (st : PanelState) : PanelState :=
  {| loading := loading st; profile := profile st; error := Some msg;
     etaMin := etaMin st; distanceKm := distanceKm st; steps := steps st |}.

Definition setLoading (b : bool) (st : PanelState) : PanelState :=
  {| loading := b; profile := profile st; error := error st;
     etaMin := etaMin st; distanceKm := distanceKm st; steps := steps st |}.

Definition handleStart (env : option string) (st : PanelState) (ctx : State)
  : Started :=
  let st0 := cleared st in
  let token := MAPBOX_TOKEN env in
  if String.eqb token "" || String.eqb token placeholder_token then
    Returned (setError "Missing Mapbox token. Set NEXT_PUBLIC_MAPBOX_TOKEN." st0)
  else
    let points := buildPoints ctx in
    if (List.length points <? 2)%nat then
      Returned
        (setError
           "Add at least a start and one destination with valid coordinates."
           st0)
    else
      Fetching (setLoading true st0) (setWaypoints points ctx)
               (buildDirectionsUrl token (profile st) points).

(** The Directions requests a run of [handleStart] issues. *)
Definition requests (r : Started) : list DirectionsUrl :=
  match r with
  | Returned _ => []
  | Fetching _ _ url => [url]
  end.

Definition stateOf (r : Started) : PanelState :=
  match r with
  | Returned st => st
  | Fetching st _ _ => st
  end.

(** An entry of [uiStops]: the origin row, or the row of a place. *)
Inductive UiStop : Type :=
| UiOrigin
| UiPlace (id : PlaceId) (shown_name : string) (place : PlaceStop).

(** [s || ""] on a string. *)
Definition orEmpty (s : string) : string :=
  if String.eqb s "" then "" else s.

Definition uiStops (ctx : State) : list UiStop :=
  match userLocation ctx with
  | Some _ => [UiOrigin]
  | None => []
  end
  ++ map (fun s => UiPlace (place_id s) (orEmpty (name s)) s) (stops ctx).

(** What the Directions API answers, as far as [handleStart] reads it:
    [routes[0]] with its [duration], [distance] and [legs], each leg with
    its [steps], each step with [maneuver.instruction] and [distance];
    [None] is a field that is missing or null. *)
Record Step : Type := {
  maneuver_instruction : option string;
  s_distance : option Js.number
}.

Record Leg : Type := {
  leg_steps : option (list Step)
}.

Record Route : Type := {
  r_duration : option Js.number;
  r_distance : option Js.number;
  r_legs : option (list Leg)
}.

(** How the awaited [fetch(url)] and [res.json()] end: an exception with
    its message, a response that is not ok with its status and text, or
    the parsed body with its [routes]. *)
Inductive Response : Type :=
| Rejected (message : string)
| NotOk (status : nat) (txt : string)
| Json (routes : option (list Route)).

(** Letters compare without case under the [i] flag. *)
Definition lower (c : ascii) : ascii :=
  let n := nat_of_ascii c in
  if (65 <=? n)%nat && (n <=? 90)%nat then ascii_of_nat (n + 32) else c.

Definition same_letter (a b : ascii) : bool := Ascii.eqb (lower a) (lower b).

(** [kw] read at the head of [s] without regard to case: the text as it
    stands in [s], and what follows. *)
Fixpoint strip_prefix_ci (kw s : string) : option (string * string) :=
  match kw with
  | EmptyString => Some (EmptyString, s)
  | String k kw' =>
      match s with
      | EmptyString => None
      | String c r =>
          if same_letter k c then
            match strip_prefix_ci kw' r with
            | Some (m, rest) => Some (String c m, rest)
            | None => None
            end
          else None
      end
  end.

(** The line terminators of one byte: LF and CR. *)
Definition isLineTerminator (c : ascii) : bool :=
  match nat_of_ascii c with
  | 10%nat | 13%nat => true
  | _ => false
  end.

(** [s] starts with a line terminator, which [.] does not match: LF, CR,
    U+2028 or U+2029 (E2 80 A8 and E2 80 A9). *)
Definition lineTerminatorAhead (s : string) : bool :=
  match s with
  | EmptyString => false
  | String a r =>
      isLineTerminator a
      || match r with
         | String b (String c _) =>
             (nat_of_ascii a =? 226)%nat && (nat_of_ascii b =? 128)%nat
             && ((nat_of_ascii c =? 168)%nat || (nat_of_ascii c =? 169)%nat)
         | _ => false
         end
  end.

Fixpoint no_line_terminator (s : string) : bool :=
  match s with
  | EmptyString => true
  | String c r => negb (lineTerminatorAhead s) && no_line_terminator r
  end.

(** The last group and [$]: any characters but line terminators, up to
    the end of the input. *)
Definition rest_of_line (s : string) : option string :=
  if no_line_terminator s then Some s else None.

(** [\s*] and the last group: the white space is taken whole; giving
    some back cannot help, since what follows must reach the end without
    a line terminator either way. *)
Definition after_space (s : string) : option string :=
  rest_of_line (Js.trimStart s).

(** [\.?], [\s*] and the last group: first with the dot taken, then
    without. *)
Definition after_keyword (s : string) : option string :=
  match s with
  | String "." r =>
      match after_space r with
      | Some t => Some t
      | None => after_space s
      end
  | _ => after_space s
  end.

Definition keywords : list string :=
  ["Turn left"; "Turn right"; "Continue straight"; "Go straight"; "Head";
   "Keep left"; "Keep right"].

(** The alternation followed by the tail, alternatives in order. *)
Fixpoint try_keywords (kws : list string) (s : string)
  : option (string * string) :=
  match kws with
  | [] => None
  | kw :: more =>
      match strip_prefix_ci kw s with
      | Some (m, r) =>
          match after_keyword r with
          | Some t => Some (m, t)
          | None => try_keywords more s
          end
      | None => try_keywords more s
      end
  end.

(** The lazy group [(.*?)], [\s+], the keyword and the tail, from the
    head of [s]: the lazy group grows one byte at a time, never into a
    line terminator; the white space before the keyword is taken whole,
    as no keyword starts with white space.  The three groups. *)
Fixpoint match_from (s : string) : option (string * string * string) :=
  let here :=
    if Js.whiteSpaceAhead s then
      match try_keywords keywords (Js.trimStart s) with
      | Some (kw, t) => Some (EmptyString, kw, t)
      | None => None
      end
    else None in
  match here with
  | Some groups => Some groups
  | None =>
      match s with
      | EmptyString => None
      | String c r =>
          if lineTerminatorAhead s then None
          else
            match match_from r with
            | Some (g1, kw, t) => Some (String c g1, kw, t)
            | None => None
            end
      end
  end.

(** One of the three [turnPatterns], anchored at both ends and with the
    flag [i]: [lead] opens the first group and is empty, [Via ] or
    [Continue to ]. *)
Definition turnPattern (lead s : string) : option (string * string * string) :=
  match strip_prefix_ci lead s with
  | Some (m, r) =>
      match match_from r with
      | Some (g1, kw, t) => Some (String.append m g1, kw, t)
      | None => None
      end
  | None => None
  end.

Definition turnPatterns : list string := [""; "Via "; "Continue to "].

(** The loop over the patterns, up to its [break]. *)
Fixpoint firstMatch (leads : list string) (s : string)
  : option (string * string * string) :=
  match leads with
  | [] => None
  | lead :: more =>
      match turnPattern lead s with
      | Some groups => Some groups
      | None => firstMatch more s
      end
  end.

(** [instruction.split(". ")]. *)
Fixpoint split_sentences (s : string) : list string :=
  match s with
  | EmptyString => [EmptyString]
  | String "." (String " " r) => EmptyString :: split_sentences r
  | String c r =>
      match split_sentences r with
      | p :: ps => String c p :: ps
      | [] => [String c EmptyString]
      end
  end.

(** [parts.join(sep)]. *)
Fixpoint join (sep : string) (parts : list string) : string :=
  match parts with
  | [] => EmptyString
  | [p] => p
  | p :: more => String.append p (String.append sep (join sep more))
  end.

(** The main and the sub instruction of a step. *)
Definition splitInstruction (instruction : string) : string * string :=
  let matched :=
    match firstMatch turnPatterns instruction with
    | Some (g1, kw, t) =>
        (Js.trim g1,
         Js.trim (String.append kw
                    (if String.eqb t "" then "" else String.append " " t)))
    | None => (instruction, "")
    end in
  if String.eqb (snd matched) "" then
    match split_sentences instruction with
    | p :: q :: more => (p, join ". " (q :: more))
    | _ => matched
    end
  else matched.

Definition stepItem (step : Step) : StepItem :=
  let instruction :=
    match maneuver_instruction step with
    | Some i => i
    | None => ""
    end in
  {| text := instruction;
     step_distance := match s_distance step with
                      | Some d => d
                      | None => Js.zero
                      end;
     mainInstruction := fst (splitInstruction instruction);
     subInstruction := snd (splitInstruction instruction) |}.

(** The two nested loops that gather the instructions. *)
Definition collect (legs : list Leg) : list StepItem :=
  flat_map
    (fun leg =>
       map stepItem
           match leg_steps leg with
           | Some ss => ss
           | None => []
           end)
    legs.

(** The [catch] and [finally] blocks. *)
Definition failed (message : string) (st : PanelState) : PanelState :=
  setLoading false
    (setError (if String.eqb message "" then "Failed to fetch directions."
               else message)
              st).

(** [handleStart] from the point where [fetch] settles; [st] is the state
    it left when it issued the request. *)
Definition finishStart (st : PanelState) (resp : Response) : PanelState :=
  match resp with
  | Rejected message => failed message st
  | NotOk status txt =>
      failed (String.append "Directions error "
                (String.append (Js.natToString status)
                   (String.append ": " txt)))
             st
  | Json (Some (route :: _)) =>
      setLoading false
        {| loading := loading st;
           profile := profile st;
           error := error st;
           etaMin :=
             Some (Js.round
                     (Js.divide
                        match r_duration route with
                        | Some d => d
                        | None => Js.zero
                        end
                        60));
           distanceKm :=
             Some (Js.divide
                     match r_distance route with
                     | Some d => d
                     | None => Js.zero
                     end
                     1000);
           steps := collect match r_legs route with
                            | Some ls => ls
                            | None => []
                            end |}
  | Json _ => failed "No route found for the provided points." st
  end.


(** The line that shows the duration: hours and minutes from 60 minutes
    on, minutes alone below. *)
Inductive EtaText : Type :=
| HoursMinutes (hours minutes : Js.number)
| MinutesOnly (minutes : Js.number).

Definition etaText (eta : Js.number) : EtaText :=
  if Js.geb eta (Js.Fin 60) then
    HoursMinutes (Js.floor (Js.divide eta 60)) (Js.remainder eta 60)
  else MinutesOnly eta.

End RoutePlanningPanel.

(** ** components/MapboxMap.tsx *)

Module MapboxMap.

Import RouteContext.

Definition LngLat : Type := (Js.number * Js.number)%type.

(** The file has its own copy of [nearlySame]. *)
Definition nearlySame (a b : LngLat) : bool :=
  Js.ltb (Js.abs (Js.sub (fst a) (fst b))) RoutePlanningPanel.epsilon
  && Js.ltb (Js.abs (Js.sub (snd a) (snd b))) RoutePlanningPanel.epsilon.

(** The memo [points]: the way points, with the user's location put in
    front when it is known and not already there. *)
Definition points (ctx : State) : list LngLat :=
  let raw := waypoints ctx in
  match userLocation ctx with
  | Some loc =>
      let userPt := (longitude loc, latitude loc) in
      match raw with
      | [] => userPt :: raw
      | first :: _ =>
          if negb (nearlySame first userPt) then userPt :: raw else raw
      end
  | None => raw
  end.

(** What a marker shows: its disc, and its popup. *)
Inductive MarkerLabel : Type :=
| You
| Numbered (i : nat).

Inductive Popup : Type :=
| YouPopup                        (* You, Current location *)
| BareStop (i : nat)              (* Stop i *)
| StopCard (name : string) (address : option string)
           (rating : option (Js.number * Js.number)) (link : option string).

Record Marker : Type := {
  label : MarkerLabel;
  popup : Popup;
  position : LngLat
}.

(** [createMarkerForIndex(i, lngLat, stops)]. *)
Definition createMarkerForIndex (i : nat) (lngLat : LngLat)
    (stops : list PlaceStop) : Marker :=
  match i with
  | O => {| label := You; popup := YouPopup; position := lngLat |}
  | S before =>
      {| label := Numbered i;
         popup :=
           match nth_error stops before with
           | None => BareStop i
           | Some s =>
               StopCard (name s)
                 (if String.eqb (address s) "" then None else Some (address s))
                 match rating s with
                 | Some r =>
                     Some (r, match user_ratings_total s with
                              | Some n => n
                              | None => Js.zero
                              end)
                 | None => None
                 end
                 match google_maps_uri s with
                 | Some u => if String.eqb u "" then None else Some u
                 | None => None
                 end
           end;
         position := lngLat |}
  end.

Definition markers (pts : list LngLat) (stops : list PlaceStop) : list Marker :=
  map_indexed (fun p i => createMarkerForIndex i p stops) 0 pts.

(** What the rendering effect does with the points.  Nothing without a
    map.  Otherwise the markers are removed first; with no point the
    route line is removed too; with one point the route line is removed
    and the point gets its marker; two points or more give a Directions
    request for the walking profile, and what shows then depends on how
    the request ends. *)
Inductive Drawing : Type :=
| NoMap
| Cleared
| Single (m : Marker)
| Routed (url : RoutePlanningPanel.DirectionsUrl) (placed : list Marker).

Definition draw (mapReady : bool) (env : option string) (ctx : State)
  : Drawing :=
  if negb mapReady then NoMap
  else
    match points ctx with
    | [] => Cleared
    | [only] => Single (createMarkerForIndex 0 only (stops ctx))
    | pts =>
        Routed
          (RoutePlanningPanel.buildDirectionsUrl
             (RoutePlanningPanel.MAPBOX_TOKEN env)
             RoutePlanningPanel.walking pts)
          (markers pts (stops ctx))
    end.

(** How the Directions request of the effect ends. *)
Inductive Answer : Type :=
| Geometry      (* a route with its geometry *)
| NoGeometry    (* a body without a route *)
| Failed        (* fetch or json threw *)
| Aborted.      (* the effect was cleaned up before *)

(** What the effect leaves of the route line. *)
Inductive RouteLine : Type :=
| Untouched     (* what was drawn before stays *)
| Removed       (* clearRoute() *)
| Drawn.        (* the geometry of the answer *)

Definition routeLine (d : Drawing) (answer : Answer) : RouteLine :=
  match d with
  | NoMap => Untouched
  | Cleared => Removed
  | Single _ => Removed
  | Routed _ _ =>
      match answer with
      | Geometry => Drawn
      | NoGeometry => Untouched
      | Failed => Removed
      | Aborted => Untouched
      end
  end.

(** The markers on the map once the effect and its request are done. *)
Definition markersShown (d : Drawing) (answer : Answer) : list Marker :=
  match d with
  | NoMap => []
  | Cleared => []
  | Single m => [m]
  | Routed _ placed =>
      match answer with
      | Aborted => []
      | _ => placed
      end
  end.

End MapboxMap.

(** ** components/ChatInterface.tsx *)

Module ChatInterface.

Import RouteContext.

Inductive Role : Type := user | assistant | system.

(** [timestamp] is the [Date] as milliseconds. *)
Record ChatMessage : Type := {
  id : string;
  text : string;
  timestamp : Z;
  role : option Role
}.

(** [appendMessage] as the update of [messages]; [uuid] and [now] are
    what [crypto.randomUUID()] and [new Date()] give. *)
Definition appendMessage (uuid : string) (now : Z) (txt : string) (r : Role)
    (prev : list ChatMessage) : list ChatMessage :=
  prev ++ [{| id := uuid; text := txt; timestamp := now; role := Some r |}].

Definition replaceMessageText (target newText : string)
    (prev : list ChatMessage) : list ChatMessage :=
  map (fun m =>
         if String.eqb (id m) target then
           {| id := id m; text := newText; timestamp := timestamp m;
              role := role m |}
         else m)
      prev.

(** The filter of [removeLoadingMessage]. *)
Definition withoutMessage (loadingId : string) (prev : list ChatMessage)
  : list ChatMessage :=
  filter (fun m => negb (String.eqb (id m) loadingId)) prev.

(** [stops] is [None] when the value is not an array. *)
Definition pushStopsToContext (stops : option (list PlaceStop)) (ctx : State)
  : State :=
  match stops with
  | None => ctx
  | Some typed =>
      setWaypoints (map (fun s => (lng s, lat s)) typed) (setStops typed ctx)
  end.

Definition loadingMessages : list string :=
  ["Analyzing your request..."; "Optimizing route...";
   "Maximizing ratings..."; "Calling Sam Altman...";
   "Finding the perfect spots..."; "Calculating optimal path...";
   "Asking Mr.Goose for directions..."; "Crunching travel data...";
   "Polishing your adventure..."].

(** [loadingMessages[Math.floor(random * loadingMessages.length)]];
    [None] is [undefined]. *)
Definition getRandomLoadingMessage (random : Q) : option string :=
  let i := Qfloor (random * inject_Z (Z.of_nat (List.length loadingMessages))) in
  if (i <? 0)%Z then None else nth_error loadingMessages (Z.to_nat i).

(** The component's own state; [ticking] is whether
    [loadingIntervalRef] holds an interval. *)
Record Chat : Type := {
  message : string;
  messages : list ChatMessage;
  loadingMessageIndex : nat;
  ticking : bool
}.

Definition createLoadingMessage (uuid : string) (now : Z) (random : Q)
    (c : Chat) : Chat :=
  {| message := message c;
     messages :=
       appendMessage uuid now
         match getRandomLoadingMessage random with
         | Some t => t
         | None => "undefined"
         end
         assistant (messages c);
     loadingMessageIndex := 0;
     ticking := true |}.

(** One firing of the interval. *)
Definition tick (c : Chat) : Chat :=
  {| message := message c;
     messages := messages c;
     loadingMessageIndex :=
       (loadingMessageIndex c + 1) mod List.length loadingMessages;
     ticking := ticking c |}.

Definition removeLoadingMessage (loadingId : string) (c : Chat) : Chat :=
  {| message := message c;
     messages := withoutMessage loadingId (messages c);
     loadingMessageIndex := loadingMessageIndex c;
     ticking := false |}.

(** A text field of the JSON answer. *)
Inductive JsText : Type :=
| Undefined
| Null
| Str (s : string).

Definition truthy (t : JsText) : bool :=
  match t with
  | Str s => negb (String.eqb s "")
  | _ => false
  end.

(** [a || b]. *)
Definition orElse (a b : JsText) : JsText := if truthy a then a else b.

(** [String(t)], also what a template string and [+=] make of [t]. *)
Definition toText (t : JsText) : string :=
  match t with
  | Undefined => "undefined"
  | Null => "null"
  | Str s => s
  end.

(** [t += s]. *)
Definition plusAssign (t : JsText) (s : string) : JsText :=
  Str (String.append (toText t) s).

(** [xs.join(sep)]: undefined and null elements count as empty. *)
Fixpoint joinTexts (sep : string) (xs : list JsText) : string :=
  let one t := match t with Str s => s | _ => "" end in
  match xs with
  | [] => ""
  | [x] => one x
  | x :: more => String.append (one x) (String.append sep (joinTexts sep more))
  end.

Record PersonalLocation : Type := { pl_name : JsText }.
Record Suggestion : Type := { suggestion : JsText }.

Record EnhancedMetadata : Type := {
  personal_locations : option (list PersonalLocation);
  unmatched_suggestions : option (list Suggestion)
}.

(** The body of the answer to [/plan-route-text], as far as it is read. *)
Record ChatResult : Type := {
  r_stops : option (list PlaceStop);
  r_reply : JsText;
  r_response : JsText;
  r_message : JsText;
  r_text : JsText;
  enhanced_metadata : option EnhancedMetadata
}.

Definition newline : string := String (ascii_of_nat 10) EmptyString.

(** The reply shown to the user, before the test [if (botReply)]. *)
Definition botReply (result : ChatResult) : JsText :=
  let base :=
    orElse (orElse (orElse (r_reply result) (r_response result))
                   (r_message result))
           (r_text result) in
  match enhanced_metadata result with
  | None => base
  | Some md =>
      let personal := match personal_locations md with
                      | Some l => l
                      | None => []
                      end in
      let suggestions := match unmatched_suggestions md with
                         | Some l => l
                         | None => []
                         end in
      let found :=
        if (0 <? List.length personal)%nat then
          plusAssign base
            (String.append newline
               (String.append newline
                  (String.append "🎯 Found "
                     (String.append (Js.natToString (List.length personal))
                        (String.append " personal location(s): "
                           (joinTexts ", " (map pl_name personal)))))))
        else base in
      if (0 <? List.length suggestions)%nat then
        plusAssign found
          (String.append newline
             (String.append newline
                (String.append "💡 Suggestions: "
                   (joinTexts "; " (map suggestion suggestions)))))
      else found
  end.

Record Payload : Type := {
  p_text : string;
  p_location : option Location;
  p_user_id : option string
}.

(** How [fetch] and [res.json()] end. *)
Inductive ChatOutcome : Type :=
| Threw
| Answered (result : ChatResult).

(** What one run of [handleSubmit] draws from outside: three identifiers
    and dates, a random number, how [getUserLocation()] settles, how the
    POST of a payload ends, and how often the interval of the loading
    message fires while the run awaits the two. *)
Record Ambient : Type := {
  uuid_user : string;
  uuid_loading : string;
  uuid_reply : string;
  now_user : Z;
  now_loading : Z;
  now_reply : Z;
  random : Q;
  geo : option Location;
  server : Payload -> ChatOutcome;
  firings : nat
}.

Definition say (uuid : string) (now : Z) (txt : string) (r : Role) (c : Chat)
  : Chat :=
  {| message := message c;
     messages := appendMessage uuid now txt r (messages c);
     loadingMessageIndex := loadingMessageIndex c;
     ticking := ticking c |}.

Definition setMessage (txt : string) (c : Chat) : Chat :=
  {| message := txt;
     messages := messages c;
     loadingMessageIndex := loadingMessageIndex c;
     ticking := ticking c |}.

(** [handleSubmit], one run that no other run overlaps: the chat and
    the route context it leaves, and the payload it posted, if any.  The
    interval started by [createLoadingMessage] fires while the location
    and the answer are awaited, until [removeLoadingMessage] clears it. *)
Definition handleSubmit (userSub : option string) (amb : Ambient) (c : Chat)
    (ctx : State) : Chat * State * option Payload :=
  if String.eqb (Js.trim (message c)) "" then (c, ctx, None)
  else
    let outbound := Js.trim (message c) in
    let c1 := setMessage "" (say (uuid_user amb) (now_user amb) outbound user c) in
    let c2 :=
      Nat.iter (firings amb) tick
        (createLoadingMessage (uuid_loading amb) (now_loading amb)
                              (random amb) c1) in
    let ctx1 := match geo amb with
                | Some location => setUserLocation (Some location) ctx
                | None => ctx
                end in
    let payload :=
      {| p_text := outbound; p_location := geo amb; p_user_id := userSub |} in
    match server amb payload with
    | Answered result =>
        let c3 := removeLoadingMessage (uuid_loading amb) c2 in
        let ctx2 := pushStopsToContext (r_stops result) ctx1 in
        let reply := botReply result in
        (if truthy reply then
           say (uuid_reply amb) (now_reply amb) (toText reply) assistant c3
         else c3,
         ctx2, Some payload)
    | Threw =>
        (say (uuid_reply amb) (now_reply amb)
             "Failed to send message to server." system
             (removeLoadingMessage (uuid_loading amb) c2),
         ctx1, Some payload)
    end.

(** [s.includes(needle)]. *)
Fixpoint includes (needle s : string) : bool :=
  String.prefix needle s
  || match s with
     | EmptyString => false
     | String _ r => includes needle r
     end.

Definition loadingWords : list string :=
  ["Analyzing"; "Optimizing"; "Maximizing"; "Calling"; "Finding";
   "Calculating"; "Asking"; "Crunching"; "Polishing"].

Definition isLoadingMessage (m : ChatMessage) : bool :=
  match role m with
  | Some assistant => existsb (fun w => includes w (text m)) loadingWords
  | _ => false
  end.

(** The opacity of the message at [index] among [length] messages. *)
Definition opacity (length index : nat) : Q :=
  if (Z.of_nat length - 3 <=? Z.of_nat index)%Z then 1
  else Qmax (3 # 10)
            (1 - inject_Z (Z.of_nat length - Z.of_nat index) * (1 # 10)).

End ChatInterface.

(** ** The itinerary planner behind [POST /sidequest] *)

Module Planner.

Local Open Scope Q_scope.

(** Modelled from the spec: section 3, the closed set of categories. The
    planner that answers [POST /sidequest] is not among the client sources;
    this module follows sections 3, 4 and 7 of the specification. *)
Inductive Category : Type :=
  shopping | meals | bites | entertainment | physical_activity | scenery.

(** Modelled from the spec: section 3, the values of [indoor_outdoor]. *)
Inductive IndoorOutdoor : Type := indoor | outdoor | mixed.

(** Modelled from the spec: the categories are compared by equality wherever
    a stage of the absent planner matches one. *)
Definition Category_eq_dec (a b : Category) : {a = b} + {a <> b}.
Proof. decide equality. Defined.

(** Modelled from the spec: the same comparison as a boolean. *)
Definition category_eqb (a b : Category) : bool :=
  if Category_eq_dec a b then true else false.

(** Modelled from the spec: section 3, ActivityCandidate, a nominee of the
    absent planner. Times are hours on the 24-hour scale; numbers are
    rationals. *)
Record ActivityCandidate : Type := {
  id : string;
  title : string;
  location : Q * Q;
  category : Category;
  cost : Q;
  duration_hours : Q;
  energy_level : Z;
  indoor_outdoor : IndoorOutdoor;
  confidence : Q;
  open_interval : option (Q * Q);
  visited : bool
}.

(** Modelled from the spec: section 3, PlanRequest, the input of the absent
    planner. *)
Record PlanRequest : Type := {
  origin : Q * Q;
  radius_km : Q;
  start_time : Q;
  end_time : Q;
  budget : option Q;
  interests : list string;
  energy : Z;
  preference : option IndoorOutdoor;
  user_id : string
}.

(** Modelled from the spec: section 3, ItineraryItem, the output of the
    absent planner; an item also carries the category of its candidate (the
    response's [activity_type]). *)
Record ItineraryItem : Type := {
  activity_id : string;
  item_category : Category;
  assigned_start_time : Q;
  item_duration_hours : Q;
  item_cost : Q;
  sequence_index : nat
}.

(** Modelled from the spec: sections 3 and 7, the free-text summary of the
    absent planner, by what it reports. *)
Inductive Summary : Type :=
| NoCandidatesFound
| BudgetInfeasible
| Planned (activities : nat) (hours : Q).

(** Modelled from the spec: section 3, the diagnostic counters of an
    Itinerary. *)
Record Metadata : Type := {
  activities_considered : nat;
  activities_selected : nat;
  activities_in_itinerary : nat;
  interests_covered : list Category;
  unvisited_places : nat
}.

(** Modelled from the spec: section 3, Itinerary, what the absent planner
    returns. *)
Record Itinerary : Type := {
  items : list ItineraryItem;
  total_duration_hours : Q;
  total_cost : Q;
  summary : Summary;
  metadata : Metadata
}.

(** Modelled from the spec: section 7, a request is rejected as InputInvalid
    or answered with an itinerary. *)
Inductive PlanResult : Type :=
| InputInvalid
| Success (it : Itinerary).

(** Modelled from the spec: what sections 4.3, 4.4 and 4.8 leave to the
    absent implementation -- the great-circle distance, the composite score
    (a weighted combination of confidence and inverse distance) and the
    ordering heuristic of the Sequencer. *)
Record Heuristics : Type := {
  distance_km : Q * Q -> Q * Q -> Q;
  score : PlanRequest -> ActivityCandidate -> Q;
  precedes : PlanRequest -> ActivityCandidate -> ActivityCandidate -> bool
}.

(** Modelled from the spec: section 3, the end of the span
    [assigned_start_time, assigned_start_time + duration_hours) of an item
    of the absent planner. *)
Definition item_end (i : ItineraryItem) : Q :=
  assigned_start_time i + item_duration_hours i.

(** Modelled from the spec: section 3, two items of an itinerary overlap
    when their half-open spans meet. *)
Definition overlap (a b : ItineraryItem) : Prop :=
  assigned_start_time a < item_end b /\ assigned_start_time b < item_end a.

(** Modelled from the spec: section 4.5, the meal items are those of
    category [meals]. *)
Definition is_meal (c : ActivityCandidate) : bool :=
  category_eqb (category c) meals.

(** Modelled from the spec: section 4.5, the number of meal items of a
    candidate set of the absent planner. *)
Definition meal_count (l : list ActivityCandidate) : nat :=
  List.length (filter is_meal l).

(** Modelled from the spec: section 3, the number of meal items of an
    itinerary. *)
Definition meal_items (l : list ItineraryItem) : nat :=
  List.length (filter (fun i => category_eqb (item_category i) meals) l).

(** Modelled from the spec: section 3, [total_cost] as the sum of the costs.
    *)
Definition cost_of (l : list ActivityCandidate) : Q :=
  fold_right (fun c acc => cost c + acc) 0 l.

(** Modelled from the spec: section 3, [total_duration_hours] as the sum of
    the durations. *)
Definition duration_of (l : list ActivityCandidate) : Q :=
  fold_right (fun c acc => duration_hours c + acc) 0 l.

(** Modelled from the spec: section 3, the sum of the item costs of an
    itinerary. *)
Definition sum_item_costs (l : list ItineraryItem) : Q :=
  fold_right (fun i acc => item_cost i + acc) 0 l.

(** Modelled from the spec: section 4.7, a candidate the user has not been
    recorded at. *)
Definition unvisited (c : ActivityCandidate) : bool := negb (visited c).

(** Modelled from the spec: section 4.4, which interest strings the absent
    planner recognises. *)
Definition category_of_string (s : string) : option Category :=
  if String.eqb s "shopping" then Some shopping
  else if String.eqb s "meals" then Some meals
  else if String.eqb s "bites" then Some bites
  else if String.eqb s "entertainment" then Some entertainment
  else if String.eqb s "physical_activity" then Some physical_activity
  else if String.eqb s "scenery" then Some scenery
  else None.

(** Modelled from the spec: section 4.4, the interests left once every
    string outside the closed set is discarded. *)
Fixpoint recognised (l : list string) : list Category :=
  match l with
  | [] => []
  | s :: r =>
      match category_of_string s with
      | Some c => c :: recognised r
      | None => recognised r
      end
  end.

(** Modelled from the spec: section 4.4, normalisation of [interests] with
    its fallback to [entertainment]. *)
Definition normalize_interests (l : list string) : list Category :=
  match nodup Category_eq_dec (recognised l) with
  | [] => [entertainment]
  | cs => cs
  end.

(** Modelled from the spec: section 7, InputInvalid: what the absent planner
    rejects before the pipeline runs. *)
Definition validate (req : PlanRequest) : bool :=
  Qltb (start_time req) (end_time req)
  && Qle_bool 0 (radius_km req)
  && match budget req with
     | Some b => Qle_bool 0 b
     | None => true
     end.

(** Modelled from the spec: section 4.5, the cap on [meals] items. *)
Definition meal_cap (req : PlanRequest) : nat :=
  if Qltb 6 (end_time req - start_time req) then 3%nat else 2%nat.

Section Pipeline.

Variable H : Heuristics.

(** Modelled from the spec: section 4.3, a candidate is structurally usable
    when its fields are in the ranges of section 3. *)
Definition structurally_valid (c : ActivityCandidate) : bool :=
  Qle_bool 0 (cost c)
  && Qltb 0 (duration_hours c)
  && (0 <=? energy_level c)%Z && (energy_level c <=? 10)%Z
  && Qle_bool 0 (confidence c) && Qle_bool (confidence c) 1.

(** Modelled from the spec: section 4.3, the candidate is no farther than
    [radius_km] from [origin]. *)
Definition within_radius (req : PlanRequest) (c : ActivityCandidate) : bool :=
  Qle_bool (distance_km H (origin req) (location c)) (radius_km req).

(** Modelled from the spec: section 4.3, the [open_interval] overlaps the
    window; a candidate without one is always available. *)
Definition available (req : PlanRequest) (c : ActivityCandidate) : bool :=
  match open_interval c with
  | None => true
  | Some (opens, closes) =>
      Qltb opens (end_time req) && Qltb (start_time req) closes
  end.

(** Modelled from the spec: section 4.3, the Constraint Filter of the absent
    planner. *)
Definition constraint_filter (req : PlanRequest)
    (pool : list ActivityCandidate) : list ActivityCandidate :=
  filter (fun c => within_radius req c && available req c
                   && structurally_valid c) pool.

(** Modelled from the spec: section 4.4, the order behind "maximizing the
    composite score, ties broken by lower cost then by candidate id". *)
Definition better (req : PlanRequest) (a b : ActivityCandidate) : bool :=
  match score H req a ?= score H req b with
  | Gt => true
  | Lt => false
  | Eq =>
      match cost a ?= cost b with
      | Lt => true
      | Gt => false
      | Eq => String.leb (id a) (id b)
      end
  end.

(** Modelled from the spec: section 4.4, the candidate of a list that is
    better than all the others. *)
Fixpoint best (req : PlanRequest) (l : list ActivityCandidate)
  : option ActivityCandidate :=
  match l with
  | [] => None
  | c :: r =>
      match best req r with
      | None => Some c
      | Some d => if better req c d then Some c else Some d
      end
  end.

(** Modelled from the spec: section 4.4, the filtered candidates of one
    category. *)
Definition of_category (k : Category) (l : list ActivityCandidate)
  : list ActivityCandidate :=
  filter (fun c => category_eqb (category c) k) l.

(** Modelled from the spec: section 4.4, the Category Coverage Selector of
    the absent planner: at most one candidate per normalised interest. *)
Definition coverage_selector (req : PlanRequest)
    (filtered : list ActivityCandidate) : list ActivityCandidate :=
  flat_map
    (fun k =>
       match best req (of_category k filtered) with
       | Some c => [c]
       | None => []
       end)
    (normalize_interests (interests req)).

(** Modelled from the spec: sections 4.5 to 4.8, "the lowest-scoring item"
    among those satisfying [p], and the list without it. *)
Fixpoint extract_worst (req : PlanRequest) (p : ActivityCandidate -> bool)
    (l : list ActivityCandidate)
  : option (ActivityCandidate * list ActivityCandidate) :=
  match l with
  | [] => None
  | c :: r =>
      match extract_worst req p r with
      | None => if p c then Some (c, r) else None
      | Some (d, r') =>
          if p c && negb (better req c d) then Some (c, r)
          else Some (d, c :: r')
      end
  end.

(** Modelled from the spec: sections 4.5 and 4.8, dropping that item;
    nothing changes when no item satisfies [p]. *)
Definition drop_worst (req : PlanRequest) (p : ActivityCandidate -> bool)
    (l : list ActivityCandidate) : list ActivityCandidate :=
  match extract_worst req p l with
  | Some (_, rest) => rest
  | None => l
  end.

(** Modelled from the spec: section 4.5 (a), dropping the lowest-scoring
    excess meal items. *)
Definition enforce_meal_cap (req : PlanRequest)
    (l : list ActivityCandidate) : list ActivityCandidate :=
  Nat.iter (meal_count l - meal_cap req) (drop_worst req is_meal) l.

(** Modelled from the spec: section 4.6, the total cost does not exceed the
    budget. *)
Definition fits (b : Q) (l : list ActivityCandidate) : bool :=
  Qle_bool (cost_of l) b.

(** Modelled from the spec: section 4.6, a candidate that fits the budget on
    its own. *)
Definition affordable (b : Q) (c : ActivityCandidate) : bool :=
  Qle_bool (cost c) b.

(** Modelled from the spec: section 4.6, "never dropping below one covered
    interest if any fit individually": an item may go when an item that fits
    on its own stays. *)
Definition droppable (b : Q) (l : list ActivityCandidate)
    (c : ActivityCandidate) : bool :=
  negb (affordable b c)
  || (2 <=? List.length (filter (affordable b) l))%nat.

(** Modelled from the spec: section 4.6, the sole unvisited item, while the
    pool has a visited alternative of the same category at equal or lower
    cost. *)
Definition shielded (filtered l : list ActivityCandidate)
    (c : ActivityCandidate) : bool :=
  unvisited c
  && (List.length (filter unvisited l) =? 1)%nat
  && existsb (fun v => visited v
                       && category_eqb (category v) (category c)
                       && Qle_bool (cost v) (cost c)) filtered.

(** Modelled from the spec: section 4.6, one removal: the lowest-scoring
    item that may go and is not shielded, else the lowest-scoring item that
    may go (the budget is the hard constraint). *)
Definition budget_drop (req : PlanRequest) (filtered : list ActivityCandidate)
    (b : Q) (l : list ActivityCandidate) : list ActivityCandidate :=
  match extract_worst req
          (fun c => droppable b l c && negb (shielded filtered l c)) l with
  | Some (_, rest) => rest
  | None => drop_worst req (droppable b l) l
  end.

(** Modelled from the spec: section 4.6, removing items until the set fits;
    the fuel is the number of items. *)
Fixpoint trim_to_budget (fuel : nat) (req : PlanRequest)
    (filtered : list ActivityCandidate) (b : Q) (l : list ActivityCandidate)
  : list ActivityCandidate :=
  match fuel with
  | O => l
  | S n =>
      if fits b l then l
      else trim_to_budget n req filtered b (budget_drop req filtered b l)
  end.

(** Modelled from the spec: section 4.6, the set fitted to the budget, or
    the finding that no candidate fits it. *)
Inductive BudgetOutcome : Type :=
| Fitted (l : list ActivityCandidate)
| Infeasible.

(** Modelled from the spec: sections 4.6 and 8, the budget is below the
    cost of the cheapest candidate: the filtered pool has candidates and
    none of them fits the budget on its own. *)
Definition priced_out (b : Q) (filtered : list ActivityCandidate) : bool :=
  match filtered with
  | [] => false
  | _ :: _ => negb (existsb (affordable b) filtered)
  end.

(** Modelled from the spec: section 2, the Budget-Constrained Selector
    "trims/swaps the candidate set to fit the budget ceiling while
    preserving category coverage where possible": an item that exceeds the
    budget on its own gives way to the best candidate of its category that
    fits it, when the filtered pool has one, and goes otherwise. *)
Definition swap_to_fit (req : PlanRequest)
    (filtered : list ActivityCandidate) (b : Q) (l : list ActivityCandidate)
  : list ActivityCandidate :=
  flat_map
    (fun c =>
       if affordable b c then [c]
       else match best req (filter (affordable b)
                              (of_category (category c) filtered)) with
            | Some d => [d]
            | None => []
            end)
    l.

(** Modelled from the spec: sections 2, 4.6, 7 and 8, the
    Budget-Constrained Selector of the absent planner.  Without a budget it
    does nothing, and a set within the budget stays as it is.  The budget
    is infeasible when it is below the cost of the cheapest candidate, and
    when the set exceeds it and no candidate of a selected category fits
    it; otherwise the items that alone exceed the budget are swapped and
    the set is trimmed to fit. *)
Definition budget_selector (req : PlanRequest)
    (filtered l : list ActivityCandidate) : BudgetOutcome :=
  match budget req with
  | None => Fitted l
  | Some b =>
      if priced_out b filtered then Infeasible
      else if fits b l then Fitted l
      else match swap_to_fit req filtered b l with
           | [] => Infeasible
           | l' => Fitted (trim_to_budget (List.length l') req filtered b l')
           end
  end.

(** Modelled from the spec: section 4.7, the hard constraints a swap must
    keep: the meal cap and the budget. *)
Definition hard_ok (req : PlanRequest) (l : list ActivityCandidate) : bool :=
  (meal_count l <=? meal_cap req)%nat
  && match budget req with
     | None => true
     | Some b => fits b l
     end.

(** Modelled from the spec: section 4.7, [u] takes the place of the
    lowest-scoring selected item of its category, or is added when its
    category is not covered. *)
Definition swap_in (req : PlanRequest) (u : ActivityCandidate)
    (l : list ActivityCandidate) : list ActivityCandidate :=
  match extract_worst req
          (fun c => category_eqb (category c) (category u)) l with
  | Some (_, rest) => u :: rest
  | None => u :: l
  end.

(** Modelled from the spec: section 4.7, the first swap, best candidate
    first, that keeps the hard constraints. *)
Fixpoint first_admissible (req : PlanRequest) (us l : list ActivityCandidate)
  : option (list ActivityCandidate) :=
  match us with
  | [] => None
  | u :: r =>
      if hard_ok req (swap_in req u l) then Some (swap_in req u l)
      else first_admissible req r l
  end.

(** Modelled from the spec: section 4.7, the Novelty Guarantee of the absent
    planner. *)
Definition novelty_guarantee (req : PlanRequest)
    (filtered l : list ActivityCandidate) : list ActivityCandidate :=
  if existsb unvisited filtered && negb (existsb unvisited l) then
    match first_admissible req
            (sort_by (better req) (filter unvisited filtered)) l with
    | Some l' => l'
    | None => l
    end
  else l.

(** Modelled from the spec: section 4.8, start times for the items after the
    first; [t] is the end of the previous span. *)
Fixpoint assign (t : Q) (l : list ActivityCandidate)
  : list (ActivityCandidate * Q) :=
  match l with
  | [] => []
  | c :: r =>
      let s := match open_interval c with
               | Some (opens, _) => Qmax t opens
               | None => t
               end in
      (c, s) :: assign (s + duration_hours c) r
  end.

(** Modelled from the spec: section 4.8, the first item starts at
    [start_time]. *)
Definition schedule (req : PlanRequest) (l : list ActivityCandidate)
  : list (ActivityCandidate * Q) :=
  match l with
  | [] => []
  | c :: r =>
      (c, start_time req) :: assign (start_time req + duration_hours c) r
  end.

(** Modelled from the spec: section 4.8, the end of the last span; [t] when
    there is none. *)
Fixpoint last_end (t : Q) (sched : list (ActivityCandidate * Q)) : Q :=
  match sched with
  | [] => t
  | (c, s) :: r => last_end (s + duration_hours c) r
  end.

(** Modelled from the spec: section 4.8, sequence, and while the last span
    ends past [end_time] drop the lowest-scoring item and sequence again. *)
Fixpoint sequence_from (fuel : nat) (req : PlanRequest)
    (l : list ActivityCandidate) : list (ActivityCandidate * Q) :=
  match fuel with
  | O => []
  | S n =>
      let sched := schedule req (sort_by (precedes H req) l) in
      if Qle_bool (last_end (start_time req) sched) (end_time req) then sched
      else sequence_from n req (drop_worst req (fun _ => true) l)
  end.

(** Modelled from the spec: section 4.8, the Sequencer of the absent
    planner; the fuel outlasts the items. *)
Definition sequencer (req : PlanRequest) (l : list ActivityCandidate)
  : list (ActivityCandidate * Q) :=
  sequence_from (S (List.length l)) req l.

(** Modelled from the spec: section 3, the item of a scheduled candidate. *)
Definition item_of (p : ActivityCandidate * Q) (i : nat) : ItineraryItem :=
  {| activity_id := id (fst p);
     item_category := category (fst p);
     assigned_start_time := snd p;
     item_duration_hours := duration_hours (fst p);
     item_cost := cost (fst p);
     sequence_index := i |}.

(** Modelled from the spec: section 4.9, the Summary and Metadata Builder of
    the absent planner. *)
Definition build (considered selected : nat)
    (filtered : list ActivityCandidate)
    (sched : list (ActivityCandidate * Q)) : Itinerary :=
  let chosen := map fst sched in
  {| items := map_indexed item_of 0 sched;
     total_duration_hours := duration_of chosen;
     total_cost := cost_of chosen;
     summary := match filtered with
                | [] => NoCandidatesFound
                | _ => Planned (List.length sched) (duration_of chosen)
                end;
     metadata :=
       {| activities_considered := considered;
          activities_selected := selected;
          activities_in_itinerary := List.length sched;
          interests_covered := nodup Category_eq_dec (map category chosen);
          unvisited_places := List.length (filter unvisited chosen) |} |}.

(** Modelled from the spec: sections 4.6 and 7, BudgetInfeasible: an empty
    itinerary whose metadata reflect zero selections. *)
Definition infeasible (considered : nat) : Itinerary :=
  {| items := [];
     total_duration_hours := 0;
     total_cost := 0;
     summary := BudgetInfeasible;
     metadata :=
       {| activities_considered := considered;
          activities_selected := 0;
          activities_in_itinerary := 0;
          interests_covered := [];
          unvisited_places := 0 |} |}.

(** Modelled from the spec: section 2, the pipeline of the absent planner,
    run once per request on the normalised candidate pool. *)
Definition plan (req : PlanRequest) (pool : list ActivityCandidate)
  : PlanResult :=
  if negb (validate req) then InputInvalid
  else
    let filtered := constraint_filter req pool in
    let selected := coverage_selector req filtered in
    let capped := enforce_meal_cap req selected in
    match budget_selector req filtered capped with
    | Infeasible => Success (infeasible (List.length filtered))
    | Fitted budgeted =>
        let final := novelty_guarantee req filtered budgeted in
        Success (build (List.length filtered) (List.length selected)
                       filtered (sequencer req final))
    end.

End Pipeline.

End Planner.

(** ** Predicates the statements are written with *)

Module Shape.

(** [l1] is [l2] with some elements left out, the others in their order. *)
Inductive Subseq {A : Type} : list A -> list A -> Prop :=
| sub_nil : Subseq [] []
| sub_skip (x : A) (l1 l2 : list A) : Subseq l1 l2 -> Subseq l1 (x :: l2)
| sub_keep (x : A) (l1 l2 : list A) : Subseq l1 l2 -> Subseq (x :: l1) (x :: l2).

(** No two consecutive points of [pts] are nearly the same. *)
Definition Spaced (pts : list RoutePlanningPanel.LngLat) : Prop :=
  forall l1 p q l2,
    pts = l1 ++ p :: q :: l2 -> RoutePlanningPanel.nearlySame p q = false.

(** The largest double below [1e-5]: 9.999999999999999e-06. *)
Definition below_epsilon : Q := 368934881474191 # 36893488147419103232.

(** The window of the panel is malformed: both ends read as clock times
    and the end is not after the start. *)
Definition malformed_window (f : FilterPanel.FilterState) : Prop :=
  exists s e,
    FilterPanel.clock_minutes (FilterPanel.start (FilterPanel.time f)) = Some s
    /\ FilterPanel.clock_minutes (FilterPanel.end_ (FilterPanel.time f)) = Some e
    /\ (e <= s)%Z.

(** [l'] is what is left of [l] after some of its elements were taken
    out, in any order. *)
Definition Kept {A : Type} (l' l : list A) : Prop :=
  exists gone, Permutation l (gone ++ l').

(** Every span starts no earlier than the end of the span before it;
    [t] is the time before which nothing may start. *)
Fixpoint chained (t : Q) (sched : list (Planner.ActivityCandidate * Q)) : Prop :=
  match sched with
  | [] => True
  | (c, s) :: r =>
      (t <= s)%Q /\ chained (s + Planner.duration_hours c)%Q r
  end.

End Shape.

(** ** Concrete inputs used to exercise the statements below *)

Module Sample.

Import RouteContext.

Definition waterloo : Location :=
  {| latitude := Js.Fin (434643 # 10000); longitude := Js.Fin (-805204 # 10000) |}.

(** The window is entered backwards: 17:00 to 09:00. *)
Definition backwards : FilterPanel.FilterState :=
  FilterPanel.after_edits
    [FilterPanel.TimeChange FilterPanel.FStart "17:00";
     FilterPanel.TimeChange FilterPanel.FEnd "09:00"].

Definition food_indoor : FilterPanel.FilterState :=
  FilterPanel.after_edits
    [FilterPanel.InterestChange FilterPanel.KFood;
     FilterPanel.IndoorOutdoorChange FilterPanel.KIndoor;
     FilterPanel.BudgetChange (Js.Fin 40)].

Definition museum_visit : FilterPanel.SidequestActivity :=
  {| FilterPanel.a_title := "Museum";
     FilterPanel.a_lat := Js.Fin (4346 # 100);
     FilterPanel.a_lon := Js.Fin (-8052 # 100);
     FilterPanel.a_start_time := Some "10:00";
     FilterPanel.a_duration_hours := Js.Fin (3 # 2);
     FilterPanel.a_cost := Some (Js.Fin 25);
     FilterPanel.a_activity_type := "entertainment";
     FilterPanel.a_indoor_outdoor := "indoor";
     FilterPanel.a_energy_level := Js.Fin 5;
     FilterPanel.a_confidence := Js.Fin (4 # 5) |}.

Definition park_visit : FilterPanel.SidequestActivity :=
  {| FilterPanel.a_title := "Park";
     FilterPanel.a_lat := Js.Fin (4347 # 100);
     FilterPanel.a_lon := Js.Fin (-8053 # 100);
     FilterPanel.a_start_time := Some "12:00";
     FilterPanel.a_duration_hours := Js.Fin 1;
     FilterPanel.a_cost := None;
     FilterPanel.a_activity_type := "scenery";
     FilterPanel.a_indoor_outdoor := "outdoor";
     FilterPanel.a_energy_level := Js.Fin 3;
     FilterPanel.a_confidence := Js.Fin (9 # 10) |}.

Definition answer : FilterPanel.SidequestResponse :=
  {| FilterPanel.itinerary := [museum_visit; park_visit];
     FilterPanel.total_duration := Js.Fin (5 # 2);
     FilterPanel.total_cost := Js.Fin 25;
     FilterPanel.summary := "Your sidequest";
     FilterPanel.metadata :=
       {| FilterPanel.activities_considered := Js.Fin 50;
          FilterPanel.activities_selected := Js.Fin 2;
          FilterPanel.activities_in_itinerary := Js.Fin 2;
          FilterPanel.generation_time := None |} |}.

Definition answering (_ : FilterPanel.SidequestData) : FilterPanel.FetchOutcome :=
  FilterPanel.Ok answer.

Definition failing (_ : FilterPanel.SidequestData) : FilterPanel.FetchOutcome :=
  FilterPanel.Threw.

(** A route with the user at the museum door, the museum, a placeholder
    added by [addStop], and the park. *)
Definition at_the_door : State :=
  RoutePlanningPanel.addStop "tmp_1"
    {| userLocation :=
         Some {| latitude := Js.Fin (4346 # 100);
                 longitude := Js.Fin (-8052 # 100) |};
       stops := [FilterPanel.mapActivityToPlaceStop museum_visit 0];
       waypoints := [] |}.

Definition idle : RoutePlanningPanel.PanelState :=
  {| RoutePlanningPanel.loading := false;
     RoutePlanningPanel.profile := RoutePlanningPanel.walking;
     RoutePlanningPanel.error := None;
     RoutePlanningPanel.etaMin := None;
     RoutePlanningPanel.distanceKm := None;
     RoutePlanningPanel.steps := [] |}.

(** A stop on the equator of latitude 1, at a given longitude. *)
Definition stop_at (title : string) (lon : Q) : PlaceStop :=
  FilterPanel.mapActivityToPlaceStop
    {| FilterPanel.a_title := title;
       FilterPanel.a_lat := Js.Fin 1;
       FilterPanel.a_lon := Js.Fin lon;
       FilterPanel.a_start_time := None;
       FilterPanel.a_duration_hours := Js.Fin 1;
       FilterPanel.a_cost := None;
       FilterPanel.a_activity_type := "scenery";
       FilterPanel.a_indoor_outdoor := "outdoor";
       FilterPanel.a_energy_level := Js.Fin 3;
       FilterPanel.a_confidence := Js.Fin 1 |}
    0.

(** The doubles [9.999999999999999e-06] and [-8.47032947254301e-22]. *)
Definition just_east : Q := 368934881474191 # 36893488147419103232.
Definition just_west : Q :=
  -1125899906842625 # 1329227995784915872903807060280344576.

(** Two stops on the same latitude, a hair less than [1e-5] apart. *)
Definition hairline : State :=
  {| userLocation := None;
     stops := [stop_at "East" just_east; stop_at "West" just_west];
     waypoints := [] |}.

(** The user in Waterloo, then the museum and the park. *)
Definition on_tour : State :=
  {| userLocation := Some waterloo;
     stops := [FilterPanel.mapActivityToPlaceStop museum_visit 0;
               FilterPanel.mapActivityToPlaceStop park_visit 1];
     waypoints := [] |}.

End Sample.

Module PlannerSample.

Import Planner.

Local Open Scope Q_scope.

(** Distances on a flat grid of 111 km a degree, confidence as score,
    and stops sequenced by identifier. *)
Definition flat : Heuristics :=
  {| distance_km := fun a b =>
       (Qabs (fst a - fst b) + Qabs (snd a - snd b)) * 111;
     score := fun _ c => confidence c;
     precedes := fun _ a b => String.leb (id a) (id b) |}.

Definition cafe : ActivityCandidate :=
  {| id := "a-cafe"; title := "Corner Cafe"; location := (1 # 100, 0);
     category := meals; cost := 20; duration_hours := 1; energy_level := 2;
     indoor_outdoor := indoor; confidence := 8 # 10;
     open_interval := Some (11, 15); visited := true |}.

Definition museum : ActivityCandidate :=
  {| id := "b-museum"; title := "City Museum"; location := (0, 1 # 100);
     category := entertainment; cost := 25; duration_hours := 3 # 2;
     energy_level := 4; indoor_outdoor := indoor; confidence := 9 # 10;
     open_interval := Some (10, 18); visited := false |}.

Definition park : ActivityCandidate :=
  {| id := "c-park"; title := "River Park"; location := (1 # 100, 1 # 100);
     category := scenery; cost := 0; duration_hours := 1; energy_level := 5;
     indoor_outdoor := outdoor; confidence := 7 # 10;
     open_interval := None; visited := true |}.

Definition opera : ActivityCandidate :=
  {| id := "d-opera"; title := "Opera House"; location := (2 # 100, 0);
     category := entertainment; cost := 120; duration_hours := 3;
     energy_level := 3; indoor_outdoor := indoor; confidence := 95 # 100;
     open_interval := Some (19, 23); visited := true |}.

Definition city : list ActivityCandidate := [cafe; museum; park; opera].

(** A show above the budget of the fallback example, and one that
    outlasts its window. *)
Definition gala : ActivityCandidate :=
  {| id := "e-gala"; title := "Gala Night"; location := (0, 2 # 100);
     category := entertainment; cost := 120; duration_hours := 2;
     energy_level := 3; indoor_outdoor := indoor; confidence := 95 # 100;
     open_interval := Some (12, 18); visited := false |}.

Definition festival : ActivityCandidate :=
  {| id := "f-festival"; title := "Street Festival";
     location := (2 # 100, 1 # 100);
     category := entertainment; cost := 30; duration_hours := 5;
     energy_level := 6; indoor_outdoor := outdoor; confidence := 95 # 100;
     open_interval := None; visited := false |}.

(** A place the user has been to, and a higher-rated one they have not. *)
Definition arcade : ActivityCandidate :=
  {| id := "g-arcade"; title := "Old Arcade"; location := (1 # 100, 2 # 100);
     category := entertainment; cost := 10; duration_hours := 3;
     energy_level := 4; indoor_outdoor := indoor; confidence := 5 # 10;
     open_interval := None; visited := true |}.

Definition lookout : ActivityCandidate :=
  {| id := "h-lookout"; title := "Hill Lookout"; location := (2 # 100, 2 # 100);
     category := scenery; cost := 0; duration_hours := 2;
     energy_level := 6; indoor_outdoor := outdoor; confidence := 6 # 10;
     open_interval := None; visited := false |}.

(** 09:00 to 17:00 with a budget of 200, as in the full-day example. *)
Definition day : PlanRequest :=
  {| origin := (0, 0); radius_km := 5; start_time := 9; end_time := 17;
     budget := Some 200;
     interests := ["meals"; "entertainment"; "scenery"; "shopping"];
     energy := 7; preference := Some mixed; user_id := "test_user_1" |}.

(** Only unknown interests, as in the fallback example. *)
Definition bogus : PlanRequest :=
  {| origin := (0, 0); radius_km := 5; start_time := 13; end_time := 17;
     budget := Some 60;
     interests := ["invalid_interest"; "another_invalid"];
     energy := 5; preference := Some mixed; user_id := "test_user_1" |}.

(** A budget below every price in town. *)
Definition broke : PlanRequest :=
  {| origin := (0, 0); radius_km := 5; start_time := 11; end_time := 15;
     budget := Some 10;
     interests := ["meals"; "entertainment"];
     energy := 5; preference := None; user_id := "test_user_1" |}.

(** The same budget, for scenery only. *)
Definition sightseer : PlanRequest :=
  {| origin := (0, 0); radius_km := 5; start_time := 11; end_time := 15;
     budget := Some 10;
     interests := ["scenery"];
     energy := 5; preference := None; user_id := "test_user_1" |}.

(** A budget of 0, set, and a request with no budget, for the same walk. *)
Definition penniless : PlanRequest :=
  {| origin := (0, 0); radius_km := 5; start_time := 11; end_time := 15;
     budget := Some 0;
     interests := ["scenery"];
     energy := 5; preference := None; user_id := "test_user" |}.

(** A window entered backwards, with a budget of 0 and an unknown
    interest. *)
Definition backwards : PlanRequest :=
  {| origin := (0, 0); radius_km := 5; start_time := 17; end_time := 9;
     budget := Some 0;
     interests := ["invalid_interest"];
     energy := 5; preference := None; user_id := "test_user" |}.

Definition unconstrained : PlanRequest :=
  {| origin := (0, 0); radius_km := 5; start_time := 11; end_time := 15;
     budget := None;
     interests := ["scenery"; "entertainment"];
     energy := 5; preference := None; user_id := "test_user" |}.

(** What the planner answers on the full-day request. *)
Definition day_itinerary : Itinerary :=
  match plan flat day city with
  | Success it => it
  | InputInvalid => infeasible 0
  end.

End PlannerSample.

(** ** Notions used to state what the rest of the code does *)

Module Notion.

(** A number that is neither [NaN] nor infinite. *)
Definition finite (n : Js.number) : bool :=
  match n with
  | Js.Fin _ => true
  | _ => false
  end.

Definition allWhiteSpace (s : string) : bool := Js.blank s.

Definition same_key (a b : FilterPanel.InterestKey) : bool :=
  match a, b with
  | FilterPanel.KShopping, FilterPanel.KShopping
  | FilterPanel.KFood, FilterPanel.KFood
  | FilterPanel.KEntertainment, FilterPanel.KEntertainment
  | FilterPanel.KScenery, FilterPanel.KScenery => true
  | _, _ => false
  end.

(** How often the box of [k] was clicked in a run of edits. *)
Fixpoint toggles (k : FilterPanel.InterestKey) (es : list FilterPanel.Edit)
  : nat :=
  match es with
  | [] => 0
  | FilterPanel.InterestChange k' :: r =>
      if same_key k k' then S (toggles k r) else toggles k r
  | _ :: r => toggles k r
  end.

(** The Mapbox token is set to something else than the placeholder. *)
Definition configured (env : option string) : bool :=
  match env with
  | Some t =>
      negb (String.eqb t "")
      && negb (String.eqb t RoutePlanningPanel.placeholder_token)
  | None => false
  end.

(** The steps of all legs, in order. *)
Definition all_steps (legs : list RoutePlanningPanel.Leg)
  : list RoutePlanningPanel.Step :=
  flat_map
    (fun leg => match RoutePlanningPanel.leg_steps leg with
                | Some ss => ss
                | None => []
                end)
    legs.

(** The card [createMarkerForIndex] writes for a stop. *)
Definition card (s : RouteContext.PlaceStop) : MapboxMap.Popup :=
  MapboxMap.StopCard (RouteContext.name s)
    (if String.eqb (RouteContext.address s) "" then None
     else Some (RouteContext.address s))
    match RouteContext.rating s with
    | Some r =>
        Some (r, match RouteContext.user_ratings_total s with
                 | Some n => n
                 | None => Js.zero
                 end)
    | None => None
    end
    match RouteContext.google_maps_uri s with
    | Some u => if String.eqb u "" then None else Some u
    | None => None
    end.

End Notion.

(** ** Inputs for the properties of Part II *)

Module Walkthrough.

Import RouteContext.

(** The distance as a user may type it: a space, a number, a unit. *)
Definition five_km : FilterPanel.FilterState :=
  FilterPanel.after_edits [FilterPanel.DistanceChange " 5 km"].

(** A distance beyond the largest double. *)
Definition beyond : FilterPanel.FilterState :=
  FilterPanel.after_edits [FilterPanel.DistanceChange "1e400"].

Definition museum_stop : PlaceStop :=
  FilterPanel.mapActivityToPlaceStop Sample.museum_visit 0.

Definition park_stop : PlaceStop :=
  FilterPanel.mapActivityToPlaceStop Sample.park_visit 1.

(** Two stops and no user location. *)
Definition nowhere : State :=
  {| userLocation := None; stops := [museum_stop; park_stop]; waypoints := [] |}.

(** The same two stops, seen from Waterloo. *)
Definition on_the_way : State :=
  {| userLocation := Some Sample.waterloo;
     stops := [museum_stop; park_stop];
     waypoints := [] |}.

(** The user in Waterloo and nothing else. *)
Definition alone : State :=
  {| userLocation := Some Sample.waterloo; stops := []; waypoints := [] |}.

Definition token : option string := Some "pk.test".



(** An instruction without any of the turn keywords. *)
Definition arrival : string := "You have arrived. The museum is ahead.".

(** A chat with one earlier message and a request typed in. *)
Definition chat : ChatInterface.Chat :=
  {| ChatInterface.message := "  coffee then a park ";
     ChatInterface.messages :=
       [{| ChatInterface.id := "m-0"; ChatInterface.text := "hello";
           ChatInterface.timestamp := 1000;
           ChatInterface.role := Some ChatInterface.user |}];
     ChatInterface.loadingMessageIndex := 4;
     ChatInterface.ticking := false |}.

(** An answer that carries two stops and a reply. *)
Definition routed : ChatInterface.ChatResult :=
  {| ChatInterface.r_stops := Some [museum_stop; park_stop];
     ChatInterface.r_reply := ChatInterface.Undefined;
     ChatInterface.r_response := ChatInterface.Undefined;
     ChatInterface.r_message := ChatInterface.Str "Here is your route.";
     ChatInterface.r_text := ChatInterface.Undefined;
     ChatInterface.enhanced_metadata := None |}.

(** A run in which geolocation is refused and the server answers after
    the interval has fired twice. *)
Definition unlocated : ChatInterface.Ambient :=
  {| ChatInterface.uuid_user := "m-1";
     ChatInterface.uuid_loading := "m-2";
     ChatInterface.uuid_reply := "m-3";
     ChatInterface.now_user := 2000;
     ChatInterface.now_loading := 2001;
     ChatInterface.now_reply := 2900;
     ChatInterface.random := 1 # 2;
     ChatInterface.geo := None;
     ChatInterface.server := fun _ => ChatInterface.Answered routed;
     ChatInterface.firings := 2 |}.

(** The same run with the location granted and a slower answer. *)
Definition located : ChatInterface.Ambient :=
  {| ChatInterface.uuid_user := "m-1";
     ChatInterface.uuid_loading := "m-2";
     ChatInterface.uuid_reply := "m-3";
     ChatInterface.now_user := 2000;
     ChatInterface.now_loading := 2001;
     ChatInterface.now_reply := 2900;
     ChatInterface.random := 1 # 2;
     ChatInterface.geo := Some Sample.waterloo;
     ChatInterface.server := fun _ => ChatInterface.Answered routed;
     ChatInterface.firings := 11 |}.

End Walkthrough.

(* ================================================================== *)
(** * Part II. Properties *)
(* ================================================================== *)

(** ** Comparisons of rationals *)

Section Rationals.

Local Open Scope Q_scope.

Lemma Qltb_lt (a b : Q) : Qltb a b = true <-> a < b.
Proof.
  unfold Qltb. rewrite negb_true_iff. split.
  - intros E. apply Qnot_le_lt. intros Hle.
    apply Qle_bool_iff in Hle. congruence.
  - intros Hlt. destruct (Qle_bool b a) eqn:E; [|reflexivity].
    apply Qle_bool_iff in E. lra.
Qed.

Lemma Qle_bool_false (a b : Q) : Qle_bool a b = false <-> b < a.
Proof.
  split.
  - intros E. apply Qnot_le_lt. intros Hle.
    apply Qle_bool_iff in Hle. congruence.
  - intros Hlt. destruct (Qle_bool a b) eqn:E; [|reflexivity].
    apply Qle_bool_iff in E. lra.
Qed.

End Rationals.

(** ** Indexed maps *)

Lemma map_indexed_length {A B : Type} (g : A -> nat -> B) (xs : list A) :
  forall from, List.length (map_indexed g from xs) = List.length xs.
Proof.
  induction xs as [|x r IH]; intros from; cbn; [reflexivity|].
  now rewrite IH.
Qed.

Lemma map_indexed_nth {A B : Type} (g : A -> nat -> B) (xs : list A) :
  forall from i a,
    nth_error xs i = Some a ->
    nth_error (map_indexed g from xs) i = Some (g a (from + i)%nat).
Proof.
  induction xs as [|x r IH]; intros from i a Hi.
  - destruct i; discriminate.
  - destruct i as [|i]; cbn in *.
    + injection Hi as ->. now rewrite Nat.add_0_r.
    + rewrite (IH (S from) i a Hi). f_equal. f_equal. lia.
Qed.

(** ** The primitives on concrete inputs *)

Module JsFacts.

Example parseFloat_integer : Js.parseFloat "5" = Js.Fin 5.
Proof. reflexivity. Qed.

Example parseFloat_prefix : Js.parseFloat "  -12.50e1km" = Js.Fin (-125).
Proof. reflexivity. Qed.

Example parseFloat_fraction : Js.parseFloat ".5" = Js.Fin (1 # 2).
Proof. reflexivity. Qed.

Example parseFloat_dot : Js.parseFloat "." = Js.NaN.
Proof. reflexivity. Qed.

Example parseFloat_exponent : Js.parseFloat "5.e-1x" = Js.Fin (1 # 2).
Proof. reflexivity. Qed.

Example parseFloat_infinity : Js.parseFloat "-Infinityx" = Js.Inf true.
Proof. reflexivity. Qed.

Example parseFloat_dangling_e : Js.parseFloat "1e" = Js.Fin 1.
Proof. reflexivity. Qed.

Example parseFloat_words : Js.parseFloat "five" = Js.NaN.
Proof. reflexivity. Qed.

Example trim_both_ends : Js.trim "  a b  " = "a b".
Proof. reflexivity. Qed.

Example clock_afternoon : FilterPanel.clock_minutes "17:05" = Some 1025%Z.
Proof. reflexivity. Qed.

(** *** Rounding to doubles *)

Lemma pow2_pos (e : Z) : (0 < Js.pow2 e)%Q.
Proof.
  unfold Js.pow2. destruct (0 <=? e)%Z eqn:E.
  - apply Z.leb_le in E. change 0%Q with (inject_Z 0).
    rewrite <- Zlt_Qlt. now apply Z.pow_pos_nonneg.
  - reflexivity.
Qed.

Lemma nearest_even_nonneg (q : Q) : (0 <= q)%Q -> (0 <= Js.nearest_even q)%Z.
Proof.
  intros Hq. unfold Js.nearest_even.
  assert (0 <= Qfloor q)%Z as Hf.
  { rewrite <- (Qfloor_Z 0). now apply Qfloor_resp_le. }
  destruct (Qcompare _ _); [destruct (Z.even _)| |]; lia.
Qed.

Lemma Qred_nonneg (x : Q) : (0 <= x)%Q -> (0 <= Qred x)%Q.
Proof.
  intros Hx. pose proof (Qred_correct x) as E.
  generalize dependent (Qred x). intros y E. lra.
Qed.

Lemma magnitude64_nonneg (q r : Q) :
  (0 <= q)%Q -> Js.magnitude64 q = Some r -> (0 <= r)%Q.
Proof.
  intros Hq. unfold Js.magnitude64.
  set (e := Z.max (Js.floor_log2 q - 52) (-1074)).
  destruct (Qle_bool _ _); [discriminate|]. intros E.
  assert (r = Qred (inject_Z (Js.nearest_even (q / Js.pow2 e)) * Js.pow2 e))
    as -> by congruence.
  clear E. pose proof (pow2_pos e) as Hp.
  apply Qred_nonneg.
  apply Qmult_le_0_compat; [|now apply Qlt_le_weak].
  change 0%Q with (inject_Z 0). rewrite <- Zle_Qle.
  apply nearest_even_nonneg.
  apply Qle_shift_div_l; [exact Hp|]. now rewrite Qmult_0_l.
Qed.

(** The Number value of a real that is not negative is not negative. *)
Lemma binary64_nonneg (q : Q) :
  (0 <= q)%Q ->
  (exists r, Js.binary64 q = Js.Fin r /\ (0 <= r)%Q)
  \/ Js.binary64 q = Js.Inf false.
Proof.
  intros Hq. unfold Js.binary64.
  assert (0 <= Qred q)%Q as Hr.
  { now apply Qred_nonneg. }
  assert (Qltb (Qred q) 0 = false) as ->.
  { unfold Qltb. apply negb_false_iff. now apply Qle_bool_iff. }
  destruct (Js.magnitude64 (Qabs (Qred q))) as [r|] eqn:E; [|now right].
  left. exists r. split; [reflexivity|].
  apply (magnitude64_nonneg (Qabs (Qred q))); [apply Qabs_nonneg | exact E].
Qed.

Lemma binary64_comp (q q' : Q) : (q == q')%Q -> Js.binary64 q = Js.binary64 q'.
Proof. intros E. unfold Js.binary64. now rewrite (Qred_complete _ _ E). Qed.

Lemma Qabs_opp_eq (q : Q) : Qabs (- q) = Qabs q.
Proof. destruct q as [n d]. unfold Qabs, Qopp. cbn. now rewrite Z.abs_opp. Qed.

(** Rounding is symmetric about 0. *)
Lemma abs_binary64_opp (q q' : Q) :
  (q' == - q)%Q -> Js.abs (Js.binary64 q') = Js.abs (Js.binary64 q).
Proof.
  intros E. unfold Js.binary64.
  rewrite (Qred_complete _ _ E), Qred_opp, Qabs_opp_eq.
  destruct (Js.magnitude64 (Qabs (Qred q))) as [r|]; [|reflexivity].
  cbn [Js.abs]. f_equal.
  destruct (Qltb (- Qred q) 0), (Qltb (Qred q) 0);
    rewrite ?Qabs_opp_eq; reflexivity.
Qed.

(** *** Rounding stays below a double that bounds the real *)

Lemma pow2_Qpower (e : Z) : (Js.pow2 e == 2 ^ e)%Q.
Proof.
  unfold Js.pow2. destruct (0 <=? e)%Z eqn:E.
  - apply Z.leb_le in E. now rewrite Zpower_Qpower.
  - apply Z.leb_gt in E.
    replace e with (- (- e))%Z at 2 by lia.
    rewrite Qpower_opp. change 2%Q with (inject_Z 2).
    rewrite <- Zpower_Qpower by lia.
    assert (0 < 2 ^ (- e))%Z as Hp by (apply Z.pow_pos_nonneg; lia).
    destruct (2 ^ (- e))%Z as [|p|p] eqn:Ep; try lia.
    reflexivity.
Qed.

Lemma pow2_add (a b : Z) : (Js.pow2 (a + b) == Js.pow2 a * Js.pow2 b)%Q.
Proof. rewrite !pow2_Qpower. now apply Qpower_plus. Qed.

Lemma pow2_nonneg_exp (e : Z) :
  (0 <= e)%Z -> Js.pow2 e = inject_Z (2 ^ e).
Proof.
  intros He. unfold Js.pow2. now rewrite (proj2 (Z.leb_le 0 e) He).
Qed.

Lemma pow2_le (a b : Z) : (a <= b)%Z -> (Js.pow2 a <= Js.pow2 b)%Q.
Proof.
  intros Hab. replace b with (a + (b - a))%Z by lia.
  rewrite pow2_add, (pow2_nonneg_exp (b - a)) by lia.
  pose proof (pow2_pos a) as Hp.
  assert (1 <= inject_Z (2 ^ (b - a)))%Q as H1.
  { change 1%Q with (inject_Z 1). rewrite <- Zle_Qle.
    assert (0 < 2 ^ (b - a))%Z by (apply Z.pow_pos_nonneg; lia). lia. }
  generalize dependent (inject_Z (2 ^ (b - a))). intros y Hy.
  generalize dependent (Js.pow2 a). intros x Hx. nra.
Qed.

(** For [q > 0], [2^(floor_log2 q) <= q]. *)
Lemma floor_log2_le (q : Q) :
  (0 < q)%Q -> (Js.pow2 (Js.floor_log2 q) <= q)%Q.
Proof.
  intros Hq. unfold Js.floor_log2.
  set (a := Z.log2 (Qnum q)). set (b := Z.log2 (Zpos (Qden q))).
  destruct (Qle_bool (Js.pow2 (a - b)) q) eqn:E;
    [now apply Qle_bool_iff|].
  destruct q as [n d]. cbn [Qnum Qden] in *.
  assert (0 < n)%Z as Hn.
  { unfold Qlt in Hq. cbn in Hq. lia. }
  destruct (Z.log2_spec n Hn) as [Ha _]. fold a in Ha.
  destruct (Z.log2_spec (Zpos d) eq_refl) as [_ Hb]. fold b in Hb.
  assert (0 <= a)%Z as Ha0 by apply Z.log2_nonneg.
  assert (0 <= b)%Z as Hb0 by apply Z.log2_nonneg.
  pose proof (pow2_add (a - b - 1) (b + 1)) as Hadd.
  replace (a - b - 1 + (b + 1))%Z with a in Hadd by lia.
  rewrite (pow2_nonneg_exp a Ha0), (pow2_nonneg_exp (b + 1)) in Hadd by lia.
  pose proof (pow2_pos (a - b - 1)) as Hx.
  rewrite (Qmake_Qdiv n d).
  apply Qle_shift_div_l; [reflexivity|].
  assert (inject_Z (Zpos d) <= inject_Z (2 ^ (b + 1)))%Q as Hd.
  { rewrite <- Zle_Qle. replace (Z.succ b) with (b + 1)%Z in Hb by lia. lia. }
  assert (inject_Z (2 ^ a) <= inject_Z n)%Q as Hn'.
  { now rewrite <- Zle_Qle. }
  generalize dependent (inject_Z (2 ^ a)). intros A HA HA'.
  generalize dependent (inject_Z (2 ^ (b + 1))). intros B HB HB'.
  generalize dependent (inject_Z (Zpos d)). intros D HD.
  generalize dependent (inject_Z n). intros N HN.
  replace (a - b - 1)%Z with (a - b - 1)%Z in * by reflexivity.
  generalize dependent (Js.pow2 (a - b - 1)). intros X HX HX'.
  nra.
Qed.

Lemma nearest_even_le (q : Q) (K : Z) :
  (q <= inject_Z K)%Q -> (Js.nearest_even q <= K)%Z.
Proof.
  intros Hq. unfold Js.nearest_even. cbv zeta.
  assert (Qfloor q <= K)%Z as Hf.
  { rewrite <- (Qfloor_Z K). now apply Qfloor_resp_le. }
  destruct (Z.eq_dec (Qfloor q) K) as [E|E].
  - pose proof (Qfloor_le q) as Hl. rewrite E in Hl |- *.
    destruct (Qcompare (q - inject_Z K) (1 # 2)) eqn:C.
    + apply Qeq_alt in C. lra.
    + lia.
    + apply Qgt_alt in C. lra.
  - destruct (Qcompare _ _); [destruct (Z.even _)| |]; lia.
Qed.

Lemma nearest_even_zero (q : Q) : (q == 0)%Q -> Js.nearest_even q = 0%Z.
Proof.
  intros E. unfold Js.nearest_even. cbv zeta.
  assert (Qfloor q = 0%Z) as -> by (now rewrite E).
  destruct (Qcompare (q - inject_Z 0) (1 # 2)) eqn:C.
  - apply Qeq_alt in C. rewrite E in C. discriminate.
  - reflexivity.
  - apply Qgt_alt in C. rewrite E in C. discriminate.
Qed.

(** Rounding does not go beyond a double that bounds the real. *)
Lemma magnitude64_le (q : Q) (M E : Z) :
  (0 <= q)%Q ->
  (q <= inject_Z M * Js.pow2 E)%Q ->
  (M < 2 ^ 53)%Z ->
  (-1074 <= E)%Z ->
  (inject_Z M * Js.pow2 E < Js.pow2 1024)%Q ->
  exists r,
    Js.magnitude64 q = Some r
    /\ (0 <= r)%Q /\ (r <= inject_Z M * Js.pow2 E)%Q.
Proof.
  intros Hq Hle HM HE Hmax. unfold Js.magnitude64.
  set (e := Z.max (Js.floor_log2 q - 52) (-1074)).
  set (r := (inject_Z (Js.nearest_even (q / Js.pow2 e)) * Js.pow2 e)%Q).
  pose proof (pow2_pos e) as Hpe.
  assert (0 <= r)%Q as Hr0.
  { unfold r. apply Qmult_le_0_compat; [|now apply Qlt_le_weak].
    change 0%Q with (inject_Z 0). rewrite <- Zle_Qle.
    apply nearest_even_nonneg.
    apply Qle_shift_div_l; [exact Hpe|]. now rewrite Qmult_0_l. }
  assert (r <= inject_Z M * Js.pow2 E)%Q as Hr.
  { destruct (Qeq_dec q 0) as [Ez|Ez].
    { unfold r. rewrite (nearest_even_zero (q / Js.pow2 e)).
      - rewrite Qmult_0_l. lra.
      - rewrite Ez. unfold Qdiv. apply Qmult_0_l. }
    assert (0 < q)%Q as Hpos by lra.
    destruct (Z_le_gt_dec e E) as [Hc|Hc].
    - pose proof (pow2_add (E - e) e) as Hadd.
      replace (E - e + e)%Z with E in Hadd by lia.
      rewrite (pow2_nonneg_exp (E - e)) in Hadd by lia.
      assert (q / Js.pow2 e <= inject_Z (M * 2 ^ (E - e)))%Q as Hdiv.
      { apply Qle_shift_div_r; [exact Hpe|].
        rewrite inject_Z_mult, <- Qmult_assoc, <- Hadd. exact Hle. }
      apply nearest_even_le in Hdiv. unfold r.
      rewrite Hadd, Qmult_assoc, <- inject_Z_mult.
      apply Qmult_le_compat_r; [|now apply Qlt_le_weak].
      now rewrite <- Zle_Qle.
    - exfalso.
      assert (e = Js.floor_log2 q - 52)%Z as He by (unfold e in *; lia).
      pose proof (floor_log2_le q Hpos) as Hfl.
      pose proof (pow2_le (E + 53) (Js.floor_log2 q) ltac:(lia)) as Hmono.
      pose proof (pow2_add E 53) as Hadd.
      rewrite (pow2_nonneg_exp 53) in Hadd by lia.
      assert (inject_Z M < inject_Z (2 ^ 53))%Q as HM'
        by (now rewrite <- Zlt_Qlt).
      pose proof (pow2_pos E) as HpE.
      generalize dependent (Js.pow2 (E + 53)). intros A HA HA'.
      generalize dependent (Js.pow2 (Js.floor_log2 q)). intros B HB HB'.
      generalize dependent (inject_Z (2 ^ 53)). intros C HC HC'.
      generalize dependent (inject_Z M). intros m Hm1 Hm2 Hm3.
      generalize dependent (Js.pow2 E). intros p Hp1 Hp2 Hp3 Hp4.
      nra. }
  fold r.
  assert (Qle_bool (Js.pow2 1024) r = false) as ->.
  { apply not_true_is_false. intros Habs. apply Qle_bool_iff in Habs. lra. }
  exists (Qred r). split; [reflexivity|].
  rewrite (Qred_correct r). split; assumption.
Qed.

(** The difference of two reals within a double of each other, rounded,
    is within that double. *)
Lemma binary64_le (d : Q) (M E : Z) :
  (Qabs d <= inject_Z M * Js.pow2 E)%Q ->
  (M < 2 ^ 53)%Z ->
  (-1074 <= E)%Z ->
  (inject_Z M * Js.pow2 E < Js.pow2 1024)%Q ->
  exists r,
    Js.binary64 d = Js.Fin r /\ (Qabs r <= inject_Z M * Js.pow2 E)%Q.
Proof.
  intros Hd HM HE Hmax. unfold Js.binary64.
  assert (Qabs (Qred d) <= inject_Z M * Js.pow2 E)%Q as Hd'.
  { now rewrite (Qred_correct d). }
  destruct (magnitude64_le (Qabs (Qred d)) M E (Qabs_nonneg _) Hd' HM HE Hmax)
    as (r & -> & Hr0 & Hr).
  eexists. split; [reflexivity|].
  destruct (Qltb (Qred d) 0); [rewrite Qabs_opp|]; now rewrite Qabs_pos.
Qed.

Example binary64_tenth :
  Js.binary64 (1 # 10) = Js.Fin (3602879701896397 # 36028797018963968).
Proof. vm_compute. reflexivity. Qed.

Example binary64_tie_to_even :
  Js.binary64 9007199254740993 = Js.Fin 9007199254740992
  /\ Js.binary64 9007199254740995 = Js.Fin 9007199254740996.
Proof. vm_compute. split; reflexivity. Qed.

Example parseFloat_overflow : Js.parseFloat "1e400" = Js.Inf false.
Proof. vm_compute. reflexivity. Qed.

Example parseFloat_underflow : Js.parseFloat "-1e-400" = Js.Fin 0.
Proof. vm_compute. reflexivity. Qed.

Example parseFloat_largest :
  Js.parseFloat "1.7976931348623158e308"
  = Js.Fin (inject_Z (2 ^ 1024 - 2 ^ 971))
  /\ Js.parseFloat "1.7976931348623159e308" = Js.Inf false.
Proof. vm_compute. split; reflexivity. Qed.

(** *** White space *)

(** Induction along the white space at the head of a string. *)
Lemma white_space_ind (P : string -> Prop) :
  (forall s, Js.whiteSpaceAhead s = false -> P s) ->
  (forall a r, Js.isWhiteSpace a = true -> P r -> P (String a r)) ->
  (forall a b r,
      Js.isWhiteSpace a = false -> Js.isWhiteSpace2 a b = true ->
      P r -> P (String a (String b r))) ->
  (forall a b c r,
      Js.isWhiteSpace a = false -> Js.isWhiteSpace2 a b = false ->
      Js.isWhiteSpace3 a b c = true ->
      P r -> P (String a (String b (String c r)))) ->
  forall s, P s.
Proof.
  intros Hstop H1 H2 H3 s.
  remember (String.length s) as n eqn:En.
  revert s En. induction n as [n IH] using lt_wf_ind. intros s En.
  destruct s as [|a r]; [now apply Hstop|].
  destruct (Js.isWhiteSpace a) eqn:E1.
  { apply H1; [exact E1|]. apply (IH (String.length r)); cbn in En; lia. }
  destruct r as [|b r2]; [apply Hstop; cbn; now rewrite E1|].
  destruct (Js.isWhiteSpace2 a b) eqn:E2.
  { apply H2; try assumption.
    apply (IH (String.length r2)); cbn in En; lia. }
  destruct r2 as [|c r3]; [apply Hstop; cbn; now rewrite E1, E2|].
  destruct (Js.isWhiteSpace3 a b c) eqn:E3.
  { apply H3; try assumption.
    apply (IH (String.length r3)); cbn in En; lia. }
  apply Hstop. cbn. now rewrite E1, E2, E3.
Qed.

(** Where no white space is ahead [trimStart] stops. *)
Lemma trimStart_stop (s : string) :
  Js.whiteSpaceAhead s = false -> Js.trimStart s = s.
Proof.
  destruct s as [|a [|b [|c r]]]; cbn; [reflexivity| | |].
  - rewrite orb_false_r. now intros ->.
  - intros E. apply orb_false_elim in E as [-> E].
    rewrite orb_false_r in E. now rewrite E.
  - intros E. apply orb_false_elim in E as [-> E].
    apply orb_false_elim in E as [-> ->]. reflexivity.
Qed.

Lemma blank_stop (s : string) :
  Js.whiteSpaceAhead s = false -> Js.blank s = true -> s = "".
Proof.
  destruct s as [|a [|b [|c r]]]; cbn; [reflexivity| | |].
  - rewrite orb_false_r. intros ->. discriminate.
  - intros E. apply orb_false_elim in E as [-> E].
    rewrite orb_false_r in E. rewrite E. discriminate.
  - intros E. apply orb_false_elim in E as [-> E].
    apply orb_false_elim in E as [-> ->]. discriminate.
Qed.

(** What [trimStart] leaves does not start with white space. *)
Lemma trimStart_done (s : string) :
  Js.whiteSpaceAhead (Js.trimStart s) = false.
Proof.
  induction s as [s Hs|a r Ha IH|a b r Ha Hb IH|a b c r Ha Hb Hc IH]
    using white_space_ind.
  - now rewrite trimStart_stop.
  - cbn [Js.trimStart]. now rewrite Ha.
  - cbn [Js.trimStart]. now rewrite Ha, Hb.
  - cbn [Js.trimStart]. now rewrite Ha, Hb, Hc.
Qed.

Lemma blank_trimStart (s : string) : Js.blank (Js.trimStart s) = Js.blank s.
Proof.
  induction s as [s Hs|a r Ha IH|a b r Ha Hb IH|a b c r Ha Hb Hc IH]
    using white_space_ind.
  - now rewrite trimStart_stop.
  - cbn [Js.trimStart Js.blank]. now rewrite Ha.
  - cbn [Js.trimStart Js.blank]. now rewrite Ha, Hb.
  - cbn [Js.trimStart Js.blank]. now rewrite Ha, Hb, Hc.
Qed.

Lemma trimStart_blank (s : string) :
  Js.trimStart s = "" <-> Js.blank s = true.
Proof.
  rewrite <- blank_trimStart. split; [now intros ->|].
  apply blank_stop, trimStart_done.
Qed.

Lemma trimEnd_blank (s : string) : Js.trimEnd s = "" <-> Js.blank s = true.
Proof.
  destruct s as [|c r]; [cbn; tauto|].
  cbn [Js.trimEnd]. destruct (Js.blank (String c r)); split;
    congruence.
Qed.

(** [trim] leaves nothing exactly of a string of white space. *)
Lemma trim_blank (s : string) : Js.trim s = "" <-> Js.blank s = true.
Proof. unfold Js.trim. now rewrite trimEnd_blank, blank_trimStart. Qed.

Example trim_no_break_space :
  Js.trim (String (ascii_of_nat 194) (String (ascii_of_nat 160) " a b  "))
  = "a b"
  /\ Js.blank (String (ascii_of_nat 194) (String (ascii_of_nat 160) " "))
     = true.
Proof. split; reflexivity. Qed.

End JsFacts.

(** ** The filter panel *)

Module FilterPanelFacts.

Import RouteContext FilterPanel.

(** The handler posts at most the body built by [sidequestData], and only
    past its three guards. *)
Lemma posted_inv (f : FilterState) (ctx : State) (geo : option Location)
    (server : SidequestData -> FetchOutcome) (d : SidequestData) :
  posted (handleGenerateSidequest f ctx geo server) = Some d ->
  exists location,
    geo = Some location
    /\ d = sidequestData f location (Js.parseFloat (distance f))
    /\ String.eqb (Js.trim (distance f)) "" = false
    /\ Js.isNaN (Js.parseFloat (distance f)) = false
    /\ Js.ltb (Js.parseFloat (distance f)) Js.zero = false.
Proof.
  unfold handleGenerateSidequest.
  destruct (String.eqb (Js.trim (distance f)) "") eqn:Eblank; [discriminate|].
  destruct (Js.isNaN (Js.parseFloat (distance f))) eqn:Enan; [discriminate|].
  destruct (Js.ltb (Js.parseFloat (distance f)) Js.zero) eqn:Eneg;
    [discriminate|].
  cbn [orb].
  destruct geo as [location|]; [|discriminate].
  intros Hp. exists location.
  assert (d = sidequestData f location (Js.parseFloat (distance f))) as ->.
  { destruct (server _); cbn in Hp; congruence. }
  auto.
Qed.

(** Conversely, past the guards the body is posted whatever the server
    answers. *)
Lemma posted_intro (f : FilterState) (ctx : State) (location : Location)
    (server : SidequestData -> FetchOutcome) :
  String.eqb (Js.trim (distance f)) "" = false ->
  Js.isNaN (Js.parseFloat (distance f)) = false ->
  Js.ltb (Js.parseFloat (distance f)) Js.zero = false ->
  posted (handleGenerateSidequest f ctx (Some location) server)
  = Some (sidequestData f location (Js.parseFloat (distance f))).
Proof.
  intros Hb Hn Hl. unfold handleGenerateSidequest.
  rewrite Hb, Hn, Hl. cbn [orb].
  destruct (server _); reflexivity.
Qed.

Lemma stops_coordinates (xs : list SidequestActivity) :
  forall from,
    map (fun stop => (lng stop, lat stop))
        (map_indexed mapActivityToPlaceStop from xs)
    = map (fun a => (a_lon a, a_lat a)) xs.
Proof.
  induction xs as [|x r IH]; intros from; cbn; [reflexivity|].
  now rewrite IH.
Qed.

Lemma selected_among_keys (f : FilterState) :
  incl (selectedInterests f)
       ["shopping"; "food"; "entertainment"; "scenery"].
Proof.
  unfold selectedInterests, interest_entries.
  destruct (interests f) as [a b c d].
  destruct a, b, c, d; intros x Hx; cbn in *; intuition auto.
Qed.

(** C7. After a successful response the route context holds one stop per
    itinerary item, in the itinerary's order, each stop named after its
    item's title and placed at the item's lon/lat; the way points are the
    user's location followed by the coordinates of those stops, one more
    than there are items. *)
Theorem stops_mirror_itinerary (f : FilterState) (ctx : State)
    (geo : option Location) (server : SidequestData -> FetchOutcome)
    (d : SidequestData) (result : SidequestResponse) :
  posted (handleGenerateSidequest f ctx geo server) = Some d ->
  server d = Ok result ->
  let after := context (handleGenerateSidequest f ctx geo server) in
  List.length (stops after) = List.length (itinerary result)
  /\ (forall i a,
         nth_error (itinerary result) i = Some a ->
         exists stop,
           nth_error (stops after) i = Some stop
           /\ name stop = a_title a
           /\ lng stop = a_lon a
           /\ lat stop = a_lat a)
  /\ (exists location,
         geo = Some location
         /\ userLocation after = Some location
         /\ waypoints after
            = (longitude location, latitude location)
                :: map (fun stop => (lng stop, lat stop)) (stops after)
         /\ waypoints after
            = (longitude location, latitude location)
                :: map (fun a => (a_lon a, a_lat a)) (itinerary result))
  /\ List.length (waypoints after) = S (List.length (itinerary result)).
Proof.
  intros Hp Hs.
  destruct (posted_inv _ _ _ _ _ Hp) as (location & -> & Hd & Hb & Hn & Hl).
  subst d. unfold handleGenerateSidequest.
  rewrite Hb, Hn, Hl. cbn [orb]. rewrite Hs. cbn.
  split; [apply map_indexed_length|].
  split.
  { intros i a Hi.
    exists (mapActivityToPlaceStop a (0 + i)).
    split; [now apply map_indexed_nth|]. cbn. auto. }
  split.
  { exists location. unfold waypointsOf.
    rewrite stops_coordinates. auto. }
  unfold waypointsOf. cbn.
  now rewrite length_map, map_indexed_length.
Qed.

Lemma stops_mirror_itinerary_witness :
  let after :=
    context (handleGenerateSidequest Sample.food_indoor initial
               (Some Sample.waterloo) Sample.answering) in
  map name (stops after) = ["Museum"; "Park"]
  /\ List.length (waypoints after) = 3%nat.
Proof.
  pose proof
    (stops_mirror_itinerary Sample.food_indoor initial (Some Sample.waterloo)
       Sample.answering
       (sidequestData Sample.food_indoor Sample.waterloo (Js.Fin 5))
       Sample.answer eq_refl eq_refl) as (_ & _ & _ & Hw).
  split; [reflexivity | exact Hw].
Defined.

(** C8. The interests of a posted request are among shopping, food,
    entertainment and scenery; meals, bites and physical_activity are never
    among them, and food is not one of the planner's categories. *)
Theorem interests_among_four (f : FilterState) (ctx : State)
    (geo : option Location) (server : SidequestData -> FetchOutcome)
    (d : SidequestData) :
  posted (handleGenerateSidequest f ctx geo server) = Some d ->
  incl (d_interests d) ["shopping"; "food"; "entertainment"; "scenery"]
  /\ ~ In "meals" (d_interests d)
  /\ ~ In "bites" (d_interests d)
  /\ ~ In "physical_activity" (d_interests d)
  /\ Planner.category_of_string "food" = None.
Proof.
  intros Hp.
  destruct (posted_inv _ _ _ _ _ Hp) as (location & _ & -> & _).
  cbn [d_interests sidequestData].
  pose proof (selected_among_keys f) as Hin.
  repeat split; try exact Hin; try reflexivity;
    intros Habs; apply Hin in Habs; cbn in Habs;
    repeat (destruct Habs as [Habs|Habs]; [discriminate|]); exact Habs.
Qed.

Lemma interests_among_four_witness :
  incl ["food"] ["shopping"; "food"; "entertainment"; "scenery"]
  /\ ~ In "meals" ["food"].
Proof.
  pose proof
    (interests_among_four Sample.food_indoor initial (Some Sample.waterloo)
       Sample.failing
       (sidequestData Sample.food_indoor Sample.waterloo (Js.Fin 5))
       eq_refl) as (Hi & Hm & _).
  exact (conj Hi Hm).
Defined.

(** C9. In a posted request [indoor_outdoor] is "indoor" exactly when only
    the indoor box is checked, "outdoor" exactly when only the outdoor box
    is checked, and null exactly when both or neither is; "mixed" is never
    sent. *)
Theorem indoor_outdoor_field (f : FilterState) (ctx : State)
    (geo : option Location) (server : SidequestData -> FetchOutcome)
    (d : SidequestData) :
  posted (handleGenerateSidequest f ctx geo server) = Some d ->
  (d_indoor_outdoor d = Some "indoor"
   <-> indoor (indoorOutdoor f) = true /\ outdoor (indoorOutdoor f) = false)
  /\ (d_indoor_outdoor d = Some "outdoor"
      <-> indoor (indoorOutdoor f) = false /\ outdoor (indoorOutdoor f) = true)
  /\ (d_indoor_outdoor d = None
      <-> indoor (indoorOutdoor f) = outdoor (indoorOutdoor f))
  /\ d_indoor_outdoor d <> Some "mixed".
Proof.
  intros Hp.
  destruct (posted_inv _ _ _ _ _ Hp) as (location & _ & -> & _).
  cbn [d_indoor_outdoor sidequestData]. unfold selectedIndoorOutdoor.
  destruct (indoor (indoorOutdoor f)), (outdoor (indoorOutdoor f)); cbn;
    repeat split; intros; try discriminate; try reflexivity;
    match goal with H : _ /\ _ |- _ => destruct H; discriminate end.
Qed.

Lemma indoor_outdoor_field_witness :
  d_indoor_outdoor
    (sidequestData Sample.food_indoor Sample.waterloo (Js.Fin 5))
  <> Some "mixed".
Proof.
  exact
    (proj2 (proj2 (proj2
       (indoor_outdoor_field Sample.food_indoor initial (Some Sample.waterloo)
          Sample.failing
          (sidequestData Sample.food_indoor Sample.waterloo (Js.Fin 5))
          eq_refl)))).
Defined.

(** C4, as the claim has it, fails: a window entered backwards (17:00 to
    09:00) is posted like any other. *)
Lemma backwards_window_is_posted :
  Shape.malformed_window Sample.backwards
  /\ posted (handleGenerateSidequest Sample.backwards initial
               (Some Sample.waterloo) Sample.failing)
     = Some (sidequestData Sample.backwards Sample.waterloo (Js.Fin 5))
  /\ d_start_time (sidequestData Sample.backwards Sample.waterloo (Js.Fin 5))
     = "17:00"
  /\ d_end_time (sidequestData Sample.backwards Sample.waterloo (Js.Fin 5))
     = "09:00".
Proof.
  split.
  - exists 1020%Z, 540%Z. repeat split; try reflexivity. lia.
  - repeat split; reflexivity.
Qed.

(** C4, amended. A request is posted exactly when the distance field is
    not blank, reads as a number that is not negative, and the location is
    available.  The time window is sent as entered, unchecked, and a budget
    that is not greater than 0 is sent as null. *)
Theorem request_issued_iff (f : FilterState) (ctx : State)
    (geo : option Location) (server : SidequestData -> FetchOutcome) :
  (posted (handleGenerateSidequest f ctx geo server) <> None
   <-> String.eqb (Js.trim (distance f)) "" = false
       /\ Js.isNaN (Js.parseFloat (distance f)) = false
       /\ Js.ltb (Js.parseFloat (distance f)) Js.zero = false
       /\ geo <> None)
  /\ (forall d,
         posted (handleGenerateSidequest f ctx geo server) = Some d ->
         d_start_time d = start (time f)
         /\ d_end_time d = end_ (time f)
         /\ d_travel_distance d = Js.parseFloat (distance f)
         /\ d_budget d
            = if Js.gtb (budget f) Js.zero then Some (budget f) else None).
Proof.
  split.
  - split.
    + intros Hp.
      destruct (posted (handleGenerateSidequest f ctx geo server)) as [d|] eqn:E;
        [|congruence].
      destruct (posted_inv _ _ _ _ _ E) as (location & -> & _ & Hb & Hn & Hl).
      repeat split; auto. discriminate.
    + intros (Hb & Hn & Hl & Hg).
      destruct geo as [location|]; [|congruence].
      rewrite (posted_intro f ctx location server Hb Hn Hl). discriminate.
  - intros d Hp.
    destruct (posted_inv _ _ _ _ _ Hp) as (location & _ & -> & _).
    cbn. auto.
Qed.

End FilterPanelFacts.

(** ** The route planning panel *)

Module RoutePlanningPanelFacts.

Import RouteContext RoutePlanningPanel Shape.

Lemma lastPoint_snoc (pts : list LngLat) (p : LngLat) :
  lastPoint (pts ++ [p]) = Some p.
Proof. unfold lastPoint. now rewrite rev_unit. Qed.

Lemma lastPoint_none (pts : list LngLat) : lastPoint pts = None -> pts = [].
Proof.
  destruct pts as [|x r] using rev_ind; [reflexivity|].
  now rewrite lastPoint_snoc.
Qed.

Lemma lastPoint_some (pts : list LngLat) (p : LngLat) :
  lastPoint pts = Some p -> exists front, pts = front ++ [p].
Proof.
  destruct pts as [|x r] using rev_ind; [discriminate|].
  rewrite lastPoint_snoc. intros [= ->]. now exists r.
Qed.

Lemma Spaced_nil : Spaced [].
Proof. intros l1 p q l2 E. destruct l1; discriminate. Qed.

Lemma Spaced_one (p : LngLat) : Spaced [p].
Proof.
  intros l1 a b l2 E. destruct l1 as [|x [|y l1]]; discriminate.
Qed.

(** Appending a point that is not nearly the last one keeps the list
    spaced. *)
Lemma Spaced_snoc (pts : list LngLat) (pt : LngLat) :
  Spaced pts ->
  (forall l, lastPoint pts = Some l -> nearlySame l pt = false) ->
  Spaced (pts ++ [pt]).
Proof.
  intros Hs Hlast l1 p q l2 E.
  destruct l2 as [|z l2'] using rev_ind.
  - change (l1 ++ [p; q]) with (l1 ++ [p] ++ [q]) in E.
    rewrite app_assoc in E.
    apply app_inj_tail in E as [-> ->].
    apply Hlast, lastPoint_snoc.
  - clear IHl2'.
    change (l1 ++ p :: q :: l2' ++ [z])
      with (l1 ++ (p :: q :: l2') ++ [z]) in E.
    rewrite app_assoc in E.
    apply app_inj_tail in E as [E _].
    exact (Hs _ _ _ _ E).
Qed.

Lemma visitStop_cases (pts : list LngLat) (s : PlaceStop) :
  visitStop pts s = pts
  \/ (visitStop pts s = pts ++ [coordinates s]
      /\ hasCoordinates s = true
      /\ forall l, lastPoint pts = Some l ->
                   nearlySame l (coordinates s) = false).
Proof.
  unfold visitStop.
  destruct (hasCoordinates s); [|now left].
  destruct (lastPoint pts) as [l|] eqn:El.
  - destruct (nearlySame l (coordinates s)) eqn:En; cbn; [now left|].
    right. repeat split. now intros l' [= <-].
  - right. repeat split. discriminate.
Qed.

Lemma visitStop_spaced (pts : list LngLat) (s : PlaceStop) :
  Spaced pts -> Spaced (visitStop pts s).
Proof.
  intros Hs.
  destruct (visitStop_cases pts s) as [-> | (-> & _ & Hl)]; [exact Hs|].
  now apply Spaced_snoc.
Qed.

Lemma fold_spaced (l : list PlaceStop) :
  forall acc, Spaced acc -> Spaced (fold_left visitStop l acc).
Proof.
  induction l as [|s r IH]; intros acc Hacc; cbn; [exact Hacc|].
  apply IH, visitStop_spaced, Hacc.
Qed.

(** The loop only appends, and what it appends is taken in order from the
    stops that pass the guard. *)
Lemma fold_appends (l : list PlaceStop) :
  forall acc,
    exists ext,
      fold_left visitStop l acc = acc ++ ext
      /\ Subseq ext (map coordinates (filter hasCoordinates l)).
Proof.
  induction l as [|s r IH]; intros acc; cbn [fold_left filter].
  - exists []. split; [now rewrite app_nil_r | constructor].
  - destruct (visitStop_cases acc s) as [E | (E & Hc & _)]; rewrite E.
    + destruct (IH acc) as (ext & Hf & Hsub).
      exists ext. split; [exact Hf|].
      destruct (hasCoordinates s); [cbn; now constructor | exact Hsub].
    + destruct (IH (acc ++ [coordinates s])) as (ext & Hf & Hsub).
      exists (coordinates s :: ext). rewrite Hc. cbn [map].
      split; [now rewrite Hf, <- app_assoc | now constructor].
Qed.

Lemma hasCoordinates_spec (s : PlaceStop) :
  hasCoordinates s = true ->
  Js.isNaN (lng s) = false
  /\ Js.isNaN (lat s) = false
  /\ ~ (Js.strict_eq (lng s) Js.zero = true
        /\ Js.strict_eq (lat s) Js.zero = true).
Proof.
  unfold hasCoordinates. intros Hc.
  apply andb_prop in Hc as [Hc Hz]. apply andb_prop in Hc as [Hx Hy].
  apply negb_true_iff in Hx, Hy, Hz.
  repeat split; auto.
  intros [Ha Hb]. rewrite Ha, Hb in Hz. discriminate.
Qed.

(** On finite coordinates [nearlySame] subtracts, takes the absolute
    value and compares as the code does, in doubles. *)
Lemma nearlySame_finite (x1 y1 x2 y2 : Q) :
  nearlySame (Js.Fin x1, Js.Fin y1) (Js.Fin x2, Js.Fin y2) = true
  <-> Js.ltb (Js.abs (Js.sub (Js.Fin x1) (Js.Fin x2))) epsilon = true
      /\ Js.ltb (Js.abs (Js.sub (Js.Fin y1) (Js.Fin y2))) epsilon = true.
Proof. unfold nearlySame. cbn [fst snd]. apply andb_true_iff. Qed.

Example epsilon_value :
  epsilon = Js.Fin (5902958103587057 # 590295810358705651712)
  /\ (below_epsilon == (5902958103587056 # 590295810358705651712))%Q
  /\ Js.binary64 below_epsilon = Js.Fin below_epsilon.
Proof. vm_compute. repeat split. Qed.

(** Two reals no farther apart than the double before [1e-5] are within
    the threshold, however the subtraction rounds. *)
Lemma close_enough (x1 x2 : Q) :
  (Qabs (x1 - x2) <= below_epsilon)%Q ->
  Js.ltb (Js.abs (Js.sub (Js.Fin x1) (Js.Fin x2))) epsilon = true.
Proof.
  intros Hd.
  assert (below_epsilon == inject_Z 5902958103587056 * Js.pow2 (-69))%Q as Eb
    by (vm_compute; reflexivity).
  destruct (JsFacts.binary64_le (x1 - x2) 5902958103587056 (-69))
    as (r & Er & Hr).
  - now rewrite <- Eb.
  - reflexivity.
  - discriminate.
  - vm_compute. reflexivity.
  - cbn [Js.sub]. rewrite Er. cbn [Js.abs].
    rewrite (proj1 epsilon_value). cbn [Js.ltb]. unfold Qltb.
    apply negb_true_iff, not_true_is_false. intros Habs.
    apply Qle_bool_iff in Habs. rewrite <- Eb in Hr.
    assert (below_epsilon < 5902958103587057 # 590295810358705651712)%Q
      by (vm_compute; reflexivity).
    lra.
Qed.

Example buildPoints_at_the_door :
  buildPoints Sample.at_the_door = [(Js.Fin (-8052 # 100), Js.Fin (4346 # 100))].
Proof. vm_compute. reflexivity. Qed.

(** C10, as the claim has it, fails: two consecutive points are both
    kept although their longitudes and their latitudes each differ by
    less than 1e-5.  The longitudes are farther apart than the double
    before 1e-5, and their difference, subtracted in doubles, rounds to
    the double 1e-5, which is not below the threshold. *)
Lemma hairline_points_both_kept :
  buildPoints Sample.hairline
  = [(Js.Fin Sample.just_east, Js.Fin 1); (Js.Fin Sample.just_west, Js.Fin 1)]
  /\ (Qabs (Sample.just_east - Sample.just_west) < 1 # 100000)%Q
  /\ (Qabs (1 - 1) < 1 # 100000)%Q
  /\ (below_epsilon < Qabs (Sample.just_east - Sample.just_west))%Q
  /\ Js.sub (Js.Fin Sample.just_east) (Js.Fin Sample.just_west) = epsilon.
Proof. vm_compute. repeat split. Qed.

(** C10, amended. [buildPoints] starts with the user's location when one
    is set; what follows is taken, in order, from the stops whose lng and
    lat are not NaN and not both zero; no two consecutive points are
    nearly the same as [nearlySame] computes it, that is, with each
    difference subtracted, made absolute and compared with 1e-5 in
    doubles, so that no two consecutive points have longitudes and
    latitudes that each differ by no more than 9.999999999999999e-06,
    the double before 1e-5; and with fewer than two points [handleStart]
    sets an error and issues no Directions request.  Moreover a further
    stop whose coordinates pass and are not nearly the same as the last
    point adds its point. *)
Theorem buildPoints_handleStart (ctx : State) :
  (exists rest,
      buildPoints ctx = originPoints ctx ++ rest
      /\ Subseq rest (map coordinates (filter hasCoordinates (stops ctx))))
  /\ (forall loc,
         userLocation ctx = Some loc ->
         hd_error (buildPoints ctx) = Some (longitude loc, latitude loc))
  /\ (userLocation ctx = None ->
      Subseq (buildPoints ctx)
             (map coordinates (filter hasCoordinates (stops ctx))))
  /\ (forall s,
         In s (filter hasCoordinates (stops ctx)) ->
         In s (stops ctx)
         /\ Js.isNaN (lng s) = false
         /\ Js.isNaN (lat s) = false
         /\ ~ (Js.strict_eq (lng s) Js.zero = true
               /\ Js.strict_eq (lat s) Js.zero = true))
  /\ Spaced (buildPoints ctx)
  /\ (forall l1 x1 y1 x2 y2 l2,
         buildPoints ctx
         = l1 ++ (Js.Fin x1, Js.Fin y1) :: (Js.Fin x2, Js.Fin y2) :: l2 ->
         ~ (Js.ltb (Js.abs (Js.sub (Js.Fin x1) (Js.Fin x2))) epsilon = true
            /\ Js.ltb (Js.abs (Js.sub (Js.Fin y1) (Js.Fin y2))) epsilon
               = true))
  /\ (forall l1 x1 y1 x2 y2 l2,
         buildPoints ctx
         = l1 ++ (Js.Fin x1, Js.Fin y1) :: (Js.Fin x2, Js.Fin y2) :: l2 ->
         ~ ((Qabs (x1 - x2) <= below_epsilon)%Q
            /\ (Qabs (y1 - y2) <= below_epsilon)%Q))
  /\ (forall env st,
         (List.length (buildPoints ctx) < 2)%nat ->
         error (stateOf (handleStart env st ctx)) <> None
         /\ requests (handleStart env st ctx) = [])
  /\ (forall s,
         hasCoordinates s = true ->
         (forall p, lastPoint (buildPoints ctx) = Some p ->
                    nearlySame p (coordinates s) = false) ->
         buildPoints (setStops (stops ctx ++ [s]) ctx)
         = buildPoints ctx ++ [coordinates s]).
Proof.
  destruct (fold_appends (stops ctx) (originPoints ctx)) as (rest & Hf & Hsub).
  fold (buildPoints ctx) in Hf.
  split; [now exists rest|].
  split.
  { intros loc Hloc. rewrite Hf. unfold originPoints. now rewrite Hloc. }
  split.
  { intros Hnone. rewrite Hf. unfold originPoints. now rewrite Hnone. }
  split.
  { intros s Hs. apply filter_In in Hs as [Hin Hc].
    split; [exact Hin | now apply hasCoordinates_spec]. }
  assert (Spaced (buildPoints ctx)) as Hspaced.
  { apply fold_spaced. unfold originPoints.
    destruct (userLocation ctx); [apply Spaced_one | apply Spaced_nil]. }
  split; [exact Hspaced|].
  split.
  { intros l1 x1 y1 x2 y2 l2 E Hnear.
    apply nearlySame_finite in Hnear.
    rewrite (Hspaced _ _ _ _ E) in Hnear. discriminate. }
  split.
  { intros l1 x1 y1 x2 y2 l2 E [Hx Hy].
    assert (nearlySame (Js.Fin x1, Js.Fin y1) (Js.Fin x2, Js.Fin y2) = true)
      as Hnear.
    { apply nearlySame_finite. split; now apply close_enough. }
    rewrite (Hspaced _ _ _ _ E) in Hnear. discriminate. }
  split.
  { intros env st Hlen. unfold handleStart.
    destruct (String.eqb (MAPBOX_TOKEN env) ""
              || String.eqb (MAPBOX_TOKEN env) placeholder_token).
    - cbn. split; [discriminate | reflexivity].
    - apply Nat.ltb_lt in Hlen. rewrite Hlen.
      cbn. split; [discriminate | reflexivity]. }
  intros s Hs Hfar.
  assert (buildPoints (setStops (stops ctx ++ [s]) ctx)
          = visitStop (buildPoints ctx) s) as ->.
  { unfold buildPoints, originPoints. cbn [stops userLocation setStops].
    now rewrite fold_left_app. }
  unfold visitStop. rewrite Hs.
  destruct (lastPoint (buildPoints ctx)) as [p|]; [|reflexivity].
  now rewrite (Hfar p eq_refl).
Qed.

Lemma buildPoints_handleStart_witness :
  (buildPoints Sample.at_the_door
   = [(Js.Fin (-8052 # 100), Js.Fin (4346 # 100))]
   /\ error (stateOf (handleStart (Some "pk.token") Sample.idle
                        Sample.at_the_door))
      <> None
   /\ requests (handleStart (Some "pk.token") Sample.idle Sample.at_the_door)
      = [])
  /\ (buildPoints Sample.on_tour
      = [(Js.Fin (-805204 # 10000), Js.Fin (434643 # 10000));
         (Js.Fin (-8052 # 100), Js.Fin (4346 # 100));
         (Js.Fin (-8053 # 100), Js.Fin (4347 # 100))]
      /\ Spaced (buildPoints Sample.on_tour)).
Proof.
  split.
  - split; [vm_compute; reflexivity|].
    apply (proj1 (proj2 (proj2 (proj2 (proj2 (proj2 (proj2 (proj2
             (buildPoints_handleStart Sample.at_the_door))))))))).
    vm_compute. lia.
  - split; [vm_compute; reflexivity|].
    exact (proj1 (proj2 (proj2 (proj2 (proj2
             (buildPoints_handleStart Sample.on_tour)))))).
Defined.

End RoutePlanningPanelFacts.

(** ** The planner *)

Module PlannerFacts.

Import Planner Shape.

Local Open Scope Q_scope.

(** *** Lists with elements taken out *)

Lemma Kept_refl {A : Type} (l : list A) : Kept l l.
Proof. exists []. reflexivity. Qed.

Lemma Kept_nil {A : Type} (l : list A) : Kept [] l.
Proof. exists l. now rewrite app_nil_r. Qed.

Lemma Kept_perm {A : Type} (l' l : list A) : Permutation l l' -> Kept l' l.
Proof. intros Hp. exists []. exact Hp. Qed.

Lemma Kept_trans {A : Type} (l1 l2 l3 : list A) :
  Kept l1 l2 -> Kept l2 l3 -> Kept l1 l3.
Proof.
  intros [g1 H1] [g2 H2]. exists (g2 ++ g1).
  rewrite H2, H1. now rewrite app_assoc.
Qed.

Lemma Kept_tail {A : Type} (x : A) (rest l : list A) :
  Permutation l (x :: rest) -> Kept rest l.
Proof. intros Hp. exists [x]. exact Hp. Qed.

Create HintDb kept.
#[local] Hint Resolve Kept_refl Kept_nil Kept_tail Kept_perm : kept.

Lemma Kept_In {A : Type} (l' l : list A) (x : A) :
  Kept l' l -> In x l' -> In x l.
Proof.
  intros [gone Hp] Hin. apply (Permutation_in x (Permutation_sym Hp)).
  apply in_or_app. now right.
Qed.

Lemma Kept_length {A : Type} (l' l : list A) :
  Kept l' l -> (List.length l' <= List.length l)%nat.
Proof.
  intros [gone Hp]. rewrite (Permutation_length Hp), length_app. lia.
Qed.

Lemma filter_length_perm {A : Type} (p : A -> bool) (l l' : list A) :
  Permutation l l' ->
  List.length (filter p l) = List.length (filter p l').
Proof.
  intros Hp. induction Hp as [|x l l' _ IH|x y l|l l' l'' _ IH1 _ IH2]; cbn.
  - reflexivity.
  - destruct (p x); cbn; now rewrite IH.
  - destruct (p x), (p y); reflexivity.
  - now rewrite IH1.
Qed.

Lemma meal_count_Kept (l' l : list ActivityCandidate) :
  Kept l' l -> (meal_count l' <= meal_count l)%nat.
Proof.
  intros [gone Hp]. unfold meal_count.
  rewrite (filter_length_perm is_meal _ _ Hp), filter_app, length_app. lia.
Qed.

(** *** Costs *)

Lemma cost_of_cons (x : ActivityCandidate) (l : list ActivityCandidate) :
  cost_of (x :: l) = cost x + cost_of l.
Proof. reflexivity. Qed.

Lemma cost_of_nil : cost_of [] = 0.
Proof. reflexivity. Qed.

Lemma cost_of_app (a b : list ActivityCandidate) :
  cost_of (a ++ b) == cost_of a + cost_of b.
Proof.
  induction a as [|x a IH].
  - rewrite cost_of_nil. cbn [app]. lra.
  - rewrite <- app_comm_cons, !cost_of_cons, IH. lra.
Qed.

Lemma cost_of_perm (l l' : list ActivityCandidate) :
  Permutation l l' -> cost_of l == cost_of l'.
Proof.
  intros Hp.
  induction Hp as [|x l l' _ IH|x y l|l l' l'' _ IH1 _ IH2];
    rewrite ?cost_of_cons in *; lra.
Qed.

Lemma cost_of_nonneg (l : list ActivityCandidate) :
  (forall c, In c l -> 0 <= cost c) -> 0 <= cost_of l.
Proof.
  induction l as [|x l IH]; intros Hc.
  - rewrite cost_of_nil. lra.
  - rewrite cost_of_cons.
    assert (0 <= cost x) by (apply Hc; now left).
    assert (0 <= cost_of l) by (apply IH; intros c Hin; apply Hc; now right).
    lra.
Qed.

Lemma cost_of_Kept (l' l : list ActivityCandidate) :
  (forall c, In c l -> 0 <= cost c) ->
  Kept l' l -> cost_of l' <= cost_of l.
Proof.
  intros Hc [gone Hp].
  rewrite (cost_of_perm _ _ Hp), cost_of_app.
  assert (0 <= cost_of gone).
  { apply cost_of_nonneg. intros c Hin. apply Hc.
    apply (Permutation_in c (Permutation_sym Hp)), in_or_app. now left. }
  lra.
Qed.

Lemma cost_of_member (l : list ActivityCandidate) (c : ActivityCandidate) :
  (forall x, In x l -> 0 <= cost x) -> In c l -> cost c <= cost_of l.
Proof.
  intros Hc Hin. destruct (in_split _ _ Hin) as (l1 & l2 & ->).
  rewrite cost_of_app, cost_of_cons.
  assert (0 <= cost_of l1).
  { apply cost_of_nonneg. intros x Hx. apply Hc, in_or_app. now left. }
  assert (0 <= cost_of l2).
  { apply cost_of_nonneg. intros x Hx. apply Hc, in_or_app. right. now right. }
  lra.
Qed.

(** *** Sorting *)

Lemma insert_by_perm {A : Type} (le : A -> A -> bool) (x : A) (l : list A) :
  Permutation (x :: l) (insert_by le x l).
Proof.
  induction l as [|y r IH]; cbn; [reflexivity|].
  destruct (le x y); [reflexivity|].
  rewrite perm_swap. now constructor.
Qed.

Lemma sort_by_perm {A : Type} (le : A -> A -> bool) (l : list A) :
  Permutation l (sort_by le l).
Proof.
  induction l as [|x r IH]; cbn; [reflexivity|].
  rewrite <- insert_by_perm. now constructor.
Qed.

Section Stages.

Variable H : Heuristics.

(** *** The Constraint Filter *)

Lemma filtered_valid (req : PlanRequest) (pool : list ActivityCandidate)
    (c : ActivityCandidate) :
  In c (constraint_filter H req pool) ->
  In c pool /\ 0 <= cost c /\ 0 < duration_hours c.
Proof.
  unfold constraint_filter. intros Hin.
  apply filter_In in Hin as [Hin Hok]. split; [exact Hin|].
  apply andb_prop in Hok as [_ Hv]. unfold structurally_valid in Hv.
  do 4 (apply andb_prop in Hv as [Hv _]).
  apply andb_prop in Hv as [Hc Hd].
  apply Qle_bool_iff in Hc. apply Qltb_lt in Hd. auto.
Qed.

(** *** Taking the lowest-scoring item out *)

Lemma extract_worst_some (req : PlanRequest) (p : ActivityCandidate -> bool)
    (l : list ActivityCandidate) :
  forall x rest,
    extract_worst H req p l = Some (x, rest) ->
    p x = true /\ Permutation l (x :: rest).
Proof.
  induction l as [|c r IH]; intros x rest; cbn [extract_worst];
    [discriminate|].
  destruct (extract_worst H req p r) as [[d r']|] eqn:E.
  - destruct (p c && negb (better H req c d)) eqn:Ec; intros [= <- <-].
    + apply andb_prop in Ec as [Hp _]. split; [exact Hp | reflexivity].
    + destruct (IH d r' eq_refl) as [Hp Hperm]. split; [exact Hp|].
      rewrite Hperm. apply perm_swap.
  - destruct (p c) eqn:Epc; [|discriminate].
    intros [= <- <-]. split; [exact Epc | reflexivity].
Qed.

Lemma extract_worst_none (req : PlanRequest) (p : ActivityCandidate -> bool)
    (l : list ActivityCandidate) :
  extract_worst H req p l = None -> forall c, In c l -> p c = false.
Proof.
  induction l as [|c r IH]; cbn [extract_worst]; [intros _ x []|].
  destruct (extract_worst H req p r) as [[d r']|] eqn:E.
  - destruct (p c && negb (better H req c d)); discriminate.
  - destruct (p c) eqn:Epc; [discriminate|].
    intros _ x [<-|Hin]; [exact Epc | now apply IH].
Qed.

Lemma drop_worst_Kept (req : PlanRequest) (p : ActivityCandidate -> bool)
    (l : list ActivityCandidate) :
  Kept (drop_worst H req p l) l.
Proof.
  unfold drop_worst.
  destruct (extract_worst H req p l) as [[x rest]|] eqn:E;
    [apply extract_worst_some in E as [_ Hperm] |]; eauto with kept.
Qed.

Lemma filter_none {A : Type} (p : A -> bool) (l : list A) :
  (forall x, In x l -> p x = false) -> filter p l = [].
Proof.
  induction l as [|x r IH]; intros Hp; cbn; [reflexivity|].
  rewrite (Hp x (or_introl eq_refl)). apply IH.
  intros y Hy. apply Hp. now right.
Qed.

(** *** The meal cap *)

Lemma drop_worst_meal_count (req : PlanRequest) (l : list ActivityCandidate) :
  meal_count (drop_worst H req is_meal l) = pred (meal_count l).
Proof.
  unfold drop_worst.
  destruct (extract_worst H req is_meal l) as [[x rest]|] eqn:E.
  - apply extract_worst_some in E as [Hm Hperm]. unfold meal_count.
    rewrite (filter_length_perm is_meal _ _ Hperm). cbn [filter].
    now rewrite Hm.
  - unfold meal_count.
    now rewrite (filter_none _ _ (extract_worst_none _ _ _ E)).
Qed.

Lemma iter_drop_meal_count (req : PlanRequest) (n : nat)
    (l : list ActivityCandidate) :
  meal_count (Nat.iter n (drop_worst H req is_meal) l)
  = (meal_count l - n)%nat.
Proof.
  induction n as [|n IH].
  - change (meal_count l = (meal_count l - 0)%nat). lia.
  - rewrite Nat.iter_succ, drop_worst_meal_count, IH. lia.
Qed.

Lemma iter_drop_Kept (req : PlanRequest) (p : ActivityCandidate -> bool)
    (n : nat) (l : list ActivityCandidate) :
  Kept (Nat.iter n (drop_worst H req p) l) l.
Proof.
  induction n as [|n IH]; [apply Kept_refl|].
  rewrite Nat.iter_succ.
  exact (Kept_trans _ _ _ (drop_worst_Kept _ _ _) IH).
Qed.

Lemma enforce_meal_cap_count (req : PlanRequest) (l : list ActivityCandidate) :
  (meal_count (enforce_meal_cap H req l) <= meal_cap req)%nat.
Proof. unfold enforce_meal_cap. rewrite iter_drop_meal_count. lia. Qed.

Lemma enforce_meal_cap_Kept (req : PlanRequest) (l : list ActivityCandidate) :
  Kept (enforce_meal_cap H req l) l.
Proof. apply iter_drop_Kept. Qed.

Lemma enforce_meal_cap_idle (req : PlanRequest) (l : list ActivityCandidate) :
  (meal_count l <= meal_cap req)%nat -> enforce_meal_cap H req l = l.
Proof.
  intros Hle. unfold enforce_meal_cap.
  replace (meal_count l - meal_cap req)%nat with 0%nat by lia. reflexivity.
Qed.

(** *** The Category Coverage Selector *)

Lemma best_In (req : PlanRequest) (l : list ActivityCandidate) :
  forall c, best H req l = Some c -> In c l.
Proof.
  induction l as [|x r IH]; intros c; cbn [best]; [discriminate|].
  destruct (best H req r) as [d|].
  - destruct (better H req x d); intros [= <-]; [now left|].
    right. now apply IH.
  - intros [= <-]. now left.
Qed.

Lemma best_nonempty (req : PlanRequest) (l : list ActivityCandidate) :
  l <> [] -> exists c, best H req l = Some c.
Proof.
  destruct l as [|x r]; [congruence|]. intros _. cbn [best].
  destruct (best H req r) as [d|]; [|now exists x].
  destruct (better H req x d); eauto.
Qed.

Lemma of_category_In (k : Category) (l : list ActivityCandidate)
    (c : ActivityCandidate) :
  In c (of_category k l) <-> In c l /\ category c = k.
Proof.
  unfold of_category, category_eqb. rewrite filter_In.
  destruct (Category_eq_dec (category c) k); intuition congruence.
Qed.

Lemma coverage_selector_In (req : PlanRequest)
    (filtered : list ActivityCandidate) (c : ActivityCandidate) :
  In c (coverage_selector H req filtered) ->
  In c filtered /\ In (category c) (normalize_interests (interests req)).
Proof.
  unfold coverage_selector. intros Hin.
  apply in_flat_map in Hin as (k & Hk & Hc).
  destruct (best H req (of_category k filtered)) as [d|] eqn:E; [|destruct Hc].
  destruct Hc as [<-|[]].
  apply best_In, of_category_In in E as [Hin <-]. auto.
Qed.

(** *** The Budget-Constrained Selector *)

Lemma filter_all {A : Type} (p : A -> bool) (l : list A) :
  (forall x, In x l -> p x = true) -> filter p l = l.
Proof.
  induction l as [|x r IH]; intros Hp; cbn; [reflexivity|].
  rewrite (Hp x (or_introl eq_refl)). f_equal. apply IH.
  intros y Hy. apply Hp. now right.
Qed.

Lemma fits_single (b : Q) (c : ActivityCandidate) :
  fits b [c] = affordable b c.
Proof.
  unfold fits, affordable. rewrite cost_of_cons, cost_of_nil.
  destruct (Qle_bool (cost c) b) eqn:E.
  - apply Qle_bool_iff in E. apply Qle_bool_iff. lra.
  - apply Qle_bool_false in E. apply Qle_bool_false. lra.
Qed.

(** While the set is over budget and holds an item that fits on its own,
    some item may go. *)
Lemma droppable_exists (b : Q) (l : list ActivityCandidate) :
  fits b l = false ->
  (exists f, In f l /\ affordable b f = true) ->
  exists x, In x l /\ droppable b l x = true.
Proof.
  intros Hover (f & Hf & Haf).
  destruct (existsb (fun c => negb (affordable b c)) l) eqn:E.
  - apply existsb_exists in E as (x & Hx & Hn).
    exists x. split; [exact Hx|]. unfold droppable. now rewrite Hn.
  - assert (forall x, In x l -> affordable b x = true) as Hall.
    { intros x Hx. destruct (affordable b x) eqn:Ex; [reflexivity|].
      assert (existsb (fun c => negb (affordable b c)) l = true) as Habs.
      { apply existsb_exists. exists x. now rewrite Ex. }
      congruence. }
    exists f. split; [exact Hf|]. unfold droppable.
    rewrite (filter_all _ _ Hall), Haf. cbn [negb orb].
    destruct l as [|x [|y r]]; [destruct Hf | | reflexivity].
    destruct Hf as [->|[]]. rewrite fits_single in Hover. congruence.
Qed.

Lemma drop_keeps_affordable (b : Q) (l rest : list ActivityCandidate)
    (x : ActivityCandidate) :
  droppable b l x = true ->
  Permutation l (x :: rest) ->
  (exists f, In f l /\ affordable b f = true) ->
  exists f, In f rest /\ affordable b f = true.
Proof.
  intros Hd Hperm (f & Hf & Haf). unfold droppable in Hd.
  destruct (affordable b x) eqn:Ex.
  - cbn [negb orb] in Hd. apply Nat.leb_le in Hd.
    rewrite (filter_length_perm _ _ _ Hperm) in Hd. cbn [filter] in Hd.
    rewrite Ex in Hd. cbn [List.length] in Hd.
    destruct (filter (affordable b) rest) as [|g r] eqn:Ef;
      [cbn in Hd; lia|].
    assert (In g (filter (affordable b) rest)) as Hg by (rewrite Ef; now left).
    apply filter_In in Hg. now exists g.
  - apply (Permutation_in f Hperm) in Hf. destruct Hf as [->|Hf];
      [congruence|]. now exists f.
Qed.

Lemma budget_drop_Kept (req : PlanRequest)
    (filtered : list ActivityCandidate) (b : Q) (l : list ActivityCandidate) :
  Kept (budget_drop H req filtered b l) l.
Proof.
  unfold budget_drop.
  destruct (extract_worst H req _ l) as [[x rest]|] eqn:E.
  - apply extract_worst_some in E as [_ Hperm]. exact (Kept_tail _ _ _ Hperm).
  - apply drop_worst_Kept.
Qed.

Lemma budget_drop_step (req : PlanRequest)
    (filtered : list ActivityCandidate) (b : Q) (l : list ActivityCandidate) :
  fits b l = false ->
  (exists f, In f l /\ affordable b f = true) ->
  exists x,
    Permutation l (x :: budget_drop H req filtered b l)
    /\ droppable b l x = true.
Proof.
  intros Hover Hex. unfold budget_drop.
  destruct (extract_worst H req
              (fun c => droppable b l c && negb (shielded filtered l c)) l)
    as [[x rest]|] eqn:E.
  - apply extract_worst_some in E as [Hp Hperm].
    apply andb_prop in Hp as [Hd _]. now exists x.
  - unfold drop_worst.
    destruct (extract_worst H req (droppable b l) l) as [[x rest]|] eqn:E2.
    + apply extract_worst_some in E2 as [Hd Hperm]. now exists x.
    + destruct (droppable_exists b l Hover Hex) as (x & Hx & Hd).
      rewrite (extract_worst_none _ _ _ E2 x Hx) in Hd. discriminate.
Qed.

Lemma trim_to_budget_Kept (req : PlanRequest)
    (filtered : list ActivityCandidate) (b : Q) (fuel : nat) :
  forall l, Kept (trim_to_budget H fuel req filtered b l) l.
Proof.
  induction fuel as [|n IH]; intros l; cbn [trim_to_budget];
    [auto with kept|].
  destruct (fits b l); [auto with kept|].
  exact (Kept_trans _ _ _ (IH _) (budget_drop_Kept _ _ _ _)).
Qed.

(** With as much fuel as there are items the loop ends within budget. *)
Lemma trim_to_budget_fits (req : PlanRequest)
    (filtered : list ActivityCandidate) (b : Q) (fuel : nat) :
  forall l,
    (List.length l <= fuel)%nat ->
    (exists f, In f l /\ affordable b f = true) ->
    fits b (trim_to_budget H fuel req filtered b l) = true.
Proof.
  induction fuel as [|n IH]; intros l Hlen Hex; cbn [trim_to_budget].
  - destruct l as [|x r]; [|cbn in Hlen; lia].
    destruct Hex as (f & [] & _).
  - destruct (fits b l) eqn:Hfit; [exact Hfit|].
    destruct (budget_drop_step req filtered b l Hfit Hex) as (x & Hperm & Hd).
    apply IH.
    + apply Permutation_length in Hperm. cbn in Hperm. lia.
    + exact (drop_keeps_affordable _ _ _ _ Hd Hperm Hex).
Qed.

Lemma swap_to_fit_In (req : PlanRequest)
    (filtered : list ActivityCandidate) (b : Q) (l : list ActivityCandidate)
    (c : ActivityCandidate) :
  In c (swap_to_fit H req filtered b l) ->
  affordable b c = true /\ (In c l \/ In c filtered).
Proof.
  unfold swap_to_fit. intros Hin.
  apply in_flat_map in Hin as (x & Hx & Hc).
  destruct (affordable b x) eqn:Ex.
  - destruct Hc as [<-|[]]. auto.
  - destruct (best H req _) as [d|] eqn:Ed; [|destruct Hc].
    destruct Hc as [<-|[]].
    apply best_In, filter_In in Ed as [Hd Ha].
    apply of_category_In in Hd. tauto.
Qed.

Lemma swap_to_fit_meal_count (req : PlanRequest)
    (filtered : list ActivityCandidate) (b : Q) (l : list ActivityCandidate) :
  (meal_count (swap_to_fit H req filtered b l) <= meal_count l)%nat.
Proof.
  unfold swap_to_fit, meal_count.
  induction l as [|x r IH]; cbn [flat_map]; [cbn; lia|].
  rewrite filter_app, length_app.
  assert (List.length
            (filter is_meal
               (if affordable b x then [x]
                else match best H req (filter (affordable b)
                                         (of_category (category x) filtered))
                     with
                     | Some d => [d]
                     | None => []
                     end))
          <= List.length (filter is_meal [x]))%nat as Hx.
  { destruct (affordable b x); [lia|].
    destruct (best H req _) as [d|] eqn:Ed; [|cbn; lia].
    apply best_In, filter_In in Ed as [Hd _].
    apply of_category_In in Hd as [_ Hd].
    cbn [filter]. unfold is_meal. rewrite Hd.
    destruct (category_eqb (category x) meals); cbn; lia. }
  cbn [filter] in Hx |- *.
  destruct (is_meal x); cbn [List.length] in Hx |- *; lia.
Qed.

(** What the budget stage hands on: candidates of the set or of the
    filtered pool, no more meals than before, within the budget. *)
Lemma budget_selector_fitted (req : PlanRequest)
    (filtered l l' : list ActivityCandidate) :
  budget_selector H req filtered l = Fitted l' ->
  (forall c, In c l' -> In c l \/ In c filtered)
  /\ (meal_count l' <= meal_count l)%nat
  /\ (forall b, budget req = Some b -> fits b l' = true).
Proof.
  unfold budget_selector.
  destruct (budget req) as [b|].
  - destruct (priced_out b filtered); [discriminate|].
    destruct (fits b l) eqn:Hfit.
    + intros [= <-]. split; [auto|]. split; [lia|]. now intros b' [= <-].
    + destruct (swap_to_fit H req filtered b l) as [|x r] eqn:Es;
        [discriminate|].
      intros E.
      assert (l' = trim_to_budget H
                     (List.length (swap_to_fit H req filtered b l)) req
                     filtered b (swap_to_fit H req filtered b l)) as ->
        by (rewrite Es; congruence).
      pose proof (trim_to_budget_Kept req filtered b
                    (List.length (swap_to_fit H req filtered b l))
                    (swap_to_fit H req filtered b l)) as Hk.
      split; [|split].
      * intros c Hc. apply (Kept_In _ _ _ Hk) in Hc.
        apply swap_to_fit_In in Hc. tauto.
      * pose proof (meal_count_Kept _ _ Hk).
        pose proof (swap_to_fit_meal_count req filtered b l). lia.
      * intros b' [= <-]. apply trim_to_budget_fits; [lia|].
        exists x. split; [rewrite Es; now left|].
        apply (swap_to_fit_In req filtered b l). rewrite Es. now left.
  - intros [= <-]. split; [auto|]. split; [lia | discriminate].
Qed.

(** *** The Novelty Guarantee *)

Lemma swap_in_In (req : PlanRequest) (u c : ActivityCandidate)
    (l : list ActivityCandidate) :
  In c (swap_in H req u l) -> c = u \/ In c l.
Proof.
  unfold swap_in.
  destruct (extract_worst H req _ l) as [[x rest]|] eqn:E.
  - apply extract_worst_some in E as [_ Hperm].
    intros [<-|Hin]; [now left|]. right.
    apply (Permutation_in c (Permutation_sym Hperm)). now right.
  - intros [<-|Hin]; auto.
Qed.

Lemma first_admissible_some (req : PlanRequest) (us l l' : list ActivityCandidate) :
  first_admissible H req us l = Some l' ->
  hard_ok req l' = true /\ exists u, In u us /\ l' = swap_in H req u l.
Proof.
  induction us as [|u r IH]; cbn [first_admissible]; [discriminate|].
  destruct (hard_ok req (swap_in H req u l)) eqn:Hok.
  - intros [= <-]. split; [exact Hok|]. exists u. split; [now left | reflexivity].
  - intros E. destruct (IH E) as (Hok' & u' & Hu' & ->).
    split; [exact Hok'|]. exists u'. split; [now right | reflexivity].
Qed.

Lemma novelty_guarantee_cases (req : PlanRequest)
    (filtered l : list ActivityCandidate) :
  novelty_guarantee H req filtered l = l
  \/ (hard_ok req (novelty_guarantee H req filtered l) = true
      /\ forall c, In c (novelty_guarantee H req filtered l) ->
                   In c filtered \/ In c l).
Proof.
  unfold novelty_guarantee.
  destruct (existsb unvisited filtered && negb (existsb unvisited l));
    [|now left].
  destruct (first_admissible H req _ l) as [l'|] eqn:E; [|now left].
  right. apply first_admissible_some in E as (Hok & u & Hu & ->).
  split; [exact Hok|]. intros c Hc.
  apply swap_in_In in Hc as [->|Hc]; [left | now right].
  apply (Permutation_in u (Permutation_sym (sort_by_perm _ _))) in Hu.
  now apply filter_In in Hu.
Qed.

(** *** The Sequencer *)

Lemma assign_fst (l : list ActivityCandidate) :
  forall t, map fst (assign t l) = l.
Proof.
  induction l as [|c r IH]; intros t; cbn [assign map fst];
    [reflexivity|]. now rewrite IH.
Qed.

Lemma schedule_fst (req : PlanRequest) (l : list ActivityCandidate) :
  map fst (schedule req l) = l.
Proof.
  destruct l as [|c r]; cbn [schedule map fst]; [reflexivity|].
  now rewrite assign_fst.
Qed.

Lemma assign_chained (l : list ActivityCandidate) :
  forall t, chained t (assign t l).
Proof.
  induction l as [|c r IH]; intros t; cbn [assign chained]; [exact I|].
  split; [|apply IH].
  destruct (open_interval c) as [[opens closes]|];
    [apply Q.le_max_l | apply Qle_refl].
Qed.

Lemma schedule_chained (req : PlanRequest) (l : list ActivityCandidate) :
  chained (start_time req) (schedule req l).
Proof.
  destruct l as [|c r]; cbn [schedule chained]; [exact I|].
  split; [apply Qle_refl | apply assign_chained].
Qed.

Lemma last_end_ge (sched : list (ActivityCandidate * Q)) :
  (forall p, In p sched -> 0 <= duration_hours (fst p)) ->
  forall t, chained t sched -> t <= last_end t sched.
Proof.
  induction sched as [|[c s] r IH]; intros Hd t Hc; cbn [last_end];
    [apply Qle_refl|].
  destruct Hc as [Hts Hc].
  assert (0 <= duration_hours c) by (apply (Hd (c, s)); now left).
  assert (s + duration_hours c <= last_end (s + duration_hours c) r).
  { apply IH; [|exact Hc]. intros p Hp. apply Hd. now right. }
  lra.
Qed.

(** Every span lies between the lower bound and the end of the last one. *)
Lemma chained_bounds (sched : list (ActivityCandidate * Q)) :
  (forall p, In p sched -> 0 <= duration_hours (fst p)) ->
  forall t, chained t sched ->
  forall p, In p sched ->
    t <= snd p /\ snd p + duration_hours (fst p) <= last_end t sched.
Proof.
  induction sched as [|[c s] r IH]; intros Hd t Hc p Hp; [destruct Hp|].
  destruct Hc as [Hts Hc]. cbn [last_end].
  assert (0 <= duration_hours c) by (apply (Hd (c, s)); now left).
  assert (forall q, In q r -> 0 <= duration_hours (fst q)) as Hd'
    by (intros q Hq; apply Hd; now right).
  destruct Hp as [<-|Hp]; cbn [fst snd].
  - split; [exact Hts|]. now apply last_end_ge.
  - destruct (IH Hd' _ Hc p Hp) as [Hlo Hhi]. split; [lra | exact Hhi].
Qed.

(** A span ends before any later span starts. *)
Lemma chained_pairwise (sched : list (ActivityCandidate * Q)) :
  (forall p, In p sched -> 0 <= duration_hours (fst p)) ->
  forall t, chained t sched ->
  forall i j a b,
    (i < j)%nat ->
    nth_error sched i = Some a -> nth_error sched j = Some b ->
    snd a + duration_hours (fst a) <= snd b.
Proof.
  induction sched as [|[c s] r IH]; intros Hd t Hc i j a b Hij Ha Hb.
  - destruct i; discriminate.
  - destruct Hc as [Hts Hc].
    assert (forall q, In q r -> 0 <= duration_hours (fst q)) as Hd'
      by (intros q Hq; apply Hd; now right).
    destruct j as [|j]; [lia|]. cbn [nth_error] in Hb.
    destruct i as [|i]; cbn [nth_error] in Ha.
    + injection Ha as <-. cbn [fst snd].
      apply nth_error_In in Hb.
      now destruct (chained_bounds r Hd' _ Hc b Hb).
    + apply (IH Hd' _ Hc i j a b); [lia | exact Ha | exact Hb].
Qed.

Lemma sequence_from_nil (req : PlanRequest) (fuel : nat) :
  sequence_from H fuel req [] = [].
Proof.
  induction fuel as [|n IH]; cbn [sequence_from sort_by schedule];
    [reflexivity|].
  destruct (Qle_bool _ _); [reflexivity | exact IH].
Qed.

Lemma drop_worst_any_length (req : PlanRequest) (l : list ActivityCandidate) :
  List.length (drop_worst H req (fun _ => true) l) = pred (List.length l).
Proof.
  unfold drop_worst.
  destruct (extract_worst H req (fun _ => true) l) as [[x rest]|] eqn:E.
  - apply extract_worst_some in E as [_ Hperm].
    now rewrite (Permutation_length Hperm).
  - destruct l as [|c r]; [reflexivity|].
    now pose proof (extract_worst_none _ _ _ E c (or_introl eq_refl)).
Qed.

(** Fuel beyond the number of items changes nothing: the loop of the
    Sequencer ends by itself. *)
Lemma sequence_from_enough (req : PlanRequest) (fuel : nat) :
  forall l,
    (List.length l < fuel)%nat ->
    sequence_from H fuel req l = sequence_from H (S fuel) req l.
Proof.
  induction fuel as [|n IH]; intros l Hlen; [lia|].
  destruct l as [|c r]; [now rewrite !sequence_from_nil|].
  remember (c :: r) as l eqn:El.
  change (sequence_from H (S n) req l)
    with (let sched := schedule req (sort_by (precedes H req) l) in
          if Qle_bool (last_end (start_time req) sched) (end_time req)
          then sched
          else sequence_from H n req (drop_worst H req (fun _ => true) l)).
  change (sequence_from H (S (S n)) req l)
    with (let sched := schedule req (sort_by (precedes H req) l) in
          if Qle_bool (last_end (start_time req) sched) (end_time req)
          then sched
          else sequence_from H (S n) req (drop_worst H req (fun _ => true) l)).
  cbv zeta. destruct (Qle_bool _ _); [reflexivity|].
  apply IH. rewrite drop_worst_any_length. subst l. cbn in *. lia.
Qed.

(** What the Sequencer returns is the schedule of a sorted subset, and
    that schedule ends within the window unless nothing is left. *)
Lemma sequence_from_shape (req : PlanRequest) (fuel : nat) :
  forall l,
    exists l',
      Kept l' l
      /\ sequence_from H fuel req l
         = schedule req (sort_by (precedes H req) l')
      /\ (l' = []
          \/ last_end (start_time req)
               (schedule req (sort_by (precedes H req) l'))
             <= end_time req).
Proof.
  induction fuel as [|n IH]; intros l; cbn [sequence_from].
  - exists []. split; [apply Kept_nil|]. split; [reflexivity | now left].
  - destruct (Qle_bool _ _) eqn:E.
    + exists l. split; [apply Kept_refl|]. split; [reflexivity|].
      right. now apply Qle_bool_iff.
    + destruct (IH (drop_worst H req (fun _ => true) l)) as (l' & Hk & He & Hf).
      exists l'. split; [|now split].
      exact (Kept_trans _ _ _ Hk (drop_worst_Kept _ _ _)).
Qed.

(** *** Items *)

Lemma items_nth (sched : list (ActivityCandidate * Q)) (i : nat)
    (a : ItineraryItem) :
  nth_error (map_indexed item_of 0 sched) i = Some a ->
  exists p, nth_error sched i = Some p /\ a = item_of p i.
Proof.
  intros Ha.
  assert (i < List.length sched)%nat as Hi.
  { rewrite <- (map_indexed_length item_of sched 0).
    apply nth_error_Some. congruence. }
  destruct (nth_error sched i) as [p|] eqn:Ep;
    [|apply nth_error_None in Ep; lia].
  exists p. split; [reflexivity|].
  rewrite (map_indexed_nth item_of sched 0 i p Ep) in Ha. now injection Ha.
Qed.

Lemma items_In (sched : list (ActivityCandidate * Q)) (a : ItineraryItem) :
  In a (map_indexed item_of 0 sched) ->
  exists p i, In p sched /\ a = item_of p i.
Proof.
  intros Hin. apply In_nth_error in Hin as [i Hi].
  apply items_nth in Hi as (p & Hp & ->).
  exists p, i. split; [exact (nth_error_In _ _ Hp) | reflexivity].
Qed.

Lemma items_costs (sched : list (ActivityCandidate * Q)) :
  forall k, sum_item_costs (map_indexed item_of k sched)
            = cost_of (map fst sched).
Proof.
  induction sched as [|p r IH]; intros k; [reflexivity|].
  cbn [map_indexed map]. rewrite cost_of_cons, <- (IH (S k)). reflexivity.
Qed.

Lemma items_meals (sched : list (ActivityCandidate * Q)) :
  forall k, meal_items (map_indexed item_of k sched)
            = meal_count (map fst sched).
Proof.
  unfold meal_items, meal_count.
  induction sched as [|p r IH]; intros k; [reflexivity|].
  cbn [map_indexed map filter item_of item_category]. unfold is_meal at 1.
  destruct (category_eqb (category (fst p)) meals); cbn [List.length];
    now rewrite IH.
Qed.

(** *** The pipeline *)

(** The two ways a request ends in an itinerary: the budget admits
    nothing, or the Sequencer runs on a set drawn from the filtered pool
    that respects the meal cap and the budget. *)
Lemma plan_success (req : PlanRequest) (pool : list ActivityCandidate)
    (it : Itinerary) :
  plan H req pool = Success it ->
  validate req = true
  /\ (it = infeasible (List.length (constraint_filter H req pool))
      \/ exists final,
           it = build (List.length (constraint_filter H req pool))
                      (List.length
                         (coverage_selector H req
                            (constraint_filter H req pool)))
                      (constraint_filter H req pool)
                      (sequencer H req final)
           /\ (forall c, In c final -> In c (constraint_filter H req pool))
           /\ (meal_count final <= meal_cap req)%nat
           /\ (forall b, budget req = Some b -> fits b final = true)).
Proof.
  unfold plan. destruct (validate req); cbn [negb]; [|discriminate].
  set (filtered := constraint_filter H req pool).
  set (selected := coverage_selector H req filtered).
  set (capped := enforce_meal_cap H req selected).
  destruct (budget_selector H req filtered capped) as [budgeted|] eqn:Eb;
    intros [= <-]; (split; [reflexivity|]); [|now left].
  right. exists (novelty_guarantee H req filtered budgeted).
  split; [reflexivity|].
  apply budget_selector_fitted in Eb as (Hfrom & Hcount & Hfit).
  assert (forall c, In c budgeted -> In c filtered) as Hsub.
  { intros c Hc. destruct (Hfrom c Hc) as [Hl | Hf]; [|exact Hf].
    apply (Kept_In _ _ _ (enforce_meal_cap_Kept req selected)) in Hl.
    now apply coverage_selector_In in Hl. }
  assert (meal_count budgeted <= meal_cap req)%nat as Hmeals.
  { pose proof (enforce_meal_cap_count req selected) as Hcap.
    fold capped in Hcap. lia. }
  destruct (novelty_guarantee_cases req filtered budgeted) as [-> | [Hok Hin]].
  - auto.
  - unfold hard_ok in Hok. apply andb_prop in Hok as [Hm Hb].
    apply Nat.leb_le in Hm. repeat split.
    + intros c Hc. destruct (Hin c Hc); auto.
    + exact Hm.
    + intros b Eq. now rewrite Eq in Hb.
Qed.

Lemma plan_total (req : PlanRequest) (pool : list ActivityCandidate) :
  validate req = true -> exists it, plan H req pool = Success it.
Proof.
  intros Hv. unfold plan. rewrite Hv. cbn [negb].
  destruct (budget_selector H req _ _); eauto.
Qed.

(** *** The claims about every itinerary *)

(** C1. For a valid request the planner returns an itinerary whose items
    do not overlap pairwise and whose spans
    [assigned_start_time, assigned_start_time + duration_hours) lie within
    the window from [start_time] to [end_time]. *)
Theorem schedule_within_window (req : PlanRequest)
    (pool : list ActivityCandidate) :
  validate req = true ->
  exists it,
    plan H req pool = Success it
    /\ (forall i j a b,
           i <> j ->
           nth_error (items it) i = Some a ->
           nth_error (items it) j = Some b ->
           ~ overlap a b)
    /\ (forall a,
           In a (items it) ->
           start_time req <= assigned_start_time a
           /\ item_end a <= end_time req).
Proof.
  intros Hv. destruct (plan_total req pool Hv) as [it Hplan].
  exists it. split; [exact Hplan|].
  destruct (plan_success req pool it Hplan) as [_ [-> | (final & -> & Hin & _)]].
  { split; [intros i j a b _ Ha | intros a []]. destruct i; discriminate. }
  cbn [items build]. unfold sequencer.
  destruct (sequence_from_shape req (S (List.length final)) final)
    as (l' & Hk & -> & Hend).
  set (sched := schedule req (sort_by (precedes H req) l')) in *.
  assert (forall p, In p sched -> 0 <= duration_hours (fst p)) as Hd.
  { intros p Hp. apply (in_map fst) in Hp. unfold sched in Hp.
    rewrite schedule_fst in Hp.
    apply (Permutation_in _ (Permutation_sym (sort_by_perm _ _))) in Hp.
    apply (Kept_In _ _ _ Hk), Hin, filtered_valid in Hp. lra. }
  pose proof (schedule_chained req (sort_by (precedes H req) l')) as Hc.
  fold sched in Hc.
  split.
  - intros i j a b Hij Ha Hb [Hab Hba].
    apply items_nth in Ha as (pa & Hpa & ->).
    apply items_nth in Hb as (pb & Hpb & ->).
    unfold item_end in Hab, Hba. cbn in Hab, Hba.
    destruct (Nat.lt_total i j) as [Hlt | [Heq | Hgt]]; [|lia|].
    + pose proof (chained_pairwise sched Hd _ Hc i j pa pb Hlt Hpa Hpb). lra.
    + pose proof (chained_pairwise sched Hd _ Hc j i pb pa Hgt Hpb Hpa). lra.
  - intros a Ha. apply items_In in Ha as (p & i & Hp & ->).
    unfold item_end. cbn.
    destruct (chained_bounds sched Hd _ Hc p Hp) as [Hlo Hhi].
    split; [exact Hlo|].
    destruct Hend as [-> | Hend]; [destruct Hp | lra].
Qed.

(** C2. When the request sets a budget, the total cost of the returned
    itinerary, which is the sum of the costs of its items, does not
    exceed it. *)
Theorem total_cost_within_budget (req : PlanRequest)
    (pool : list ActivityCandidate) (it : Itinerary) (b : Q) :
  budget req = Some b ->
  plan H req pool = Success it ->
  total_cost it <= b /\ total_cost it = sum_item_costs (items it).
Proof.
  intros Hb Hplan.
  destruct (plan_success req pool it Hplan)
    as [Hv [-> | (final & -> & Hin & _ & Hfit)]].
  { split; [|reflexivity]. cbn.
    unfold validate in Hv. rewrite Hb in Hv.
    apply andb_prop in Hv as [_ Hv]. now apply Qle_bool_iff. }
  cbn [total_cost items build]. rewrite items_costs.
  split; [|reflexivity].
  unfold sequencer.
  destruct (sequence_from_shape req (S (List.length final)) final)
    as (l' & Hk & -> & _).
  rewrite schedule_fst.
  specialize (Hfit b Hb). apply Qle_bool_iff in Hfit.
  assert (forall c, In c final -> 0 <= cost c) as Hc.
  { intros c Hcin. apply Hin, filtered_valid in Hcin. tauto. }
  pose proof (cost_of_Kept _ _ Hc Hk) as Hle.
  rewrite <- (cost_of_perm _ _ (sort_by_perm (precedes H req) l')). lra.
Qed.

(** C3. The number of meals items in the returned itinerary is at most 3
    when the window is longer than 6 hours and at most 2 otherwise. *)
Theorem meals_within_cap (req : PlanRequest)
    (pool : list ActivityCandidate) (it : Itinerary) :
  plan H req pool = Success it ->
  (meal_items (items it) <= meal_cap req)%nat
  /\ (6 < end_time req - start_time req -> (meal_items (items it) <= 3)%nat)
  /\ (~ 6 < end_time req - start_time req ->
      (meal_items (items it) <= 2)%nat).
Proof.
  intros Hplan.
  assert (meal_items (items it) <= meal_cap req)%nat as Hcap.
  { destruct (plan_success req pool it Hplan)
      as [_ [-> | (final & -> & _ & Hm & _)]].
    - cbn. lia.
    - cbn [items build]. rewrite items_meals. unfold sequencer.
      destruct (sequence_from_shape req (S (List.length final)) final)
        as (l' & Hk & -> & _).
      rewrite schedule_fst.
      pose proof (meal_count_Kept _ _
                    (Kept_trans _ _ _
                       (Kept_perm _ _ (sort_by_perm (precedes H req) l'))
                       Hk)).
      lia. }
  split; [exact Hcap|]. unfold meal_cap in Hcap.
  destruct (Qltb 6 (end_time req - start_time req)) eqn:E.
  - split; [intros _; exact Hcap|]. intros Hn.
    apply Qltb_lt in E. contradiction.
  - split; [intros Hlong | intros _; exact Hcap].
    apply Qltb_lt in Hlong. congruence.
Qed.

(** *** Degenerate requests *)

Lemma enforce_meal_cap_nonempty (req : PlanRequest)
    (l : list ActivityCandidate) :
  l <> [] -> enforce_meal_cap H req l <> [].
Proof.
  intros Hl.
  destruct (le_lt_dec (meal_count l) (meal_cap req)) as [Hle | Hgt].
  - now rewrite enforce_meal_cap_idle.
  - intros Habs.
    assert (meal_count (enforce_meal_cap H req l) = meal_cap req) as Hc.
    { unfold enforce_meal_cap. rewrite iter_drop_meal_count. lia. }
    rewrite Habs in Hc. unfold meal_cap in Hc.
    destruct (Qltb 6 _); discriminate.
Qed.

Lemma coverage_selector_nonempty (req : PlanRequest)
    (filtered : list ActivityCandidate) (c : ActivityCandidate) :
  In c filtered ->
  In (category c) (normalize_interests (interests req)) ->
  coverage_selector H req filtered <> [].
Proof.
  intros Hc Hk.
  destruct (best_nonempty req (of_category (category c) filtered)) as [d Hd].
  { intros Habs.
    assert (In c (of_category (category c) filtered)) as Hin
      by now apply of_category_In.
    now rewrite Habs in Hin. }
  intros Habs.
  assert (In d (coverage_selector H req filtered)) as Hin.
  { unfold coverage_selector. apply in_flat_map.
    exists (category c). split; [exact Hk|]. rewrite Hd. now left. }
  now rewrite Habs in Hin.
Qed.

Lemma priced_out_true (b : Q) (filtered : list ActivityCandidate) :
  filtered <> [] ->
  (forall c, In c filtered -> b < cost c) ->
  priced_out b filtered = true.
Proof.
  intros Hne Hprice. unfold priced_out.
  destruct (existsb (affordable b) filtered) eqn:Ex.
  - apply existsb_exists in Ex as (x & Hx & Hax).
    apply Qle_bool_iff in Hax. pose proof (Hprice x Hx). lra.
  - destruct filtered; [congruence | reflexivity].
Qed.

Lemma priced_out_false (b : Q) (filtered : list ActivityCandidate)
    (e : ActivityCandidate) :
  In e filtered -> cost e <= b -> priced_out b filtered = false.
Proof.
  intros He Hcost. unfold priced_out.
  assert (existsb (affordable b) filtered = true) as ->.
  { apply existsb_exists. exists e. split; [exact He|].
    now apply Qle_bool_iff. }
  now destruct filtered.
Qed.

(** A budget below every price of a filtered pool that has candidates
    admits nothing. *)
Lemma plan_budget_infeasible (req : PlanRequest)
    (pool : list ActivityCandidate) (b : Q) :
  validate req = true ->
  budget req = Some b ->
  constraint_filter H req pool <> [] ->
  (forall c, In c (constraint_filter H req pool) -> b < cost c) ->
  plan H req pool
  = Success (infeasible (List.length (constraint_filter H req pool))).
Proof.
  intros Hv Hb Hne Hprice. unfold plan. rewrite Hv. cbn [negb].
  unfold budget_selector. rewrite Hb.
  now rewrite (priced_out_true b _ Hne Hprice).
Qed.

Lemma coverage_selector_nil (req : PlanRequest) :
  coverage_selector H req [] = [].
Proof.
  unfold coverage_selector.
  induction (normalize_interests (interests req)) as [|k r IH];
    [reflexivity|].
  cbn [flat_map of_category filter best app]. exact IH.
Qed.

(** An empty filtered pool gives the empty itinerary of section 7,
    NoCandidatesFound. *)
Lemma plan_no_candidates (req : PlanRequest)
    (pool : list ActivityCandidate) :
  validate req = true ->
  constraint_filter H req pool = [] ->
  plan H req pool = Success (build 0 0 [] []).
Proof.
  intros Hv Hf. unfold plan. rewrite Hv, Hf. cbn [negb].
  rewrite coverage_selector_nil.
  assert (enforce_meal_cap H req [] = []) as -> by reflexivity.
  assert (budget_selector H req [] [] = Fitted []) as ->.
  { unfold budget_selector. destruct (budget req) as [b|] eqn:Eb;
      [|reflexivity].
    cbn [priced_out]. unfold validate in Hv. rewrite Eb in Hv.
    apply andb_prop in Hv as [_ Hv]. unfold fits. rewrite cost_of_nil.
    now rewrite Hv. }
  assert (novelty_guarantee H req [] [] = []) as -> by reflexivity.
  assert (sequencer H req [] = []) as ->.
  { unfold sequencer.
    cbn [List.length sequence_from sort_by schedule last_end].
    now destruct (Qle_bool _ _). }
  reflexivity.
Qed.

Lemma items_categories (sched : list (ActivityCandidate * Q)) :
  forall k, map item_category (map_indexed item_of k sched)
            = map category (map fst sched).
Proof.
  induction sched as [|p r IH]; intros k; [reflexivity|].
  cbn [map_indexed map]. now rewrite (IH (S k)).
Qed.

(** The items of an itinerary are candidates of the filtered pool. *)
Lemma plan_chosen (req : PlanRequest) (pool : list ActivityCandidate)
    (it : Itinerary) :
  plan H req pool = Success it ->
  exists chosen,
    (forall c, In c chosen -> In c (constraint_filter H req pool))
    /\ map item_category (items it) = map category chosen
    /\ interests_covered (metadata it)
       = nodup Category_eq_dec (map category chosen).
Proof.
  intros Hplan.
  destruct (plan_success req pool it Hplan)
    as [_ [-> | (final & -> & Hin & _ & _)]].
  { exists []. repeat split. intros c []. }
  exists (map fst (sequencer H req final)).
  split; [|split; [apply items_categories | reflexivity]].
  intros c Hc. unfold sequencer in Hc.
  destruct (sequence_from_shape req (S (List.length final)) final)
    as (l' & Hk & E & _).
  rewrite E, schedule_fst in Hc.
  apply (Permutation_in c (Permutation_sym (sort_by_perm _ _))) in Hc.
  apply Hin. exact (Kept_In _ _ _ Hk Hc).
Qed.

(** *** Interests *)

Lemma recognised_app (l1 l2 : list string) :
  recognised (l1 ++ l2) = recognised l1 ++ recognised l2.
Proof.
  induction l1 as [|s r IH]; cbn [app recognised]; [reflexivity|].
  destruct (category_of_string s); cbn [app]; now rewrite IH.
Qed.

Lemma recognised_In (l : list string) (k : Category) :
  In k (recognised l) <-> exists s, In s l /\ category_of_string s = Some k.
Proof.
  induction l as [|s r IH]; cbn [recognised].
  - split; [intros [] | intros (s & [] & _)].
  - destruct (category_of_string s) as [k'|] eqn:E; cbn [In]; rewrite ?IH.
    + split.
      * intros [<- | (s' & Hs' & E')]; [exists s | exists s']; cbn; auto.
      * intros (s' & [<- | Hs'] & E'); [left; congruence|].
        right. now exists s'.
    + split.
      * intros (s' & Hs' & E'). exists s'. cbn. auto.
      * intros (s' & [<- | Hs'] & E'); [congruence|]. now exists s'.
Qed.

Lemma normalize_keep (l : list string) :
  recognised l <> [] ->
  normalize_interests l = nodup Category_eq_dec (recognised l).
Proof.
  intros Hne. unfold normalize_interests.
  destruct (nodup Category_eq_dec (recognised l)) as [|k r] eqn:E;
    [|reflexivity].
  destruct (recognised l) as [|k r]; [congruence|].
  assert (In k (nodup Category_eq_dec (k :: r))) as Hin
    by (apply nodup_In; now left).
  now rewrite E in Hin.
Qed.

Lemma normalize_fallback (l : list string) :
  recognised l = [] -> normalize_interests l = [entertainment].
Proof. intros E. unfold normalize_interests. now rewrite E. Qed.

Lemma coverage_fallback (req : PlanRequest)
    (filtered : list ActivityCandidate) :
  recognised (interests req) = [] ->
  coverage_selector H req filtered
  = match best H req (of_category entertainment filtered) with
    | Some c => [c]
    | None => []
    end.
Proof.
  intros E. unfold coverage_selector.
  rewrite (normalize_fallback _ E). cbn [flat_map]. apply app_nil_r.
Qed.

(** With only the fallback interest, the one candidate the budget stage
    hands on is the itinerary when it fits the window and leaves the
    novelty stage nothing to do. *)
Lemma plan_of_single (req : PlanRequest) (pool : list ActivityCandidate)
    (e d : ActivityCandidate) :
  validate req = true ->
  recognised (interests req) = [] ->
  best H req (of_category entertainment (constraint_filter H req pool))
  = Some e ->
  budget_selector H req (constraint_filter H req pool) [e] = Fitted [d] ->
  category d = entertainment ->
  start_time req + duration_hours d <= end_time req ->
  visited d = false
  \/ existsb unvisited (constraint_filter H req pool) = false ->
  exists it,
    plan H req pool = Success it
    /\ items it = [item_of (d, start_time req) 0]
    /\ interests_covered (metadata it) = [entertainment].
Proof.
  intros Hv Hrec Hbest Hbudget Hcat Htime Hnov.
  assert (category e = entertainment) as Hcat_e.
  { apply best_In, of_category_In in Hbest. tauto. }
  unfold plan. rewrite Hv. cbn [negb].
  set (filtered := constraint_filter H req pool) in *.
  rewrite (coverage_fallback req filtered Hrec), Hbest.
  assert (meal_count [e] = 0%nat) as Hmeal.
  { unfold meal_count. cbn [filter]. unfold is_meal. now rewrite Hcat_e. }
  rewrite enforce_meal_cap_idle by (rewrite Hmeal; lia).
  rewrite Hbudget.
  assert (novelty_guarantee H req filtered [d] = [d]) as ->.
  { unfold novelty_guarantee.
    destruct Hnov as [Hu | Hu].
    - cbn [existsb]. unfold unvisited at 2. rewrite Hu. cbn.
      now rewrite andb_false_r.
    - now rewrite Hu. }
  assert (sequencer H req [d] = [(d, start_time req)]) as ->.
  { unfold sequencer.
    cbn [List.length sequence_from sort_by insert_by schedule assign last_end].
    now rewrite (proj2 (Qle_bool_iff _ _) Htime). }
  eexists. split; [reflexivity|].
  cbn [items build map_indexed metadata interests_covered map fst].
  split; [reflexivity|]. rewrite Hcat. reflexivity.
Qed.

(** The best entertainment candidate stays when it fits the budget. *)
Lemma budget_keeps_single (req : PlanRequest)
    (filtered : list ActivityCandidate) (e : ActivityCandidate) :
  In e filtered ->
  (forall b, budget req = Some b -> cost e <= b) ->
  budget_selector H req filtered [e] = Fitted [e].
Proof.
  intros He Hcost. unfold budget_selector.
  destruct (budget req) as [b|]; [|reflexivity].
  rewrite (priced_out_false b filtered e He (Hcost b eq_refl)).
  rewrite fits_single. unfold affordable.
  now rewrite (proj2 (Qle_bool_iff _ _) (Hcost b eq_refl)).
Qed.

(** When it does not, the best candidate of its category that fits the
    budget takes its place. *)
Lemma budget_swaps_single (req : PlanRequest)
    (filtered : list ActivityCandidate) (b : Q) (e x : ActivityCandidate) :
  budget req = Some b ->
  affordable b e = false ->
  In x (of_category (category e) filtered) ->
  cost x <= b ->
  exists d,
    budget_selector H req filtered [e] = Fitted [d]
    /\ In d (of_category (category e) filtered)
    /\ cost d <= b.
Proof.
  intros Hb He Hx Hcost.
  destruct (best_nonempty req (filter (affordable b)
                                 (of_category (category e) filtered)))
    as [d Hd].
  { intros Habs.
    assert (In x (filter (affordable b) (of_category (category e) filtered)))
      as Hin by (apply filter_In; split; [exact Hx | now apply Qle_bool_iff]).
    now rewrite Habs in Hin. }
  exists d.
  pose proof (best_In req _ d Hd) as Hin.
  apply filter_In in Hin as [Hin Hd_fits].
  split; [|split; [exact Hin | now apply Qle_bool_iff]].
  unfold budget_selector. rewrite Hb.
  apply of_category_In in Hx as [Hx _].
  rewrite (priced_out_false b filtered x Hx Hcost).
  rewrite fits_single, He.
  unfold swap_to_fit. cbn [flat_map]. rewrite He, Hd. cbn [app List.length].
  cbn [trim_to_budget]. now rewrite fits_single, Hd_fits.
Qed.

(** With only the fallback interest, an entertainment candidate that
    fits the budget and the window and leaves the novelty stage nothing
    to do is the itinerary. *)
Lemma plan_fallback (req : PlanRequest) (pool : list ActivityCandidate)
    (e : ActivityCandidate) :
  validate req = true ->
  recognised (interests req) = [] ->
  best H req (of_category entertainment (constraint_filter H req pool))
  = Some e ->
  (forall b, budget req = Some b -> cost e <= b) ->
  start_time req + duration_hours e <= end_time req ->
  visited e = false
  \/ existsb unvisited (constraint_filter H req pool) = false ->
  exists it,
    plan H req pool = Success it
    /\ items it = [item_of (e, start_time req) 0]
    /\ interests_covered (metadata it) = [entertainment].
Proof.
  intros Hv Hrec Hbest Hcost Htime Hnov.
  pose proof (best_In req _ e Hbest) as Hin.
  apply of_category_In in Hin as [Hin Hcat].
  apply (plan_of_single req pool e e Hv Hrec Hbest); auto.
  now apply budget_keeps_single.
Qed.

(** The same when some entertainment candidate fits the budget, each of
    them fits the window and none of them sets the novelty stage off. *)
Lemma plan_fallback_any (req : PlanRequest) (pool : list ActivityCandidate)
    (x : ActivityCandidate) :
  validate req = true ->
  recognised (interests req) = [] ->
  In x (of_category entertainment (constraint_filter H req pool)) ->
  (forall b, budget req = Some b -> cost x <= b) ->
  (forall c,
      In c (of_category entertainment (constraint_filter H req pool)) ->
      start_time req + duration_hours c <= end_time req) ->
  (forall c,
      In c (of_category entertainment (constraint_filter H req pool)) ->
      visited c = false)
  \/ existsb unvisited (constraint_filter H req pool) = false ->
  exists it d,
    plan H req pool = Success it
    /\ items it = [item_of (d, start_time req) 0]
    /\ category d = entertainment
    /\ interests_covered (metadata it) = [entertainment].
Proof.
  intros Hv Hrec Hx Hcost Htime Hnov.
  set (filtered := constraint_filter H req pool) in *.
  destruct (best_nonempty req (of_category entertainment filtered)) as [e He].
  { intros Habs. now rewrite Habs in Hx. }
  pose proof (best_In req _ e He) as Hin.
  pose proof (proj1 (of_category_In _ _ _) Hin) as [Hin_f Hcat].
  assert (forall d,
             In d (of_category entertainment filtered) ->
             budget_selector H req filtered [e] = Fitted [d] ->
             exists it d,
               plan H req pool = Success it
               /\ items it = [item_of (d, start_time req) 0]
               /\ category d = entertainment
               /\ interests_covered (metadata it) = [entertainment])
    as Hdone.
  { intros d Hd Hb.
    pose proof (proj1 (of_category_In _ _ _) Hd) as [_ Hcat_d].
    destruct (plan_of_single req pool e d Hv Hrec He Hb Hcat_d (Htime d Hd))
      as (it & Hplan & Hitems & Hcov).
    - destruct Hnov as [Hu | Hu]; [left; exact (Hu d Hd) | now right].
    - exists it, d. auto. }
  destruct (budget req) as [b|] eqn:Eb.
  - destruct (affordable b e) eqn:Ea.
    + apply (Hdone e Hin). apply budget_keeps_single; [exact Hin_f|].
      intros b' Hb'. rewrite Eb in Hb'. injection Hb' as <-.
      now apply Qle_bool_iff.
    + rewrite <- Hcat in Hx.
      destruct (budget_swaps_single req filtered b e x Eb Ea Hx
                  (Hcost b eq_refl)) as (d & Hb & Hd & _).
      rewrite Hcat in Hd. exact (Hdone d Hd Hb).
  - apply (Hdone e Hin). apply budget_keeps_single; [exact Hin_f|].
    intros b' Hb'. rewrite Eb in Hb'. discriminate.
Qed.

End Stages.

(** *** Witnesses of the claims about every itinerary *)

Lemma schedule_within_window_witness :
  exists it,
    plan PlannerSample.flat PlannerSample.day PlannerSample.city = Success it
    /\ (forall i j a b,
           i <> j ->
           nth_error (items it) i = Some a ->
           nth_error (items it) j = Some b ->
           ~ overlap a b)
    /\ (forall a,
           In a (items it) ->
           start_time PlannerSample.day <= assigned_start_time a
           /\ item_end a <= end_time PlannerSample.day).
Proof.
  apply (schedule_within_window PlannerSample.flat PlannerSample.day
           PlannerSample.city).
  reflexivity.
Defined.

Lemma total_cost_within_budget_witness :
  total_cost PlannerSample.day_itinerary <= 200
  /\ total_cost PlannerSample.day_itinerary
     = sum_item_costs (items PlannerSample.day_itinerary).
Proof.
  apply (total_cost_within_budget PlannerSample.flat PlannerSample.day
           PlannerSample.city PlannerSample.day_itinerary 200);
    reflexivity.
Defined.

Lemma meals_within_cap_witness :
  (meal_items (items PlannerSample.day_itinerary) <= 3)%nat.
Proof.
  refine (proj1 (proj2 (meals_within_cap PlannerSample.flat PlannerSample.day
                          PlannerSample.city PlannerSample.day_itinerary
                          eq_refl)) _).
  reflexivity.
Defined.

Example day_itinerary_items :
  map (fun i => (activity_id i, item_category i, sequence_index i))
      (items PlannerSample.day_itinerary)
  = [("a-cafe", meals, 0%nat); ("b-museum", entertainment, 1%nat);
     ("c-park", scenery, 2%nat)].
Proof. reflexivity. Qed.

(** *** Budget 0 and budgets that admit nothing *)

(** C5, as the claim has it, fails: the panel sends a budget of 0 as
    null, that is, as no budget; a planner request whose budget is set to
    0 still gets an itinerary when a candidate is free; with nothing in
    reach the summary of the empty itinerary is that of NoCandidatesFound,
    whatever the budget; and a request that is not valid is rejected, so
    that it gets no itinerary at all. *)
Lemma budget_zero_counterexample :
  FilterPanel.budget FilterPanel.initialFilters = Js.Fin 0
  /\ FilterPanel.d_budget
       (FilterPanel.sidequestData FilterPanel.initialFilters Sample.waterloo
          (Js.Fin 5))
     = None
  /\ budget PlannerSample.penniless = Some 0
  /\ (exists it,
         plan PlannerSample.flat PlannerSample.penniless PlannerSample.city
         = Success it
         /\ map activity_id (items it) = ["c-park"]
         /\ activities_in_itinerary (metadata it) = 1%nat
         /\ summary it <> BudgetInfeasible)
  /\ (exists it,
         plan PlannerSample.flat PlannerSample.penniless [] = Success it
         /\ items it = []
         /\ summary it = NoCandidatesFound)
  /\ budget PlannerSample.backwards = Some 0
  /\ plan PlannerSample.flat PlannerSample.backwards PlannerSample.city
     = InputInvalid.
Proof.
  repeat split.
  - eexists. split; [reflexivity|]. repeat split. discriminate.
  - eexists. split; [reflexivity|]. split; reflexivity.
Qed.

(** C5, amended. A valid request that reaches the planner with a budget
    below the cost of the cheapest candidate of the filtered pool -- a
    budget of 0 when no candidate is free -- gets an empty itinerary with
    [activities_in_itinerary = 0] and a summary of budget infeasibility.
    A budget below every price gives the empty itinerary also when the
    filtered pool is empty; the summary is then that of NoCandidatesFound.
    The panel sends a budget only when it is greater than 0: a budget of 0
    goes out as null, which leaves the request unconstrained. *)
Theorem budget_too_small_or_unset :
  (forall f location distanceNumber,
      Js.gtb (FilterPanel.budget f) Js.zero = false ->
      FilterPanel.d_budget (FilterPanel.sidequestData f location distanceNumber)
      = None
      /\ FilterPanel.b_budget
           (FilterPanel.stringify
              (FilterPanel.sidequestData f location distanceNumber))
         = None)
  /\ (forall f location distanceNumber,
         FilterPanel.budget f = Js.Fin 0 ->
         FilterPanel.d_budget
           (FilterPanel.sidequestData f location distanceNumber)
         = None
         /\ FilterPanel.b_budget
              (FilterPanel.stringify
                 (FilterPanel.sidequestData f location distanceNumber))
            = None)
  /\ (forall H req pool b cheapest,
         validate req = true ->
         budget req = Some b ->
         In cheapest (constraint_filter H req pool) ->
         (forall c, In c (constraint_filter H req pool) ->
                    cost cheapest <= cost c) ->
         b < cost cheapest ->
         exists it,
           plan H req pool = Success it
           /\ items it = []
           /\ activities_in_itinerary (metadata it) = 0%nat
           /\ summary it = BudgetInfeasible)
  /\ (forall H req pool b,
         validate req = true ->
         budget req = Some b ->
         (forall c, In c (constraint_filter H req pool) -> b < cost c) ->
         exists it,
           plan H req pool = Success it
           /\ items it = []
           /\ activities_in_itinerary (metadata it) = 0%nat
           /\ summary it = match constraint_filter H req pool with
                           | [] => NoCandidatesFound
                           | _ :: _ => BudgetInfeasible
                           end).
Proof.
  split; [|split; [|split]].
  - intros f location dn Hgt.
    unfold FilterPanel.stringify, FilterPanel.sidequestData.
    cbn [FilterPanel.d_budget FilterPanel.b_budget].
    now rewrite Hgt.
  - intros f location dn Hz.
    unfold FilterPanel.stringify, FilterPanel.sidequestData.
    cbn [FilterPanel.d_budget FilterPanel.b_budget].
    now rewrite Hz.
  - intros H req pool b cheapest Hv Hb Hin Hmin Hlt.
    rewrite (plan_budget_infeasible H req pool b Hv Hb).
    + eexists. split; [reflexivity|]. repeat split.
    + intros Habs. now rewrite Habs in Hin.
    + intros c Hc. pose proof (Hmin c Hc). lra.
  - intros H req pool b Hv Hb Hprice.
    destruct (constraint_filter H req pool) as [|c r] eqn:Ef.
    + rewrite (plan_no_candidates H req pool Hv Ef).
      eexists. split; [reflexivity|]. repeat split.
    + rewrite (plan_budget_infeasible H req pool b Hv Hb).
      * eexists. split; [reflexivity|]. repeat split.
      * now rewrite Ef.
      * now rewrite Ef.
Qed.

Lemma budget_too_small_or_unset_witness :
  exists it,
    plan PlannerSample.flat PlannerSample.sightseer
         [PlannerSample.museum; PlannerSample.cafe]
    = Success it
    /\ items it = []
    /\ activities_in_itinerary (metadata it) = 0%nat
    /\ summary it = BudgetInfeasible.
Proof.
  apply (proj1 (proj2 (proj2 budget_too_small_or_unset)) PlannerSample.flat
           PlannerSample.sightseer [PlannerSample.museum; PlannerSample.cafe]
           10 PlannerSample.cafe).
  - reflexivity.
  - reflexivity.
  - vm_compute. auto.
  - intros c Hc. vm_compute in Hc.
    destruct Hc as [<- | [<- | []]]; vm_compute; discriminate.
  - reflexivity.
Defined.

(** *** Unknown and missing interests *)

(** C6, as the claim has it, fails: with only unknown interests the
    itinerary has no entertainment item when the pool has no entertainment
    candidate, when none of them fits the budget, when the one there is
    outlasts the window, and when the novelty stage adds a place and the
    window has no room for both; and a request that is not valid gets no
    itinerary. *)
Lemma fallback_without_candidate :
  normalize_interests (interests PlannerSample.bogus) = [entertainment]
  /\ (exists it,
         plan PlannerSample.flat PlannerSample.bogus
              [PlannerSample.cafe; PlannerSample.park]
         = Success it
         /\ items it = [])
  /\ (exists it,
         plan PlannerSample.flat PlannerSample.bogus
              [PlannerSample.gala; PlannerSample.park]
         = Success it
         /\ items it = [])
  /\ (exists it,
         plan PlannerSample.flat PlannerSample.bogus [PlannerSample.festival]
         = Success it
         /\ items it = [])
  /\ (exists it,
         plan PlannerSample.flat PlannerSample.bogus
              [PlannerSample.arcade; PlannerSample.lookout]
         = Success it
         /\ map activity_id (items it) = ["h-lookout"]
         /\ map item_category (items it) = [scenery])
  /\ normalize_interests (interests PlannerSample.backwards)
     = [entertainment]
  /\ plan PlannerSample.flat PlannerSample.backwards PlannerSample.city
     = InputInvalid.
Proof.
  split; [reflexivity|].
  repeat split; eexists; (split; [reflexivity|]); repeat split.
Qed.

(** The budget stage swaps before it trims: the show that is above the
    budget gives way to the museum. *)
Example budget_swap_keeps_coverage :
  exists it,
    plan PlannerSample.flat PlannerSample.bogus
         [PlannerSample.gala; PlannerSample.museum]
    = Success it
    /\ map activity_id (items it) = ["b-museum"]
    /\ interests_covered (metadata it) = [entertainment].
Proof. eexists. split; [reflexivity|]. split; reflexivity. Qed.

(** C6, amended. Interest strings outside the six categories are
    discarded one by one; when none is left, also when none was passed,
    the single category entertainment stands in.  The itinerary of a
    valid request then contains an entertainment item, and
    [interests_covered] is [entertainment], when the best entertainment
    candidate of the filtered pool fits the budget and the window and the
    novelty stage has nothing to do (that candidate is unvisited, or no
    candidate is); and also when some entertainment candidate of the
    filtered pool fits the budget, each of them fits the window and they
    are all unvisited, or no candidate is.  With no entertainment
    candidate in the filtered pool the itinerary of a valid request has no
    entertainment item. *)
Theorem interests_fallback :
  (forall l1 s l2,
      category_of_string s = None ->
      normalize_interests (l1 ++ s :: l2) = normalize_interests (l1 ++ l2))
  /\ (forall l,
         (exists s, In s l /\ category_of_string s <> None) ->
         normalize_interests l = nodup Category_eq_dec (recognised l)
         /\ forall k, In k (normalize_interests l)
                      <-> exists s, In s l /\ category_of_string s = Some k)
  /\ (forall l,
         (forall s, In s l -> category_of_string s = None) ->
         normalize_interests l = [entertainment])
  /\ normalize_interests [] = [entertainment]
  /\ (forall H req pool e,
         validate req = true ->
         (forall s, In s (interests req) -> category_of_string s = None) ->
         best H req (of_category entertainment (constraint_filter H req pool))
         = Some e ->
         (forall b, budget req = Some b -> cost e <= b) ->
         start_time req + duration_hours e <= end_time req ->
         visited e = false
         \/ existsb unvisited (constraint_filter H req pool) = false ->
         exists it a,
           plan H req pool = Success it
           /\ In a (items it)
           /\ item_category a = entertainment
           /\ interests_covered (metadata it) = [entertainment])
  /\ (forall H req pool e,
         validate req = true ->
         (forall s, In s (interests req) -> category_of_string s = None) ->
         In e (of_category entertainment (constraint_filter H req pool)) ->
         (forall b, budget req = Some b -> cost e <= b) ->
         (forall c,
             In c (of_category entertainment (constraint_filter H req pool)) ->
             start_time req + duration_hours c <= end_time req) ->
         (forall c,
             In c (of_category entertainment (constraint_filter H req pool)) ->
             visited c = false)
         \/ existsb unvisited (constraint_filter H req pool) = false ->
         exists it a,
           plan H req pool = Success it
           /\ In a (items it)
           /\ item_category a = entertainment
           /\ interests_covered (metadata it) = [entertainment])
  /\ (forall H req pool,
         validate req = true ->
         of_category entertainment (constraint_filter H req pool) = [] ->
         exists it,
           plan H req pool = Success it
           /\ (forall a, In a (items it) -> item_category a <> entertainment)
           /\ ~ In entertainment (interests_covered (metadata it))).
Proof.
  assert (forall l, (forall s, In s l -> category_of_string s = None) ->
                    recognised l = []) as Hnone.
  { intros l Hl. destruct (recognised l) as [|k r] eqn:E; [reflexivity|].
    assert (In k (recognised l)) as Hk by (rewrite E; now left).
    apply recognised_In in Hk as (s & Hs & Es).
    rewrite (Hl s Hs) in Es. discriminate. }
  split; [|split; [|split; [|split; [|split; [|split]]]]].
  - intros l1 s l2 Es. unfold normalize_interests.
    rewrite !recognised_app. cbn [recognised]. now rewrite Es.
  - intros l (s & Hs & Es).
    assert (recognised l <> []) as Hne.
    { destruct (category_of_string s) as [k|] eqn:E; [|congruence].
      intros Habs.
      assert (In k (recognised l)) as Hk by (apply recognised_In; eauto).
      now rewrite Habs in Hk. }
    rewrite (normalize_keep l Hne). split; [reflexivity|].
    intros k. rewrite nodup_In. apply recognised_In.
  - intros l Hl. apply normalize_fallback, Hnone, Hl.
  - reflexivity.
  - intros H req pool e Hv Hl Hbest Hcost Htime Hnov.
    destruct (plan_fallback H req pool e Hv (Hnone _ Hl) Hbest Hcost Htime Hnov)
      as (it & Hplan & Hitems & Hcov).
    exists it, (item_of (e, start_time req) 0).
    split; [exact Hplan|]. split; [rewrite Hitems; now left|].
    split; [|exact Hcov]. cbn.
    apply best_In, of_category_In in Hbest. tauto.
  - intros H req pool e Hv Hl He Hcost Htime Hnov.
    destruct (plan_fallback_any H req pool e Hv (Hnone _ Hl) He Hcost Htime
                Hnov) as (it & d & Hplan & Hitems & Hcat & Hcov).
    exists it, (item_of (d, start_time req) 0).
    split; [exact Hplan|]. split; [rewrite Hitems; now left|].
    split; [exact Hcat | exact Hcov].
  - intros H req pool Hv Hnone_e.
    destruct (plan_total H req pool Hv) as [it Hplan].
    exists it. split; [exact Hplan|].
    destruct (plan_chosen H req pool it Hplan) as (chosen & Hin & Hitems & Hcov).
    assert (~ In entertainment (map category chosen)) as Hno.
    { intros Habs. apply in_map_iff in Habs as (c & Hcat & Hc).
      assert (In c (of_category entertainment (constraint_filter H req pool)))
        as Hc' by (apply of_category_In; auto).
      now rewrite Hnone_e in Hc'. }
    split.
    + intros a Ha Habs. apply Hno. rewrite <- Hitems, <- Habs.
      now apply in_map.
    + rewrite Hcov, nodup_In. exact Hno.
Qed.

Lemma interests_fallback_witness :
  (exists it a,
      plan PlannerSample.flat PlannerSample.bogus PlannerSample.city
      = Success it
      /\ In a (items it)
      /\ item_category a = entertainment
      /\ interests_covered (metadata it) = [entertainment])
  /\ (exists it a,
         plan PlannerSample.flat PlannerSample.bogus
              [PlannerSample.gala; PlannerSample.museum]
         = Success it
         /\ In a (items it)
         /\ item_category a = entertainment
         /\ interests_covered (metadata it) = [entertainment])
  /\ (exists it,
         plan PlannerSample.flat PlannerSample.bogus
              [PlannerSample.cafe; PlannerSample.lookout]
         = Success it
         /\ (forall a, In a (items it) -> item_category a <> entertainment)
         /\ ~ In entertainment (interests_covered (metadata it))).
Proof.
  split; [|split].
  - apply (proj1 (proj2 (proj2 (proj2 (proj2 interests_fallback))))
             PlannerSample.flat PlannerSample.bogus PlannerSample.city
             PlannerSample.museum).
    + reflexivity.
    + intros s [<- | [<- | []]]; reflexivity.
    + reflexivity.
    + intros b [= <-]. vm_compute. discriminate.
    + vm_compute. discriminate.
    + left. reflexivity.
  - apply (proj1 (proj2 (proj2 (proj2 (proj2 (proj2 interests_fallback)))))
             PlannerSample.flat PlannerSample.bogus
             [PlannerSample.gala; PlannerSample.museum] PlannerSample.museum).
    + reflexivity.
    + intros s [<- | [<- | []]]; reflexivity.
    + vm_compute. auto.
    + intros b [= <-]. vm_compute. discriminate.
    + intros c Hc. vm_compute in Hc.
      destruct Hc as [<- | [<- | []]]; vm_compute; discriminate.
    + left. intros c Hc. vm_compute in Hc.
      destruct Hc as [<- | [<- | []]]; reflexivity.
  - apply (proj2 (proj2 (proj2 (proj2 (proj2 (proj2 interests_fallback)))))
             PlannerSample.flat PlannerSample.bogus
             [PlannerSample.cafe; PlannerSample.lookout]).
    + reflexivity.
    + reflexivity.
Defined.

End PlannerFacts.

(** ** More on the filter panel *)

Module FilterPanelMore.

Import RouteContext FilterPanel Shape Notion.

Lemma fold_interest (k : InterestKey) (es : list Edit) :
  forall f,
    interest_at (interests (fold_left apply_edit es f)) k
    = xorb (interest_at (interests f) k) (Nat.odd (toggles k es)).
Proof.
  induction es as [|e r IH]; intros f; cbn [fold_left toggles].
  - now rewrite xorb_false_r.
  - rewrite IH. destruct e as [v|v|k'|fld v|io|v]; cbn [apply_edit];
      try reflexivity.
    destruct (same_key k k') eqn:E.
    + rewrite Nat.odd_succ, <- Nat.negb_odd.
      destruct k, k'; try discriminate; cbn;
        destruct (interests f) as [a b c d]; cbn;
        destruct (Nat.odd (toggles _ r)); 
        repeat match goal with x : bool |- _ => destruct x end; reflexivity.
    + destruct k, k'; try discriminate; cbn;
        destruct (interests f) as [a b c d]; reflexivity.
Qed.

Lemma selected_iff (f : FilterState) (k : InterestKey) :
  In (key_name k) (selectedInterests f) <-> interest_at (interests f) k = true.
Proof.
  unfold selectedInterests, interest_entries.
  destruct (interests f) as [a b c d].
  destruct k, a, b, c, d; cbn; split; intros Hx;
    try reflexivity; try discriminate; auto;
    repeat (destruct Hx as [Hx|Hx]; try discriminate); try contradiction;
    tauto.
Qed.

(** X1. An interest is sent exactly when its box was clicked an odd
    number of times since the panel opened. *)
Theorem interest_sent_iff_odd (es : list Edit) (k : InterestKey) :
  In (key_name k) (selectedInterests (after_edits es))
  <-> Nat.odd (toggles k es) = true.
Proof.
  rewrite selected_iff. unfold after_edits. rewrite fold_interest.
  destruct k; cbn; now destruct (Nat.odd _).
Qed.

(** X2. The interests sent never repeat a name and always come in the
    order shopping, food, entertainment, scenery. *)
Theorem interests_in_order (f : FilterState) :
  NoDup (selectedInterests f)
  /\ Subseq (selectedInterests f)
            ["shopping"; "food"; "entertainment"; "scenery"].
Proof.
  unfold selectedInterests, interest_entries.
  destruct (interests f) as [a b c d].
  destruct a, b, c, d; cbn; split;
    solve [ repeat (constructor; cbn; try (intros Hx; intuition discriminate))
          | repeat first [apply sub_nil | apply sub_keep | apply sub_skip] ].
Qed.

(** *** What a run leaves behind *)

(** X3. A run that posts nothing leaves the route context as it was; a
    run whose request fails (an exception or a response that is not ok)
    records the user's location and leaves stops and way points as they
    were.  Only the alert of a generated sidequest goes with new stops. *)
Theorem failed_run_keeps_route (f : FilterState) (ctx : State)
    (geo : option Location) (server : SidequestData -> FetchOutcome) :
  (posted (handleGenerateSidequest f ctx geo server) = None ->
   context (handleGenerateSidequest f ctx geo server) = ctx)
  /\ ((forall n t,
          shown (handleGenerateSidequest f ctx geo server) <> Generated n t) ->
      stops (context (handleGenerateSidequest f ctx geo server)) = stops ctx
      /\ waypoints (context (handleGenerateSidequest f ctx geo server))
         = waypoints ctx)
  /\ (posted (handleGenerateSidequest f ctx geo server) <> None ->
      userLocation (context (handleGenerateSidequest f ctx geo server)) = geo).
Proof.
  unfold handleGenerateSidequest.
  destruct (String.eqb (Js.trim (distance f)) "");
    [cbn; repeat split; congruence|].
  destruct (Js.isNaN (Js.parseFloat (distance f))
            || Js.ltb (Js.parseFloat (distance f)) Js.zero);
    [cbn; repeat split; congruence|].
  destruct geo as [location|]; [|cbn; repeat split; congruence].
  destruct (server _) as [|status txt|result]; cbn;
    (split; [congruence|]); (split; [|congruence]); intros Hn;
    solve [split; reflexivity | now destruct (Hn _ _ eq_refl)].
Qed.

Lemma failed_run_keeps_route_witness :
  stops (context (handleGenerateSidequest Sample.food_indoor
                    Sample.at_the_door (Some Sample.waterloo) Sample.failing))
  = stops Sample.at_the_door
  /\ waypoints (context (handleGenerateSidequest Sample.food_indoor
                           Sample.at_the_door (Some Sample.waterloo)
                           Sample.failing))
     = waypoints Sample.at_the_door.
Proof.
  apply (proj1 (proj2 (failed_run_keeps_route Sample.food_indoor
                         Sample.at_the_door (Some Sample.waterloo)
                         Sample.failing))).
  intros n t. vm_compute. discriminate.
Defined.

(** X4. A budget that is sent is a number greater than 0: never 0,
    never negative, never NaN. *)
Theorem posted_budget_positive (f : FilterState) (ctx : State)
    (geo : option Location) (server : SidequestData -> FetchOutcome)
    (d : SidequestData) (b : Js.number) :
  posted (handleGenerateSidequest f ctx geo server) = Some d ->
  d_budget d = Some b ->
  Js.gtb b Js.zero = true /\ Js.isNaN b = false /\ b = budget f.
Proof.
  intros Hp Hb.
  destruct (FilterPanelFacts.posted_inv _ _ _ _ _ Hp)
    as (location & _ & -> & _).
  cbn [d_budget sidequestData] in Hb.
  destruct (Js.gtb (budget f) Js.zero) eqn:E; [|discriminate].
  injection Hb as <-. repeat split; [exact E|].
  now destruct (budget f).
Qed.

Lemma posted_budget_positive_witness :
  Js.gtb (Js.Fin 40) Js.zero = true
  /\ Js.isNaN (Js.Fin 40) = false
  /\ Js.Fin 40 = budget Sample.food_indoor.
Proof.
  apply (posted_budget_positive Sample.food_indoor initial
           (Some Sample.waterloo) Sample.failing
           (sidequestData Sample.food_indoor Sample.waterloo (Js.Fin 5))
           (Js.Fin 40));
    reflexivity.
Defined.

(** X5. The distance handed to [JSON.stringify] is the number read from
    the field: a finite number that is not negative, which the body then
    carries, or plus infinity, for which the body carries null.  No
    negative distance and no NaN is ever sent. *)
Theorem posted_distance_not_negative (f : FilterState) (ctx : State)
    (geo : option Location) (server : SidequestData -> FetchOutcome)
    (d : SidequestData) :
  posted (handleGenerateSidequest f ctx geo server) = Some d ->
  d_travel_distance d = Js.parseFloat (distance f)
  /\ ((exists q,
          Js.parseFloat (distance f) = Js.Fin q /\ (0 <= q)%Q
          /\ b_travel_distance (stringify d) = Some q)
      \/ (Js.parseFloat (distance f) = Js.Inf false
          /\ b_travel_distance (stringify d) = None)).
Proof.
  intros Hp.
  destruct (FilterPanelFacts.posted_inv _ _ _ _ _ Hp)
    as (location & _ & -> & _ & Hn & Hl).
  cbn [d_travel_distance sidequestData stringify b_travel_distance].
  split; [reflexivity|].
  destruct (Js.parseFloat (distance f)) as [|q|neg]; [discriminate| |].
  - left. exists q. split; [reflexivity|]. split; [|reflexivity].
    cbn in Hl. unfold Qltb in Hl. apply negb_false_iff in Hl.
    now apply Qle_bool_iff in Hl.
  - right. cbn in Hl. subst neg. split; reflexivity.
Qed.

Lemma posted_distance_not_negative_witness :
  b_travel_distance
    (stringify (sidequestData Sample.food_indoor Sample.waterloo (Js.Fin 5)))
  = Some 5%Q
  /\ b_travel_distance
       (stringify (sidequestData Walkthrough.beyond Sample.waterloo
                                 (Js.Inf false)))
     = None.
Proof.
  split.
  - destruct (posted_distance_not_negative Sample.food_indoor initial
                (Some Sample.waterloo) Sample.failing
                (sidequestData Sample.food_indoor Sample.waterloo (Js.Fin 5))
                eq_refl)
      as [_ [(q & Hq & _ & Hb) | [Hq _]]].
    + rewrite Hb. vm_compute in Hq. congruence.
    + vm_compute in Hq. discriminate.
  - destruct (posted_distance_not_negative Walkthrough.beyond initial
                (Some Sample.waterloo) Sample.failing
                (sidequestData Walkthrough.beyond Sample.waterloo
                               (Js.Inf false))
                eq_refl)
      as [_ [(q & Hq & _) | [_ Hb]]].
    + vm_compute in Hq. discriminate.
    + exact Hb.
Defined.

(** *** The distance field *)

(** X6. The field is refused as missing exactly when it holds nothing
    but white space; nothing is posted then and the route context stays
    as it was. *)
Theorem blank_distance_iff (f : FilterState) (ctx : State)
    (geo : option Location) (server : SidequestData -> FetchOutcome) :
  (shown (handleGenerateSidequest f ctx geo server) = EnterDistance
   <-> allWhiteSpace (distance f) = true)
  /\ (allWhiteSpace (distance f) = true ->
      posted (handleGenerateSidequest f ctx geo server) = None
      /\ context (handleGenerateSidequest f ctx geo server) = ctx).
Proof.
  unfold allWhiteSpace.
  rewrite <- JsFacts.trim_blank, <- String.eqb_eq.
  unfold handleGenerateSidequest.
  destruct (String.eqb (Js.trim (distance f)) "");
    [cbn; repeat split; auto|].
  split; [|discriminate].
  destruct (Js.isNaN _ || Js.ltb _ _); [cbn; split; discriminate|].
  destruct geo as [location|]; [|cbn; split; discriminate].
  destruct (server _); cbn; split; discriminate.
Qed.

Lemma digit_cases (c : ascii) (d : Z) :
  Js.digit c = Some d ->
  In c ["0"; "1"; "2"; "3"; "4"; "5"; "6"; "7"; "8"; "9"]%char
  /\ (0 <= d)%Z.
Proof.
  destruct c as [[] [] [] [] [] [] [] []]; cbn; intros [= <-];
    (split; [tauto | lia]).
Qed.

Lemma digits_nonneg (s : string) :
  Forall (fun d => 0 <= d)%Z (fst (Js.digits s)).
Proof.
  induction s as [|c r IH]; cbn [Js.digits]; [constructor|].
  destruct (Js.digit c) as [d|] eqn:E; [|constructor].
  destruct (Js.digits r) as [ds rest]. cbn [fst] in *.
  constructor; [now destruct (digit_cases c d E) | exact IH].
Qed.


Lemma fold_decimal_nonneg (ds : list Z) :
  forall acc,
    (0 <= acc)%Z ->
    Forall (fun d => 0 <= d)%Z ds ->
    (0 <= fold_left (fun a d => 10 * a + d) ds acc)%Z.
Proof.
  induction ds as [|d r IH]; intros acc Hacc Hds; cbn [fold_left];
    [exact Hacc|].
  inversion Hds; subst. apply IH; [lia | assumption].
Qed.

Lemma decimal_nonneg (ds : list Z) :
  Forall (fun d => 0 <= d)%Z ds -> (0 <= Js.decimal ds)%Z.
Proof. intros Hds. unfold Js.decimal. now apply fold_decimal_nonneg. Qed.

Lemma scale_nonneg (m e : Z) : (0 <= m)%Z -> (0 <= Js.scale m e)%Q.
Proof.
  intros Hm. unfold Js.scale. destruct (0 <=? e)%Z eqn:E.
  - apply Z.leb_le in E. unfold Qle. cbn.
    pose proof (Z.pow_nonneg 10 e). nia.
  - unfold Qle. cbn. lia.
Qed.

Lemma unsignedDecimal_digit (c : ascii) (r : string) (d : Z) :
  Js.digit c = Some d ->
  exists q, Js.unsignedDecimal (String c r) = Some q /\ (0 <= q)%Q.
Proof.
  intros E. unfold Js.unsignedDecimal. cbn [Js.digits]. rewrite E.
  pose proof (digits_nonneg r) as Hds.
  destruct (Js.digits r) as [ds rest]. cbn [fst] in Hds.
  assert (Forall (fun x => 0 <= x)%Z (d :: ds)) as Hip.
  { constructor; [now destruct (digit_cases c d E) | exact Hds]. }
  assert (forall e, exists q,
            Some (Js.scale (Js.decimal (d :: ds)) e) = Some q /\ (0 <= q)%Q)
    as Hplain.
  { intros e. eexists. split; [reflexivity|].
    now apply scale_nonneg, decimal_nonneg. }
  destruct rest as [|c1 r2]; [apply Hplain|].
  destruct (Ascii.eqb c1 ".") eqn:Edot.
  - apply Ascii.eqb_eq in Edot. subst c1.
    pose proof (digits_nonneg r2) as Hfp.
    destruct (Js.digits r2) as [fp r3]. cbn [fst] in Hfp.
    eexists. split; [reflexivity|].
    apply scale_nonneg, decimal_nonneg, Forall_app. now split.
  - destruct c1 as [[] [] [] [] [] [] [] []]; try discriminate Edot;
      apply Hplain.
Qed.

Lemma parseFloat_digit (s : string) (c : ascii) (r : string) (d : Z) :
  Js.trimStart s = String c r ->
  Js.digit c = Some d ->
  (exists q, Js.parseFloat s = Js.Fin q /\ (0 <= q)%Q)
  \/ Js.parseFloat s = Js.Inf false.
Proof.
  intros Ht E. unfold Js.parseFloat. rewrite Ht.
  destruct (unsignedDecimal_digit c r d E) as (q & Hq & Hpos).
  destruct (digit_cases c d E) as [Hc _].
  assert (Js.sign (String c r) = (false, String c r)
          /\ String.prefix "Infinity" (String c r) = false) as [-> Hpre].
  { cbn in Hc.
    repeat (destruct Hc as [<- | Hc]; [split; reflexivity|]).
    destruct Hc. }
  rewrite Hpre, Hq. now apply JsFacts.binary64_nonneg.
Qed.

(** X7. A distance whose first character after the leading white space
    is a digit is always accepted, whatever follows the number (a unit,
    letters): the request goes out with the number the leading decimal
    literal stands for.  That number is finite and not negative, and the
    body carries it, or it is plus infinity (the literal is beyond the
    doubles) and the body carries null. *)
Theorem leading_digit_accepted (f : FilterState) (ctx : State)
    (location : Location) (server : SidequestData -> FetchOutcome)
    (c : ascii) (r : string) (d : Z) :
  Js.trimStart (distance f) = String c r ->
  Js.digit c = Some d ->
  posted (handleGenerateSidequest f ctx (Some location) server)
  = Some (sidequestData f location (Js.parseFloat (distance f)))
  /\ ((exists q,
          Js.parseFloat (distance f) = Js.Fin q /\ (0 <= q)%Q
          /\ b_travel_distance
               (stringify
                  (sidequestData f location (Js.parseFloat (distance f))))
             = Some q)
      \/ (Js.parseFloat (distance f) = Js.Inf false
          /\ b_travel_distance
               (stringify
                  (sidequestData f location (Js.parseFloat (distance f))))
             = None)).
Proof.
  intros Ht E.
  assert (String.eqb (Js.trim (distance f)) "" = false) as Hb.
  { destruct (String.eqb (Js.trim (distance f)) "") eqn:Eb; [|reflexivity].
    apply String.eqb_eq, JsFacts.trim_blank, JsFacts.trimStart_blank in Eb.
    congruence. }
  cbn [stringify b_travel_distance sidequestData d_travel_distance].
  destruct (parseFloat_digit _ c r d Ht E) as [(q & Hq & Hpos) | Hq];
    rewrite Hq.
  - split.
    + rewrite <- Hq. apply FilterPanelFacts.posted_intro;
        [exact Hb | now rewrite Hq |].
      rewrite Hq. cbn. unfold Qltb.
      now rewrite (proj2 (Qle_bool_iff 0 q) Hpos).
    + left. exists q. repeat split. exact Hpos.
  - split.
    + rewrite <- Hq. apply FilterPanelFacts.posted_intro;
        [exact Hb | now rewrite Hq | now rewrite Hq].
    + right. split; reflexivity.
Qed.

Lemma leading_digit_accepted_witness :
  posted (handleGenerateSidequest Walkthrough.five_km initial
            (Some Sample.waterloo) Sample.failing)
  = Some (sidequestData Walkthrough.five_km Sample.waterloo (Js.Fin 5))
  /\ posted (handleGenerateSidequest Walkthrough.beyond initial
               (Some Sample.waterloo) Sample.failing)
     = Some (sidequestData Walkthrough.beyond Sample.waterloo (Js.Inf false)).
Proof.
  split.
  - exact (proj1 (leading_digit_accepted Walkthrough.five_km initial
                    Sample.waterloo Sample.failing "5"%char " km" 5
                    eq_refl eq_refl)).
  - exact (proj1 (leading_digit_accepted Walkthrough.beyond initial
                    Sample.waterloo Sample.failing "1"%char "e400" 1
                    eq_refl eq_refl)).
Defined.

(** *** The identifiers of generated stops *)

Lemma generated_inv (f : FilterPanel.FilterState) (ctx : State)
    (geo : option Location)
    (server : FilterPanel.SidequestData -> FilterPanel.FetchOutcome)
    (n : nat) (d : Js.number) :
  FilterPanel.shown (FilterPanel.handleGenerateSidequest f ctx geo server)
  = FilterPanel.Generated n d ->
  exists loc result,
    geo = Some loc
    /\ n = List.length (FilterPanel.itinerary result)
    /\ FilterPanel.context
         (FilterPanel.handleGenerateSidequest f ctx geo server)
       = {| userLocation := Some loc;
            stops :=
              map_indexed FilterPanel.mapActivityToPlaceStop 0
                          (FilterPanel.itinerary result);
            waypoints :=
              (longitude loc, latitude loc)
                :: map (fun a => (FilterPanel.a_lon a, FilterPanel.a_lat a))
                       (FilterPanel.itinerary result) |}.
Proof.
  unfold FilterPanel.handleGenerateSidequest.
  destruct (String.eqb _ ""); [discriminate|].
  destruct (Js.isNaN _ || Js.ltb _ _); [discriminate|].
  destruct geo as [loc|]; [|discriminate].
  destruct (server _) as [| |result]; try discriminate.
  cbn. intros [= <- _]. exists loc, result.
  repeat split. unfold FilterPanel.waypointsOf, setWaypoints, setStops.
  cbn. f_equal. f_equal.
  apply FilterPanelFacts.stops_coordinates.
Qed.

Lemma generated_ids_from (xs : list SidequestActivity) :
  forall from,
    NoDup (map place_id (map_indexed mapActivityToPlaceStop from xs))
    /\ (forall p,
           In p (map place_id (map_indexed mapActivityToPlaceStop from xs)) ->
           exists i t a b, p = SidequestId i t a b /\ (from <= i)%nat).
Proof.
  induction xs as [|x r IH]; intros from; cbn [map_indexed map].
  - split; [constructor | intros p []].
  - destruct (IH (S from)) as [Hnd Hge]. split.
    + constructor; [|exact Hnd].
      intros Hin. destruct (Hge _ Hin) as (i & t & a & b & E & Hle).
      cbn in E. injection E as E _ _ _. lia.
    + intros p [<-|Hin].
      * cbn. eexists _, _, _, _. split; [reflexivity | lia].
      * destruct (Hge _ Hin) as (i & t & a & b & E & Hle).
        eexists _, _, _, _. split; [exact E | lia].
Qed.

(** X8. The stops of a generated sidequest are as many as the alert
    counts and carry pairwise different identifiers, also when two
    activities have the same title and coordinates. *)
Theorem generated_ids_distinct (f : FilterState) (ctx : State)
    (geo : option Location) (server : SidequestData -> FetchOutcome)
    (n : nat) (d : Js.number) :
  shown (handleGenerateSidequest f ctx geo server) = Generated n d ->
  List.length (stops (context (handleGenerateSidequest f ctx geo server))) = n
  /\ NoDup (map place_id
                (stops (context (handleGenerateSidequest f ctx geo server)))).
Proof.
  intros Hs.
  destruct (generated_inv _ _ _ _ _ _ Hs)
    as (loc & result & _ & Hn & Hc).
  rewrite Hc. cbn [stops]. split.
  - now rewrite map_indexed_length.
  - apply generated_ids_from.
Qed.

Lemma generated_ids_distinct_witness :
  List.length (stops (context (handleGenerateSidequest Sample.food_indoor
                                 initial (Some Sample.waterloo)
                                 Sample.answering))) = 2%nat
  /\ NoDup (map place_id
                (stops (context (handleGenerateSidequest Sample.food_indoor
                                   initial (Some Sample.waterloo)
                                   Sample.answering)))).
Proof.
  apply (generated_ids_distinct Sample.food_indoor initial
           (Some Sample.waterloo) Sample.answering 2 (Js.Fin (5 # 2))).
  reflexivity.
Defined.

End FilterPanelMore.

(** ** More on the route planning panel *)

Module RoutePlanningPanelMore.

Import RouteContext RoutePlanningPanel Shape Notion.

(** *** Stops without coordinates *)

Lemma fold_left_snoc {A B : Type} (g : A -> B -> A) (l : list B) (x : B)
    (a : A) :
  fold_left g (l ++ [x]) a = g (fold_left g l a) x.
Proof. now rewrite fold_left_app. Qed.

(** X9. The stop that [addStop] appends shows up as a new last row of
    the list of stops, but, having no coordinates, it never changes the
    points of the route. *)
Theorem addStop_keeps_points (id : string) (ctx : State) :
  buildPoints (addStop id ctx) = buildPoints ctx
  /\ (exists placeholder,
         stops (addStop id ctx) = stops ctx ++ [placeholder]
         /\ uiStops (addStop id ctx)
            = uiStops ctx ++ [UiPlace (LiteralId id) "New stop" placeholder]
         /\ hasCoordinates placeholder = false)
  /\ userLocation (addStop id ctx) = userLocation ctx
  /\ waypoints (addStop id ctx) = waypoints ctx.
Proof.
  split.
  - unfold buildPoints, addStop. cbn [stops setStops userLocation originPoints].
    rewrite fold_left_snoc. reflexivity.
  - split; [|split; reflexivity].
    eexists. split; [reflexivity|]. split; [|reflexivity].
    unfold uiStops, addStop. cbn [stops setStops userLocation].
    now rewrite map_app, app_assoc.
Qed.

(** *** Points that are nearly the same *)

Lemma Qltb_compat (a b c : Q) : (a == b)%Q -> Qltb a c = Qltb b c.
Proof.
  intros E. destruct (Qltb b c) eqn:Eb.
  - apply Qltb_lt. apply Qltb_lt in Eb. lra.
  - destruct (Qltb a c) eqn:Ea; [|reflexivity].
    apply Qltb_lt in Ea.
    assert (Qltb b c = true) by (apply Qltb_lt; lra). congruence.
Qed.

Lemma close_sym (x y : Js.number) :
  Js.ltb (Js.abs (Js.sub x y)) epsilon = Js.ltb (Js.abs (Js.sub y x)) epsilon.
Proof.
  destruct x as [|x|nx], y as [|y|ny]; try reflexivity.
  - unfold Js.sub.
    rewrite (JsFacts.abs_binary64_opp (y - x) (x - y)); [reflexivity | ring].
  - cbn. destruct nx, ny; reflexivity.
Qed.

Lemma close_refl (x : Js.number) :
  Js.ltb (Js.abs (Js.sub x x)) epsilon = finite x.
Proof.
  destruct x as [|x|nx]; [reflexivity| |destruct nx; reflexivity].
  unfold Js.sub.
  rewrite (JsFacts.binary64_comp (x - x) 0) by ring.
  vm_compute. reflexivity.
Qed.

Lemma nearlySame_self (a : LngLat) :
  nearlySame a a = finite (fst a) && finite (snd a).
Proof. unfold nearlySame. now rewrite !close_refl. Qed.

(** X10. [nearlySame] does not depend on the order of its two points,
    and a point is nearly the same as itself exactly when both of its
    coordinates are finite numbers. *)
Theorem nearlySame_sym_refl (a b : LngLat) :
  nearlySame a b = nearlySame b a
  /\ nearlySame a a = finite (fst a) && finite (snd a).
Proof.
  split; [|apply nearlySame_self].
  unfold nearlySame. now rewrite (close_sym (fst a)), (close_sym (snd a)).
Qed.

Lemma visitStop_twice (pts : list LngLat) (s : PlaceStop) :
  finite (lng s) = true -> finite (lat s) = true ->
  visitStop (visitStop pts s) s = visitStop pts s.
Proof.
  intros Hx Hy.
  assert (nearlySame (coordinates s) (coordinates s) = true) as Hself.
  { rewrite nearlySame_self. cbn. now rewrite Hx, Hy. }
  destruct (RoutePlanningPanelFacts.visitStop_cases pts s)
    as [E | (E & Hc & _)]; rewrite E; [exact E|].
  unfold visitStop. rewrite Hc, RoutePlanningPanelFacts.lastPoint_snoc, Hself.
  reflexivity.
Qed.

(** X11. Entering the same stop twice in a row gives the same points as
    entering it once, provided its coordinates are finite numbers. *)
Theorem repeated_stop_counts_once (ctx : State) (before after : list PlaceStop)
    (s : PlaceStop) :
  finite (lng s) = true -> finite (lat s) = true ->
  buildPoints (setStops (before ++ s :: s :: after) ctx)
  = buildPoints (setStops (before ++ s :: after) ctx).
Proof.
  intros Hx Hy. unfold buildPoints.
  cbn [stops setStops userLocation originPoints].
  rewrite !fold_left_app. cbn [fold_left].
  now rewrite visitStop_twice.
Qed.

Lemma repeated_stop_counts_once_witness :
  buildPoints (setStops ([Walkthrough.museum_stop]
                           ++ Walkthrough.park_stop
                           :: Walkthrough.park_stop :: [])
                        Walkthrough.nowhere)
  = buildPoints (setStops ([Walkthrough.museum_stop]
                             ++ Walkthrough.park_stop :: [])
                          Walkthrough.nowhere).
Proof.
  apply (repeated_stop_counts_once Walkthrough.nowhere
           [Walkthrough.museum_stop] [] Walkthrough.park_stop); reflexivity.
Defined.

(** *** When the request goes out *)

Lemma configured_token (env : option string) :
  String.eqb (MAPBOX_TOKEN env) "" || String.eqb (MAPBOX_TOKEN env) placeholder_token
  = negb (configured env).
Proof.
  unfold MAPBOX_TOKEN, configured. destruct env as [t|]; [|reflexivity].
  destruct (String.eqb t "") eqn:E; [reflexivity|]. rewrite E.
  cbn [orb negb andb]. now destruct (String.eqb t placeholder_token).
Qed.

(** X12. [handleStart] issues a Directions request exactly when the
    token is configured and [buildPoints] gives two points or more.  The
    request then goes through exactly those points with the selected
    profile, the same points are handed to the map as way points, stops
    and user location are untouched, and the panel is loading with its
    previous error and results cleared. *)
Theorem handleStart_request (env : option string) (st : PanelState)
    (ctx : State) :
  (requests (handleStart env st ctx) <> []
   <-> configured env = true /\ (2 <= List.length (buildPoints ctx))%nat)
  /\ (forall st' ctx' url,
         handleStart env st ctx = Fetching st' ctx' url ->
         url_path url = buildPoints ctx
         /\ url_profile url = profile st
         /\ waypoints ctx' = buildPoints ctx
         /\ stops ctx' = stops ctx
         /\ userLocation ctx' = userLocation ctx
         /\ loading st' = true
         /\ error st' = None
         /\ steps st' = [] /\ etaMin st' = None /\ distanceKm st' = None).
Proof.
  unfold handleStart. rewrite configured_token.
  destruct (configured env); cbn [negb].
  - destruct (List.length (buildPoints ctx) <? 2)%nat eqn:E.
    + apply Nat.ltb_lt in E. split; [|discriminate].
      cbn. split; [congruence | lia].
    + apply Nat.ltb_ge in E. split.
      * cbn. split; [auto | discriminate].
      * intros st' ctx' url [= <- <- <-]. cbn. repeat split.
  - split; [|discriminate]. cbn. split; [congruence | intros [? _]; discriminate].
Qed.

(** X13. Without a user location the route starts at the first stop
    that has coordinates, and it is empty exactly when no stop has. *)
Theorem first_point_without_location (ctx : State) :
  userLocation ctx = None ->
  hd_error (buildPoints ctx)
  = hd_error (map coordinates (filter hasCoordinates (stops ctx)))
  /\ (buildPoints ctx = [] <-> filter hasCoordinates (stops ctx) = []).
Proof.
  intros Hnone. unfold buildPoints, originPoints. rewrite Hnone.
  assert (hd_error (fold_left visitStop (stops ctx) [])
          = hd_error (map coordinates (filter hasCoordinates (stops ctx))))
    as Hhd.
  { induction (stops ctx) as [|s r IH]; [reflexivity|].
    cbn [fold_left filter]. unfold visitStop at 2.
    destruct (hasCoordinates s); [|exact IH].
    cbn [lastPoint rev app map hd_error].
    destruct (RoutePlanningPanelFacts.fold_appends r [coordinates s])
      as (ext & -> & _).
    reflexivity. }
  split; [exact Hhd|].
  destruct (fold_left visitStop (stops ctx) []) as [|p ps];
    destruct (filter hasCoordinates (stops ctx)) as [|s ss];
    cbn in Hhd; try discriminate; split; congruence.
Qed.

Lemma first_point_without_location_witness :
  hd_error (buildPoints Walkthrough.nowhere)
  = hd_error (map coordinates
                  (filter hasCoordinates (stops Walkthrough.nowhere)))
  /\ (buildPoints Walkthrough.nowhere = []
      <-> filter hasCoordinates (stops Walkthrough.nowhere) = []).
Proof.
  apply (first_point_without_location Walkthrough.nowhere). reflexivity.
Defined.

(** *** When the request settles *)





Lemma collect_steps (legs : list Leg) :
  collect legs = map stepItem (all_steps legs).
Proof.
  unfold collect, all_steps.
  induction legs as [|leg r IH]; cbn [flat_map map]; [reflexivity|].
  now rewrite IH, map_app.
Qed.

(** X15. When a route comes back, the panel lists one step per step of
    every leg of the first route, in order; each carries the instruction
    as received (empty when missing) and its distance (0 when missing);
    further routes are not read. *)
Theorem steps_follow_legs (st : PanelState) (route : Route)
    (more : list Route) :
  steps (finishStart st (Json (Some (route :: more))))
  = map stepItem
        (all_steps match r_legs route with Some ls => ls | None => [] end)
  /\ map text (steps (finishStart st (Json (Some (route :: more)))))
     = map (fun s => match maneuver_instruction s with
                     | Some i => i
                     | None => ""
                     end)
           (all_steps match r_legs route with Some ls => ls | None => [] end)
  /\ map step_distance (steps (finishStart st (Json (Some (route :: more)))))
     = map (fun s => match s_distance s with
                     | Some d => d
                     | None => Js.zero
                     end)
           (all_steps match r_legs route with Some ls => ls | None => [] end)
  /\ finishStart st (Json (Some (route :: more)))
     = finishStart st (Json (Some [route])).
Proof.
  cbn [finishStart steps setLoading]. rewrite collect_steps.
  repeat split; rewrite map_map; reflexivity.
Qed.

(** *** Splitting an instruction *)

Lemma split_sentences_eq (c : ascii) (r : string) :
  split_sentences (String c r)
  = if Ascii.eqb c "."
       && match r with
          | String a _ => Ascii.eqb a " "
          | EmptyString => false
          end
    then EmptyString :: split_sentences match r with
                                        | String _ rest => rest
                                        | EmptyString => EmptyString
                                        end
    else match split_sentences r with
         | p :: ps => String c p :: ps
         | [] => [String c EmptyString]
         end.
Proof.
  destruct (Ascii.eqb c ".") eqn:Ec.
  - apply Ascii.eqb_eq in Ec. subst c.
    destruct r as [|a rest]; [reflexivity|].
    destruct (Ascii.eqb a " ") eqn:Ea.
    + apply Ascii.eqb_eq in Ea. subst a. reflexivity.
    + destruct a as [[] [] [] [] [] [] [] []]; try discriminate Ea;
        reflexivity.
  - destruct c as [[] [] [] [] [] [] [] []]; try discriminate Ec;
      reflexivity.
Qed.

Lemma split_sentences_nonempty (s : string) : split_sentences s <> [].
Proof.
  destruct s as [|c r]; [discriminate|].
  rewrite split_sentences_eq.
  destruct (_ && _); [discriminate|].
  destruct (split_sentences r); discriminate.
Qed.

Lemma join_cons (sep : string) (c : ascii) (p : string) (ps : list string) :
  join sep (String c p :: ps) = String c (join sep (p :: ps)).
Proof. destruct ps; reflexivity. Qed.

Lemma join_split_both (s : string) :
  join ". " (split_sentences s) = s
  /\ forall c, join ". " (split_sentences (String c s)) = String c s.
Proof.
  induction s as [|a r [IH1 IH2]].
  - split; [reflexivity|]. intros c. rewrite split_sentences_eq.
    rewrite andb_false_r. reflexivity.
  - split; [apply IH2|]. intros c. rewrite split_sentences_eq.
    destruct (Ascii.eqb c "." && Ascii.eqb a " ") eqn:E.
    + apply andb_prop in E as [Ec Ea].
      apply Ascii.eqb_eq in Ec, Ea. subst c a.
      pose proof (split_sentences_nonempty r) as Hne.
      destruct (split_sentences r) as [|p ps] eqn:Er; [congruence|].
      change (join ". " (EmptyString :: p :: ps))
        with (String "." (String " " (join ". " (p :: ps)))).
      now rewrite IH1.
    + pose proof (split_sentences_nonempty (String a r)) as Hne.
      destruct (split_sentences (String a r)) as [|p ps] eqn:Er;
        [congruence|].
      rewrite join_cons. f_equal. rewrite <- Er. apply IH2.
Qed.

Lemma join_split (s : string) : join ". " (split_sentences s) = s.
Proof. apply join_split_both. Qed.

(** X16. When no turn keyword is found, nothing of the instruction is
    lost: either it has no full stop followed by a space and stays whole
    as the main instruction, or main instruction, full stop, space and
    sub instruction give it back. *)
Theorem fallback_split_loses_nothing (instruction : string) :
  firstMatch turnPatterns instruction = None ->
  (splitInstruction instruction = (instruction, "")
   /\ split_sentences instruction = [instruction])
  \/ instruction
     = String.append (fst (splitInstruction instruction))
         (String.append ". " (snd (splitInstruction instruction))).
Proof.
  intros Hnone. unfold splitInstruction. rewrite Hnone. cbn [snd String.eqb].
  pose proof (join_split instruction) as Hj.
  pose proof (split_sentences_nonempty instruction) as Hne.
  destruct (split_sentences instruction) as [|p [|q more]]; [congruence| |].
  - left. cbn in Hj. subst. split; reflexivity.
  - right. cbn [fst snd]. rewrite <- Hj at 1. reflexivity.
Qed.

Lemma fallback_split_loses_nothing_witness :
  (splitInstruction Walkthrough.arrival = (Walkthrough.arrival, "")
   /\ split_sentences Walkthrough.arrival = [Walkthrough.arrival])
  \/ Walkthrough.arrival
     = String.append (fst (splitInstruction Walkthrough.arrival))
         (String.append ". " (snd (splitInstruction Walkthrough.arrival))).
Proof.
  apply (fallback_split_loses_nothing Walkthrough.arrival). reflexivity.
Defined.

Lemma isLineTerminator_spec (c : ascii) :
  isLineTerminator c
  = (nat_of_ascii c =? 10)%nat || (nat_of_ascii c =? 13)%nat.
Proof. destruct c as [[] [] [] [] [] [] [] []]; reflexivity. Qed.

Lemma lower_spec (k : ascii) :
  nat_of_ascii (lower k)
  = if (65 <=? nat_of_ascii k)%nat && (nat_of_ascii k <=? 90)%nat
    then (nat_of_ascii k + 32)%nat else nat_of_ascii k.
Proof.
  unfold lower.
  destruct ((65 <=? nat_of_ascii k)%nat && (nat_of_ascii k <=? 90)%nat) eqn:E;
    [|reflexivity].
  apply andb_prop in E as [E1 E2]. apply Nat.leb_le in E1, E2.
  apply nat_ascii_embedding. lia.
Qed.

(** A byte that is no line terminator and does not open one. *)
Lemma same_letter_line_terminator (k c : ascii) (r : string) :
  negb (isLineTerminator k) && negb (nat_of_ascii k =? 226)%nat = true ->
  same_letter k c = true ->
  lineTerminatorAhead (String c r) = false.
Proof.
  intros Hk Hs. apply andb_prop in Hk as [Hk1 Hk2].
  apply negb_true_iff in Hk1, Hk2. rewrite isLineTerminator_spec in Hk1.
  apply orb_false_elim in Hk1 as [Ha Hb].
  apply Nat.eqb_neq in Ha, Hb, Hk2.
  unfold same_letter in Hs. apply Ascii.eqb_eq in Hs.
  apply (f_equal nat_of_ascii) in Hs. rewrite !lower_spec in Hs.
  assert (nat_of_ascii c <> 10 /\ nat_of_ascii c <> 13
          /\ nat_of_ascii c <> 226)%nat as (Hc1 & Hc2 & Hc3).
  { destruct (Nat.leb_spec 65 (nat_of_ascii k)),
             (Nat.leb_spec (nat_of_ascii k) 90),
             (Nat.leb_spec 65 (nat_of_ascii c)),
             (Nat.leb_spec (nat_of_ascii c) 90);
      cbn [andb] in Hs; lia. }
  unfold lineTerminatorAhead. rewrite isLineTerminator_spec.
  apply Nat.eqb_neq in Hc1, Hc2, Hc3. rewrite Hc1, Hc2, Hc3.
  now destruct r as [|b [|c' r']].
Qed.

Lemma match_from_cons (c : ascii) (r : string) :
  lineTerminatorAhead (String c r) = false ->
  match_from r <> None -> match_from (String c r) <> None.
Proof.
  intros Hc Hr. cbn [match_from].
  destruct (if Js.whiteSpaceAhead (String c r) then _ else None);
    [discriminate|].
  rewrite Hc. destruct (match_from r) as [[[g1 kw] t]|];
    [discriminate | congruence].
Qed.

Lemma lead_is_redundant (lead : string) :
  forallb (fun k => negb (isLineTerminator k)
                    && negb (nat_of_ascii k =? 226)%nat)
          (list_ascii_of_string lead) = true ->
  forall s m r,
    strip_prefix_ci lead s = Some (m, r) ->
    match_from r <> None -> match_from s <> None.
Proof.
  induction lead as [|k rest IH]; intros Hl s m r Hs Hr.
  - cbn in Hs. now injection Hs as _ <-.
  - cbn [list_ascii_of_string forallb] in Hl.
    apply andb_prop in Hl as [Hk Hrest].
    cbn [strip_prefix_ci] in Hs. destruct s as [|c s1]; [discriminate|].
    destruct (same_letter k c) eqn:Ekc; [|discriminate].
    destruct (strip_prefix_ci rest s1) as [[m1 r1]|] eqn:E1; [|discriminate].
    injection Hs as _ <-.
    apply match_from_cons;
      [exact (same_letter_line_terminator k c s1 Hk Ekc) |].
    exact (IH Hrest s1 m1 r1 E1 Hr).
Qed.

Lemma turnPattern_plain (s : string) :
  turnPattern "" s = match_from s.
Proof.
  unfold turnPattern. cbn [strip_prefix_ci].
  now destruct (match_from s) as [[[g1 kw] t]|].
Qed.

(** X17. The patterns that start with Via or Continue to never decide:
    whenever one of them matches, the first pattern has matched already,
    so the outcome is that of the first pattern alone. *)
Theorem later_patterns_never_decide (instruction : string) :
  firstMatch turnPatterns instruction = turnPattern "" instruction
  /\ (turnPattern "" instruction = None ->
      turnPattern "Via " instruction = None
      /\ turnPattern "Continue to " instruction = None).
Proof.
  assert (forall lead,
            forallb (fun k => negb (isLineTerminator k)
                              && negb (nat_of_ascii k =? 226)%nat)
                    (list_ascii_of_string lead) = true ->
            turnPattern "" instruction = None ->
            turnPattern lead instruction = None) as Hdead.
  { intros lead Hl Hnone. rewrite turnPattern_plain in Hnone.
    unfold turnPattern.
    destruct (strip_prefix_ci lead instruction) as [[m r]|] eqn:E;
      [|reflexivity].
    destruct (match_from r) as [[[g1 kw] t]|] eqn:Er; [|reflexivity].
    exfalso. apply (lead_is_redundant lead Hl instruction m r E);
      [congruence | exact Hnone]. }
  split.
  - unfold turnPatterns. cbn [firstMatch].
    destruct (turnPattern "" instruction) as [g|]; [reflexivity|].
    now rewrite (Hdead "Via " eq_refl eq_refl),
      (Hdead "Continue to " eq_refl eq_refl).
  - intros Hnone. split; apply Hdead; auto.
Qed.

(** *** The line with the duration *)

Lemma round_minutes (d : Q) :
  (0 <= d)%Q ->
  exists n : Z,
    Js.round (Js.divide (Js.Fin d) 60) = Js.Fin (inject_Z n)
    /\ (0 <= n)%Z
    /\ (inject_Z n * 60 - 30 <= d)%Q
    /\ (d < inject_Z n * 60 + 30)%Q.
Proof.
  intros Hd. exists (Qfloor (d / 60 + (1 # 2))).
  split; [reflexivity|].
  assert (d / 60 + (1 # 2) == d * (1 # 60) + (1 # 2))%Q as E
    by (unfold Qdiv; reflexivity).
  pose proof (Qfloor_le (d / 60 + (1 # 2))) as Hlo.
  pose proof (Qlt_floor (d / 60 + (1 # 2))) as Hhi.
  rewrite inject_Z_plus in Hhi. change (inject_Z 1) with 1%Q in Hhi.
  assert (inject_Z (Qfloor (d / 60 + (1 # 2))) <= d * (1 # 60) + (1 # 2))%Q
    as Hlo' by (rewrite <- E; exact Hlo).
  assert (d * (1 # 60) + (1 # 2) < inject_Z (Qfloor (d / 60 + (1 # 2))) + 1)%Q
    as Hhi' by (rewrite <- E; exact Hhi).
  split.
  - rewrite <- (Qfloor_Z 0). apply Qfloor_resp_le.
    rewrite E. change (inject_Z 0) with 0%Q. lra.
  - split; lra.
Qed.

Lemma hours_and_minutes (n : Z) :
  (60 <= n)%Z ->
  exists mq,
    etaText (Js.Fin (inject_Z n))
    = HoursMinutes (Js.Fin (inject_Z (n / 60))) (Js.Fin mq)
    /\ (mq == inject_Z (n mod 60))%Q.
Proof.
  intros Hn. unfold etaText.
  assert (Js.geb (Js.Fin (inject_Z n)) (Js.Fin 60) = true) as ->.
  { cbn. apply Qle_bool_iff. change 60%Q with (inject_Z 60).
    rewrite <- Zle_Qle. exact Hn. }
  assert (Qfloor (inject_Z n / 60) = (n / 60)%Z) as Hq.
  { change 60%Q with (inject_Z 60). symmetry. apply Zdiv_Qdiv. }
  unfold Js.floor, Js.divide, Js.remainder.
  assert (Qle_bool 0 (inject_Z n) = true) as ->.
  { apply Qle_bool_iff. change 0%Q with (inject_Z 0).
    rewrite <- Zle_Qle. lia. }
  rewrite Hq. eexists. split; [reflexivity|].
  rewrite (Z.mod_eq n 60) by lia.
  unfold Zminus. rewrite inject_Z_plus, inject_Z_opp, inject_Z_mult.
  change (inject_Z 60) with 60%Q. ring.
Qed.

(** X18. The ETA is the duration rounded to the nearest minute.  From
    60 minutes on it is shown as whole hours and minutes that add up to
    it, with fewer than 60 minutes; below, as minutes alone. *)
Theorem eta_line (d : Q) :
  (0 <= d)%Q ->
  exists n : Z,
    Js.round (Js.divide (Js.Fin d) 60) = Js.Fin (inject_Z n)
    /\ (0 <= n)%Z
    /\ (inject_Z n * 60 - 30 <= d)%Q /\ (d < inject_Z n * 60 + 30)%Q
    /\ ((n < 60)%Z ->
        etaText (Js.Fin (inject_Z n)) = MinutesOnly (Js.Fin (inject_Z n)))
    /\ ((60 <= n)%Z ->
        exists (h m : Z) (mq : Q),
          etaText (Js.Fin (inject_Z n))
          = HoursMinutes (Js.Fin (inject_Z h)) (Js.Fin mq)
          /\ (mq == inject_Z m)%Q
          /\ (n = 60 * h + m)%Z /\ (0 <= m < 60)%Z /\ (1 <= h)%Z).
Proof.
  intros Hd. destruct (round_minutes d Hd) as (n & Hr & Hn & Hlo & Hhi).
  exists n. repeat (split; [assumption|]). split.
  - intros Hlt. unfold etaText.
    assert (Js.geb (Js.Fin (inject_Z n)) (Js.Fin 60) = false) as ->;
      [|reflexivity].
    cbn. apply Qle_bool_false. change 60%Q with (inject_Z 60).
    rewrite <- Zlt_Qlt. exact Hlt.
  - intros Hge. destruct (hours_and_minutes n Hge) as (mq & He & Hm).
    exists (n / 60)%Z, (n mod 60)%Z, mq.
    split; [exact He|]. split; [exact Hm|].
    pose proof (Z.mod_pos_bound n 60 ltac:(lia)).
    pose proof (Z.div_mod n 60 ltac:(lia)).
    assert (1 <= n / 60)%Z by (apply Z.div_le_lower_bound; lia).
    repeat split; lia.
Qed.

Lemma eta_line_witness :
  exists n : Z,
    Js.round (Js.divide (Js.Fin 7530) 60) = Js.Fin (inject_Z n)
    /\ (0 <= n)%Z
    /\ (inject_Z n * 60 - 30 <= 7530)%Q /\ (7530 < inject_Z n * 60 + 30)%Q
    /\ ((n < 60)%Z ->
        etaText (Js.Fin (inject_Z n)) = MinutesOnly (Js.Fin (inject_Z n)))
    /\ ((60 <= n)%Z ->
        exists (h m : Z) (mq : Q),
          etaText (Js.Fin (inject_Z n))
          = HoursMinutes (Js.Fin (inject_Z h)) (Js.Fin mq)
          /\ (mq == inject_Z m)%Q
          /\ (n = 60 * h + m)%Z /\ (0 <= m < 60)%Z /\ (1 <= h)%Z).
Proof.
  apply (eta_line 7530). discriminate.
Defined.

End RoutePlanningPanelMore.

(** ** The map *)

Module MapboxMapFacts.

Import RouteContext MapboxMap Shape Notion.

(** The map's copy of [nearlySame] is the panel's. *)
Lemma nearlySame_copy (a b : LngLat) :
  nearlySame a b = RoutePlanningPanel.nearlySame a b.
Proof. reflexivity. Qed.

Lemma nearlySame_here (x y : Q) :
  nearlySame (Js.Fin x, Js.Fin y) (Js.Fin x, Js.Fin y) = true.
Proof.
  rewrite nearlySame_copy. now rewrite RoutePlanningPanelMore.nearlySame_self.
Qed.

Lemma finite_inv (n : Js.number) :
  finite n = true -> exists q, n = Js.Fin q.
Proof. destruct n; try discriminate. eauto. Qed.

Lemma points_cases (ctx : State) (loc : Location) :
  userLocation ctx = Some loc ->
  points ctx = waypoints ctx
  \/ points ctx = (longitude loc, latitude loc) :: waypoints ctx.
Proof.
  intros Hu. unfold points. rewrite Hu.
  destruct (waypoints ctx) as [|first raw]; [now right|].
  destruct (nearlySame first _); cbn [negb]; [now left | now right].
Qed.

(** X19. With a known user location whose coordinates are finite the
    points of the map are the way points, or the way points behind the
    user's point; they start within the threshold of the user's point;
    unless its request is aborted a ready map shows the marker labelled
    You there, first of all markers; and the route line is removed when
    that point is the only one, and when the Directions request fails. *)
Theorem map_starts_at_user (ctx : State) (loc : Location)
    (env : option string) (answer : Answer) :
  userLocation ctx = Some loc ->
  finite (longitude loc) = true ->
  finite (latitude loc) = true ->
  (points ctx = waypoints ctx
   \/ points ctx = (longitude loc, latitude loc) :: waypoints ctx)
  /\ (exists first rest,
         points ctx = first :: rest
         /\ nearlySame first (longitude loc, latitude loc) = true)
  /\ (answer <> Aborted ->
      exists m rest,
        markersShown (draw true env ctx) answer = m :: rest
        /\ label m = You
        /\ nearlySame (position m) (longitude loc, latitude loc) = true)
  /\ (forall only,
         points ctx = [only] ->
         routeLine (draw true env ctx) answer = Removed)
  /\ (answer = Failed -> routeLine (draw true env ctx) answer = Removed).
Proof.
  intros Hu Hx Hy.
  destruct (finite_inv _ Hx) as [x Ex], (finite_inv _ Hy) as [y Ey].
  split; [now apply points_cases|].
  assert (exists first rest,
             points ctx = first :: rest
             /\ nearlySame first (longitude loc, latitude loc) = true)
    as Hstart.
  { unfold points. rewrite Hu.
    destruct (waypoints ctx) as [|first raw].
    - eexists _, _. split; [reflexivity|]. rewrite Ex, Ey.
      apply nearlySame_here.
    - destruct (nearlySame first _) eqn:E; cbn [negb].
      + eexists _, _. split; [reflexivity | exact E].
      + eexists _, _. split; [reflexivity|]. rewrite Ex, Ey.
        apply nearlySame_here. }
  split; [exact Hstart|].
  destruct Hstart as (first & rest & Hp & Hnear).
  split.
  - intros Hans. unfold draw. cbn [negb]. rewrite Hp.
    destruct rest as [|second rest].
    + eexists _, _. cbn [markersShown]. split; [reflexivity|].
      split; [reflexivity | exact Hnear].
    + unfold markers. cbn [map_indexed markersShown].
      destruct answer; try congruence;
        (eexists _, _; split; [reflexivity|];
         split; [reflexivity | exact Hnear]).
  - split.
    + intros only Ho. unfold draw. cbn [negb]. rewrite Ho. reflexivity.
    + intros ->. unfold draw. cbn [negb]. rewrite Hp.
      destruct rest; reflexivity.
Qed.

Lemma map_starts_at_user_witness :
  (exists m rest,
      markersShown (draw true Walkthrough.token Walkthrough.on_the_way) Failed
      = m :: rest
      /\ label m = You
      /\ nearlySame (position m)
           (longitude Sample.waterloo, latitude Sample.waterloo) = true)
  /\ routeLine (draw true Walkthrough.token Walkthrough.alone) Failed
     = Removed.
Proof.
  split.
  - refine (proj1 (proj2 (proj2
              (map_starts_at_user Walkthrough.on_the_way Sample.waterloo
                 Walkthrough.token Failed eq_refl eq_refl eq_refl))) _).
    discriminate.
  - exact (proj1 (proj2 (proj2 (proj2
             (map_starts_at_user Walkthrough.alone Sample.waterloo
                Walkthrough.token Failed eq_refl eq_refl eq_refl))))
             (longitude Sample.waterloo, latitude Sample.waterloo) eq_refl).
Defined.

(** Without a user location the map draws the way points as they are. *)
Lemma points_without_location (ctx : State) :
  userLocation ctx = None -> points ctx = waypoints ctx.
Proof. intros Hu. unfold points. now rewrite Hu. Qed.



(** X21. When [handleStart] issues its request from a context whose user
    location is unknown or finite, the map draws exactly the points of
    that request, but asks Directions for the walking profile whatever
    profile the panel requested. *)
Theorem start_on_the_map (env : option string)
    (st st' : RoutePlanningPanel.PanelState) (ctx ctx' : State)
    (url : RoutePlanningPanel.DirectionsUrl) :
  RoutePlanningPanel.handleStart env st ctx
  = RoutePlanningPanel.Fetching st' ctx' url ->
  (forall loc, userLocation ctx = Some loc ->
               finite (longitude loc) = true /\ finite (latitude loc) = true) ->
  points ctx' = RoutePlanningPanel.url_path url
  /\ exists placed,
       draw true env ctx'
       = Routed
           {| RoutePlanningPanel.url_profile := RoutePlanningPanel.walking;
              RoutePlanningPanel.url_path := RoutePlanningPanel.url_path url;
              RoutePlanningPanel.url_access_token :=
                RoutePlanningPanel.url_access_token url |}
           placed
       /\ List.length placed
          = List.length (RoutePlanningPanel.url_path url).
Proof.
  unfold RoutePlanningPanel.handleStart.
  destruct (_ || _); [discriminate|].
  destruct (List.length (RoutePlanningPanel.buildPoints ctx) <? 2)%nat eqn:El;
    [discriminate|].
  intros [= <- <- <-] Hfin. apply Nat.ltb_ge in El.
  cbn [RoutePlanningPanel.url_path RoutePlanningPanel.buildDirectionsUrl
       RoutePlanningPanel.url_access_token].
  assert (points (setWaypoints (RoutePlanningPanel.buildPoints ctx) ctx)
          = RoutePlanningPanel.buildPoints ctx) as Hp.
  { unfold points. cbn [userLocation waypoints setWaypoints].
    destruct (userLocation ctx) as [loc|] eqn:Hu; [|reflexivity].
    destruct (Hfin loc eq_refl) as [Hx Hy].
    destruct (finite_inv _ Hx) as [x Ex], (finite_inv _ Hy) as [y Ey].
    destruct (RoutePlanningPanelFacts.fold_appends (stops ctx)
                (RoutePlanningPanel.originPoints ctx)) as [rest [Hrest _]].
    unfold RoutePlanningPanel.buildPoints. rewrite Hrest.
    unfold RoutePlanningPanel.originPoints. rewrite Hu. cbn [app].
    rewrite Ex, Ey, nearlySame_here. reflexivity. }
  split; [exact Hp|].
  unfold draw. cbn [negb]. rewrite Hp.
  destruct (RoutePlanningPanel.buildPoints ctx) as [|p [|q more]] eqn:Eb;
    cbn in El; try lia.
  eexists. split; [reflexivity|].
  unfold markers. now rewrite map_indexed_length.
Qed.

Lemma start_on_the_map_witness :
  points (setWaypoints (RoutePlanningPanel.buildPoints Walkthrough.on_the_way)
                       Walkthrough.on_the_way)
  = RoutePlanningPanel.buildPoints Walkthrough.on_the_way.
Proof.
  refine (proj1 (start_on_the_map Walkthrough.token Sample.idle
                   (RoutePlanningPanel.setLoading true
                      (RoutePlanningPanel.cleared Sample.idle))
                   Walkthrough.on_the_way
                   (setWaypoints
                      (RoutePlanningPanel.buildPoints Walkthrough.on_the_way)
                      Walkthrough.on_the_way)
                   (RoutePlanningPanel.buildDirectionsUrl
                      (RoutePlanningPanel.MAPBOX_TOKEN Walkthrough.token)
                      (RoutePlanningPanel.profile Sample.idle)
                      (RoutePlanningPanel.buildPoints Walkthrough.on_the_way))
                   _ _)).
  - vm_compute. reflexivity.
  - intros loc [= <-]. split; reflexivity.
Defined.

End MapboxMapFacts.

(** ** The chat *)

Module ChatInterfaceFacts.

Import RouteContext ChatInterface Shape Notion.

(** *** Messages *)

Lemma withoutMessage_fresh (loadingId : string) (prev : list ChatMessage) :
  ~ In loadingId (map id prev) -> withoutMessage loadingId prev = prev.
Proof.
  unfold withoutMessage. induction prev as [|m r IH]; intros Hf;
    [reflexivity|].
  cbn in *. destruct (String.eqb_spec (id m) loadingId) as [E|_].
  - exfalso. apply Hf. now left.
  - cbn. f_equal. apply IH. intros Hin. apply Hf. now right.
Qed.

Lemma withoutMessage_app (loadingId : string) (a b : list ChatMessage) :
  withoutMessage loadingId (a ++ b)
  = withoutMessage loadingId a ++ withoutMessage loadingId b.
Proof. apply filter_app. Qed.

Lemma blank_message (s : string) :
  String.eqb (Js.trim s) "" = allWhiteSpace s.
Proof.
  unfold allWhiteSpace. destruct (Js.blank s) eqn:E.
  - apply String.eqb_eq, JsFacts.trim_blank, E.
  - apply String.eqb_neq. intros Ht.
    apply JsFacts.trim_blank in Ht. congruence.
Qed.

Lemma ticks_keep (n : nat) (c : Chat) :
  message (Nat.iter n tick c) = message c
  /\ messages (Nat.iter n tick c) = messages c
  /\ ticking (Nat.iter n tick c) = ticking c
  /\ (loadingMessageIndex (Nat.iter n tick c)
      = ((loadingMessageIndex c + n) mod List.length loadingMessages)%nat
      \/ n = 0%nat).
Proof.
  induction n as [|n IH].
  - cbn. repeat split. now right.
  - destruct IH as (Hm & Hs & Ht & Hi).
    change (Nat.iter (S n) tick c) with (tick (Nat.iter n tick c)).
    cbn [tick message messages ticking loadingMessageIndex].
    refine (conj Hm (conj Hs (conj Ht (or_introl _)))).
    destruct Hi as [-> | ->].
    + rewrite Nat.Div0.add_mod_idemp_l. f_equal. lia.
    + cbn [Nat.iter nat_rect]. first [reflexivity | f_equal; lia].
Qed.

(** X22. A submission is dropped exactly when the input holds nothing
    but white space: then no message is added, nothing is posted and
    chat and route context stay as they were.  Any other text is posted,
    trimmed, whether or not the location could be read. *)
Theorem submission_posted_iff (userSub : option string) (amb : Ambient)
    (c : Chat) (ctx : State) :
  (snd (handleSubmit userSub amb c ctx) = None
   <-> allWhiteSpace (message c) = true)
  /\ (allWhiteSpace (message c) = true ->
      handleSubmit userSub amb c ctx = (c, ctx, None))
  /\ (allWhiteSpace (message c) = false ->
      snd (handleSubmit userSub amb c ctx)
      = Some {| p_text := Js.trim (message c); p_location := geo amb;
                p_user_id := userSub |}).
Proof.
  unfold handleSubmit. rewrite blank_message.
  destruct (allWhiteSpace (message c)).
  - cbn. repeat split; auto; discriminate.
  - destruct (server amb _) as [|result]; cbn [snd];
      (split; [split; discriminate|]); split; try discriminate; reflexivity.
Qed.

(** X23. After a submission that is not blank, the identifier of the
    loading message being new, the input is empty, the interval is
    stopped, and the conversation is the previous one, the trimmed text
    as a user message, and then at most one message: the notice of
    failure when the request throws, the reply when there is one. *)
Theorem handleSubmit_conversation (userSub : option string) (amb : Ambient)
    (c : Chat) (ctx : State) :
  allWhiteSpace (message c) = false ->
  ~ In (uuid_loading amb) (map id (messages c)) ->
  uuid_loading amb <> uuid_user amb ->
  let c' := fst (fst (handleSubmit userSub amb c ctx)) in
  let mine := {| id := uuid_user amb; text := Js.trim (message c);
                 timestamp := now_user amb; role := Some user |} in
  let payload := {| p_text := Js.trim (message c); p_location := geo amb;
                    p_user_id := userSub |} in
  message c' = ""
  /\ ticking c' = false
  /\ exists tail,
       messages c' = messages c ++ mine :: tail
       /\ (server amb payload = Threw ->
           tail = [{| id := uuid_reply amb;
                      text := "Failed to send message to server.";
                      timestamp := now_reply amb;
                      role := Some system |}])
       /\ (forall result,
              server amb payload = Answered result ->
              tail = if truthy (botReply result)
                     then [{| id := uuid_reply amb;
                              text := toText (botReply result);
                              timestamp := now_reply amb;
                              role := Some assistant |}]
                     else []).
Proof.
  intros Hb Hfresh Hu c' mine payload. subst c'.
  unfold handleSubmit. rewrite blank_message, Hb. fold payload.
  assert (forall t,
             withoutMessage (uuid_loading amb)
               (appendMessage (uuid_loading amb) (now_loading amb) t assistant
                  (appendMessage (uuid_user amb) (now_user amb)
                     (Js.trim (message c)) user (messages c)))
             = messages c ++ [mine])
    as Hclean.
  { intros t. unfold appendMessage.
    rewrite !withoutMessage_app, (withoutMessage_fresh _ _ Hfresh).
    unfold withoutMessage. cbn [filter id].
    destruct (String.eqb_spec (uuid_user amb) (uuid_loading amb)) as [E|_];
      [now exfalso; apply Hu|].
    rewrite String.eqb_refl. cbn [negb]. now rewrite app_nil_r. }
  destruct (ticks_keep (firings amb)
              (createLoadingMessage (uuid_loading amb) (now_loading amb)
                 (random amb)
                 (setMessage ""
                    (say (uuid_user amb) (now_user amb)
                         (Js.trim (message c)) user c))))
    as (Hm & Hs & _).
  destruct (server amb payload) as [|result] eqn:Es.
  - cbn [fst say removeLoadingMessage messages message ticking].
    rewrite Hm, Hs.
    cbn [createLoadingMessage setMessage say messages message].
    rewrite Hclean. split; [reflexivity|]. split; [reflexivity|].
    eexists. split.
    + unfold appendMessage. rewrite <- app_assoc. reflexivity.
    + split; [reflexivity | discriminate].
  - destruct (truthy (botReply result)) eqn:Et;
      cbn [fst say removeLoadingMessage messages message ticking];
      rewrite Hm, Hs;
      cbn [createLoadingMessage setMessage say messages message];
      rewrite Hclean; (split; [reflexivity|]); (split; [reflexivity|]);
      eexists; (split;
                [unfold appendMessage; rewrite <- ?app_assoc; reflexivity|]);
      (split; [discriminate|]); intros r [= <-]; now rewrite Et.
Qed.

Lemma handleSubmit_conversation_witness :
  message (fst (fst (handleSubmit None Walkthrough.unlocated Walkthrough.chat
                                  initial))) = ""
  /\ List.length
       (messages (fst (fst (handleSubmit None Walkthrough.unlocated
                                         Walkthrough.chat initial))))
     = 3%nat.
Proof.
  split; [|vm_compute; reflexivity].
  refine (proj1 (handleSubmit_conversation None Walkthrough.unlocated
                   Walkthrough.chat initial eq_refl _ _)).
  - cbn. intros [E|[]]. discriminate.
  - discriminate.
Defined.

(** *** The reply *)

Lemma append_nonempty (a b : string) (ch : ascii) :
  String.append a (String ch b) <> "".
Proof. destruct a; discriminate. Qed.

Lemma plusAssign_truthy (t : JsText) (tail : string) :
  truthy (plusAssign t (String.append newline tail)) = true.
Proof.
  unfold plusAssign, truthy, newline. cbn [String.append].
  apply negb_true_iff, String.eqb_neq, append_nonempty.
Qed.

Lemma plusAssign_text (t : JsText) (s : string) :
  toText (plusAssign t s) = String.append (toText t) s.
Proof. reflexivity. Qed.

Lemma append_assoc (a b c : string) :
  String.append (String.append a b) c = String.append a (String.append b c).
Proof. induction a as [|x a IH]; cbn; [reflexivity | now rewrite IH]. Qed.

Lemma append_empty (a : string) : String.append a "" = a.
Proof. induction a as [|x a IH]; cbn; [reflexivity | now rewrite IH]. Qed.

Lemma truthy_orElse (a b : JsText) :
  truthy (orElse a b) = truthy a || truthy b.
Proof. unfold orElse. destruct (truthy a) eqn:E; [exact E | reflexivity]. Qed.

Lemma orElse_falsy (a b : JsText) :
  truthy (orElse a b) = false -> orElse a b = b.
Proof.
  rewrite truthy_orElse. intros H. apply orb_false_elim in H as [Ha _].
  unfold orElse. now rewrite Ha.
Qed.

(** X24. A reply is shown exactly when one of [reply], [response],
    [message] and [text] is a non-empty string, or the metadata lists a
    personal location or a suggestion.  Its text starts with the first
    such string in that order and, when there is none, with what [text]
    is turned into as a string. *)
Theorem botReply_shown (result : ChatResult) :
  let base :=
    orElse (orElse (orElse (r_reply result) (r_response result))
                   (r_message result))
           (r_text result) in
  let listed :=
    match enhanced_metadata result with
    | Some md =>
        match personal_locations md with Some (_ :: _) => true | _ => false end
        || match unmatched_suggestions md with
           | Some (_ :: _) => true
           | _ => false
           end
    | None => false
    end in
  (truthy (botReply result) = true
   <-> truthy (r_reply result) || truthy (r_response result)
       || truthy (r_message result) || truthy (r_text result) = true
       \/ listed = true)
  /\ (exists rest,
         toText (botReply result) = String.append (toText base) rest)
  /\ (truthy base = false -> base = r_text result).
Proof.
  intros base listed.
  assert (truthy base
          = truthy (r_reply result) || truthy (r_response result)
            || truthy (r_message result) || truthy (r_text result)) as Hbase.
  { subst base. now rewrite !truthy_orElse. }
  rewrite <- Hbase.
  split; [|split].
  - unfold botReply. fold base. subst listed.
    destruct (enhanced_metadata result) as [md|].
    + destruct (personal_locations md) as [[|p ps]|],
               (unmatched_suggestions md) as [[|s ss]|];
        cbn [List.length Nat.ltb Nat.leb orb];
        rewrite ?plusAssign_truthy;
        intuition discriminate.
    + intuition discriminate.
  - unfold botReply. fold base.
    destruct (enhanced_metadata result) as [md|];
      [|exists ""; now rewrite append_empty].
    destruct (personal_locations md) as [[|p ps]|],
             (unmatched_suggestions md) as [[|s ss]|];
      cbn [List.length Nat.ltb Nat.leb];
      rewrite ?plusAssign_text, ?append_assoc;
      try (eexists; reflexivity);
      exists ""; now rewrite append_empty.
  - subst base. intros Hf. rewrite orElse_falsy by exact Hf.
    reflexivity.
Qed.

(** *** How messages fade *)

(** X25. The opacity of a message lies between 0.3 and 1.  The last
    three messages are fully opaque, a message seven or more places from
    the end is at 0.3, and within a conversation a later message is
    never fainter than an earlier one. *)
Theorem opacity_fades (length i j : nat) :
  (i <= j)%nat ->
  ((3 # 10) <= opacity length i /\ opacity length i <= 1)%Q
  /\ (opacity length i <= opacity length j)%Q
  /\ ((length <= i + 3)%nat -> opacity length i = 1%Q)
  /\ ((i + 7 <= length)%nat -> (opacity length i == 3 # 10)%Q).
Proof.
  intros Hij.
  assert (forall k, ((3 # 10) <= opacity length k /\ opacity length k <= 1)%Q)
    as Hb.
  { intros k. unfold opacity.
    destruct (Z.of_nat length - 3 <=? Z.of_nat k)%Z eqn:E; [split; lra|].
    apply Z.leb_gt in E. split; [apply Q.le_max_l|].
    apply Q.max_lub; [lra|].
    assert (0 <= inject_Z (Z.of_nat length - Z.of_nat k))%Q.
    { change 0%Q with (inject_Z 0). rewrite <- Zle_Qle. lia. }
    nra. }
  split; [apply Hb|]. split; [|split].
  - unfold opacity at 2.
    destruct (Z.of_nat length - 3 <=? Z.of_nat j)%Z eqn:Ej; [apply Hb|].
    apply Z.leb_gt in Ej. unfold opacity.
    destruct (Z.of_nat length - 3 <=? Z.of_nat i)%Z eqn:Ei;
      [apply Z.leb_le in Ei; lia|].
    apply Q.max_le_compat_l.
    assert (inject_Z (Z.of_nat length - Z.of_nat j)
            <= inject_Z (Z.of_nat length - Z.of_nat i))%Q.
    { rewrite <- Zle_Qle. lia. }
    lra.
  - intros Hl. unfold opacity.
    destruct (Z.of_nat length - 3 <=? Z.of_nat i)%Z eqn:E; [reflexivity|].
    apply Z.leb_gt in E. lia.
  - intros Hl. unfold opacity.
    destruct (Z.of_nat length - 3 <=? Z.of_nat i)%Z eqn:E;
      [apply Z.leb_le in E; lia|].
    apply Q.max_l.
    assert (7 <= inject_Z (Z.of_nat length - Z.of_nat i))%Q.
    { change 7%Q with (inject_Z 7). rewrite <- Zle_Qle. lia. }
    lra.
Qed.

Lemma opacity_fades_witness :
  ((3 # 10) <= opacity 10 2 /\ opacity 10 2 <= 1)%Q
  /\ (opacity 10 2 <= opacity 10 5)%Q
  /\ ((10 <= 2 + 3)%nat -> opacity 10 2 = 1%Q)
  /\ ((2 + 7 <= 10)%nat -> (opacity 10 2 == 3 # 10)%Q).
Proof. apply (opacity_fades 10 2 5). lia. Defined.

(** *** The loading message *)

(** X26. For a random number in [0, 1) the loading message gets one of
    the nine texts, and it is rendered as a loading message. *)
Theorem loading_text_recognised (uuid : string) (now : Z) (random : Q)
    (c : Chat) :
  (0 <= random)%Q -> (random < 1)%Q ->
  exists t,
    getRandomLoadingMessage random = Some t
    /\ In t loadingMessages
    /\ messages (createLoadingMessage uuid now random c)
       = messages c
           ++ [{| id := uuid; text := t; timestamp := now;
                  role := Some assistant |}]
    /\ isLoadingMessage {| id := uuid; text := t; timestamp := now;
                           role := Some assistant |} = true.
Proof.
  intros H0 H1.
  unfold createLoadingMessage, getRandomLoadingMessage.
  cbn [messages]. unfold appendMessage.
  change (inject_Z (Z.of_nat (List.length loadingMessages))) with 9%Q.
  remember (Qfloor (random * 9)) as k eqn:Ek.
  assert (0 <= k < 9)%Z as Hk.
  { subst k. split.
    - rewrite <- (Qfloor_Z 0). apply Qfloor_resp_le.
      change (inject_Z 0) with 0%Q. lra.
    - assert (random * 9 < inject_Z 9)%Q as Hlt
          by (change (inject_Z 9) with 9%Q; lra).
      pose proof (Qfloor_le (random * 9)) as Hf.
      assert (inject_Z (Qfloor (random * 9)) < inject_Z 9)%Q as Hz by lra.
      rewrite <- Zlt_Qlt in Hz. exact Hz. }
  assert (k = 0 \/ k = 1 \/ k = 2 \/ k = 3 \/ k = 4 \/ k = 5 \/ k = 6
          \/ k = 7 \/ k = 8)%Z as Hcases by lia.
  clear Ek Hk.
  repeat (destruct Hcases as [-> | Hcases]);
    [ .. | subst k ];
    (eexists; split; [reflexivity|];
     split; [cbn; tauto|]; split; reflexivity).
Qed.

Lemma loading_text_recognised_witness :
  exists t,
    getRandomLoadingMessage (1 # 2) = Some t
    /\ In t loadingMessages
    /\ messages (createLoadingMessage "m-2" 2001 (1 # 2) Walkthrough.chat)
       = messages Walkthrough.chat
           ++ [{| id := "m-2"; text := t; timestamp := 2001;
                  role := Some assistant |}]
    /\ isLoadingMessage {| id := "m-2"; text := t; timestamp := 2001;
                           role := Some assistant |} = true.
Proof.
  apply (loading_text_recognised "m-2" 2001 (1 # 2) Walkthrough.chat);
    [discriminate | reflexivity].
Defined.

(** X27. The index of the text shown while loading always selects one
    of the nine texts after a tick, and nine ticks bring an index below 9
    back to where it was.  A blank submission leaves the index alone; any
    other leaves it at the number of times the interval fired while the
    run was waiting, counted modulo 9, so that it still selects one of
    the nine texts. *)
Theorem loading_index_cycles (userSub : option string) (amb : Ambient)
    (c : Chat) (ctx : State) :
  (exists t,
      nth_error loadingMessages (loadingMessageIndex (tick c)) = Some t)
  /\ ((loadingMessageIndex c < 9)%nat ->
      loadingMessageIndex (Nat.iter 9 tick c) = loadingMessageIndex c)
  /\ (allWhiteSpace (message c) = true ->
      loadingMessageIndex (fst (fst (handleSubmit userSub amb c ctx)))
      = loadingMessageIndex c)
  /\ (allWhiteSpace (message c) = false ->
      loadingMessageIndex (fst (fst (handleSubmit userSub amb c ctx)))
      = (firings amb mod 9)%nat
      /\ exists t,
           nth_error loadingMessages
             (loadingMessageIndex (fst (fst (handleSubmit userSub amb c ctx))))
           = Some t).
Proof.
  assert (forall i, (i < 9)%nat -> exists t, nth_error loadingMessages i = Some t)
    as Hsel.
  { intros i Hi. destruct (nth_error loadingMessages i) eqn:E; [eauto|].
    apply nth_error_None in E. cbn in E. lia. }
  split; [|split; [|split]].
  - apply Hsel. cbn [tick loadingMessageIndex].
    apply Nat.mod_upper_bound. discriminate.
  - intros Hlt.
    destruct (ticks_keep 9 c) as (_ & _ & _ & [E | E]); [|discriminate].
    rewrite E. change (List.length loadingMessages) with 9%nat.
    replace (loadingMessageIndex c + 9)%nat
      with (loadingMessageIndex c + 1 * 9)%nat by lia.
    rewrite Nat.Div0.mod_add. now apply Nat.mod_small.
  - intros Hb. unfold handleSubmit. now rewrite blank_message, Hb.
  - intros Hb.
    assert (loadingMessageIndex (fst (fst (handleSubmit userSub amb c ctx)))
            = (firings amb mod 9)%nat) as Hi.
    { unfold handleSubmit. rewrite blank_message, Hb.
      match goal with
      | |- context [Nat.iter (firings amb) tick ?x] =>
          destruct (ticks_keep (firings amb) x) as (_ & _ & _ & Ht)
      end.
      assert (forall d : Chat,
                 loadingMessageIndex d = (firings amb mod 9)%nat ->
                 loadingMessageIndex
                   (removeLoadingMessage (uuid_loading amb) d)
                 = (firings amb mod 9)%nat) as Hrem by (intros d E; exact E).
      destruct (server amb _) as [|result];
        [|destruct (truthy (botReply result))];
        cbn [fst say loadingMessageIndex]; apply Hrem;
        (destruct Ht as [-> | ->]; [reflexivity|]);
        cbn [Nat.iter nat_rect createLoadingMessage loadingMessageIndex];
        reflexivity. }
    split; [exact Hi|]. rewrite Hi. apply Hsel.
    apply Nat.mod_upper_bound. discriminate.
Qed.

(** *** From the chat to the map *)

Lemma handleSubmit_context (userSub : option string) (amb : Ambient)
    (c : Chat) (ctx : State) (result : ChatResult) :
  allWhiteSpace (message c) = false ->
  server amb {| p_text := Js.trim (message c); p_location := geo amb;
                p_user_id := userSub |} = Answered result ->
  snd (fst (handleSubmit userSub amb c ctx))
  = pushStopsToContext (r_stops result)
      match geo amb with
      | Some location => setUserLocation (Some location) ctx
      | None => ctx
      end.
Proof.
  intros Hb Hs. unfold handleSubmit. rewrite blank_message, Hb, Hs.
  reflexivity.
Qed.

Lemma marker_of_stop (pts : list MapboxMap.LngLat) (typed : list PlaceStop)
    (i : nat) (s : PlaceStop) (p : MapboxMap.LngLat) :
  nth_error typed i = Some s ->
  nth_error pts (S i) = Some p ->
  nth_error (MapboxMap.markers pts typed) (S i)
  = Some {| MapboxMap.label := MapboxMap.Numbered (S i);
            MapboxMap.popup := card s;
            MapboxMap.position := p |}.
Proof.
  intros Hs Hp. unfold MapboxMap.markers.
  rewrite (map_indexed_nth _ _ 0 (S i) p Hp).
  cbn [Nat.add MapboxMap.createMarkerForIndex]. now rewrite Hs.
Qed.

(** X28. When the chat answers with stops while no user location is
    known, the map takes the stops themselves as its points: the marker
    of the user stands on the first stop, and the marker numbered
    [i + 1] stands on the stop at position [i + 1] with the card of the
    stop at position [i]. *)
Theorem chat_markers_shifted (userSub : option string) (amb : Ambient)
    (c : Chat) (ctx : State) (result : ChatResult) (typed : list PlaceStop) :
  allWhiteSpace (message c) = false ->
  geo amb = None ->
  userLocation ctx = None ->
  server amb {| p_text := Js.trim (message c); p_location := None;
                p_user_id := userSub |} = Answered result ->
  r_stops result = Some typed ->
  let ctx' := snd (fst (handleSubmit userSub amb c ctx)) in
  let placed := MapboxMap.markers (MapboxMap.points ctx') (stops ctx') in
  stops ctx' = typed
  /\ MapboxMap.points ctx' = map (fun s => (lng s, lat s)) typed
  /\ (forall s,
         nth_error typed 0 = Some s ->
         nth_error placed 0
         = Some {| MapboxMap.label := MapboxMap.You;
                   MapboxMap.popup := MapboxMap.YouPopup;
                   MapboxMap.position := (lng s, lat s) |})
  /\ (forall i s t,
         nth_error typed i = Some s ->
         nth_error typed (S i) = Some t ->
         nth_error placed (S i)
         = Some {| MapboxMap.label := MapboxMap.Numbered (S i);
                   MapboxMap.popup := card s;
                   MapboxMap.position := (lng t, lat t) |}).
Proof.
  intros Hb Hg Hu Hs Ht ctx' placed. subst placed ctx'.
  rewrite <- Hg in Hs.
  rewrite (handleSubmit_context _ _ _ _ _ Hb Hs), Hg, Ht.
  cbn [pushStopsToContext].
  assert (MapboxMap.points
            (setWaypoints (map (fun s => (lng s, lat s)) typed)
                          (setStops typed ctx))
          = map (fun s => (lng s, lat s)) typed) as Hp.
  { apply MapboxMapFacts.points_without_location. exact Hu. }
  rewrite Hp. cbn [stops setWaypoints setStops].
  split; [reflexivity|]. split; [reflexivity|]. split.
  - intros s H0. destruct typed as [|s0 more]; [discriminate|].
    injection H0 as ->. reflexivity.
  - intros i s t Hi Hsi. apply marker_of_stop; [exact Hi|].
    now rewrite nth_error_map, Hsi.
Qed.

Lemma chat_markers_shifted_witness :
  nth_error
    (MapboxMap.markers
       (MapboxMap.points
          (snd (fst (handleSubmit None Walkthrough.unlocated Walkthrough.chat
                                  initial))))
       (stops (snd (fst (handleSubmit None Walkthrough.unlocated
                                      Walkthrough.chat initial)))))
    1
  = Some {| MapboxMap.label := MapboxMap.Numbered 1;
            MapboxMap.popup := card Walkthrough.museum_stop;
            MapboxMap.position :=
              (lng Walkthrough.park_stop, lat Walkthrough.park_stop) |}.
Proof.
  refine (proj2 (proj2 (proj2
            (chat_markers_shifted None Walkthrough.unlocated Walkthrough.chat
               initial Walkthrough.routed
               [Walkthrough.museum_stop; Walkthrough.park_stop]
               eq_refl eq_refl eq_refl eq_refl eq_refl)))
            0%nat Walkthrough.museum_stop Walkthrough.park_stop
            eq_refl eq_refl).
Defined.

(** X29. When the location was read, has finite coordinates and the
    first stop is not within the threshold of it, the map puts the
    user's point in front: the marker numbered [i + 1] then stands on
    the stop at position [i] and carries that stop's card. *)
Theorem chat_markers_aligned (userSub : option string) (amb : Ambient)
    (c : Chat) (ctx : State) (result : ChatResult) (typed : list PlaceStop)
    (loc : Location) :
  allWhiteSpace (message c) = false ->
  geo amb = Some loc ->
  finite (longitude loc) = true ->
  finite (latitude loc) = true ->
  server amb {| p_text := Js.trim (message c); p_location := Some loc;
                p_user_id := userSub |} = Answered result ->
  r_stops result = Some typed ->
  (forall s, nth_error typed 0 = Some s ->
             MapboxMap.nearlySame (lng s, lat s)
               (longitude loc, latitude loc) = false) ->
  let ctx' := snd (fst (handleSubmit userSub amb c ctx)) in
  let placed := MapboxMap.markers (MapboxMap.points ctx') (stops ctx') in
  MapboxMap.points ctx'
  = (longitude loc, latitude loc) :: map (fun s => (lng s, lat s)) typed
  /\ nth_error placed 0
     = Some {| MapboxMap.label := MapboxMap.You;
               MapboxMap.popup := MapboxMap.YouPopup;
               MapboxMap.position := (longitude loc, latitude loc) |}
  /\ (forall i s,
         nth_error typed i = Some s ->
         nth_error placed (S i)
         = Some {| MapboxMap.label := MapboxMap.Numbered (S i);
                   MapboxMap.popup := card s;
                   MapboxMap.position := (lng s, lat s) |}).
Proof.
  intros Hb Hg Hx Hy Hs Ht Hfar ctx' placed. subst placed ctx'.
  rewrite <- Hg in Hs.
  rewrite (handleSubmit_context _ _ _ _ _ Hb Hs), Hg, Ht.
  cbn [pushStopsToContext].
  assert (MapboxMap.points
            (setWaypoints (map (fun s => (lng s, lat s)) typed)
               (setStops typed (setUserLocation (Some loc) ctx)))
          = (longitude loc, latitude loc)
              :: map (fun s => (lng s, lat s)) typed) as Hp.
  { unfold MapboxMap.points.
    cbn [userLocation waypoints setWaypoints setStops setUserLocation].
    destruct typed as [|s0 more]; [reflexivity|].
    cbn [map]. now rewrite (Hfar s0 eq_refl). }
  rewrite Hp. cbn [stops setWaypoints setStops setUserLocation].
  split; [reflexivity|]. split; [reflexivity|].
  intros i s Hi. apply marker_of_stop; [exact Hi|].
  cbn [nth_error]. now rewrite nth_error_map, Hi.
Qed.

Lemma chat_markers_aligned_witness :
  nth_error
    (MapboxMap.markers
       (MapboxMap.points
          (snd (fst (handleSubmit None Walkthrough.located Walkthrough.chat
                                  initial))))
       (stops (snd (fst (handleSubmit None Walkthrough.located
                                      Walkthrough.chat initial)))))
    1
  = Some {| MapboxMap.label := MapboxMap.Numbered 1;
            MapboxMap.popup := card Walkthrough.museum_stop;
            MapboxMap.position :=
              (lng Walkthrough.museum_stop, lat Walkthrough.museum_stop) |}.
Proof.
  refine (proj2 (proj2
            (chat_markers_aligned None Walkthrough.located Walkthrough.chat
               initial Walkthrough.routed
               [Walkthrough.museum_stop; Walkthrough.park_stop]
               Sample.waterloo
               eq_refl eq_refl eq_refl eq_refl eq_refl eq_refl _))
            0%nat Walkthrough.museum_stop eq_refl).
  intros s [= <-]. reflexivity.
Defined.

End ChatInterfaceFacts.
